(** * Catalog service: query composer and link identifier normalizer

    A shallow embedding of the listing controller ([videoController.js]),
    the validation helpers ([utils/validators.js]), the request validation
    rules ([middleware/validation.js]), the document schema ([Video.js])
    and the link utilities ([utils/youtube.js]), followed by the properties
    proved about them.

    Conventions of the embedding.
    - A JavaScript number that holds a whole value is a [Z]: a finite
      double is the integer it equals, [Infinity] and [-Infinity] are
      [2^1024] and [- 2^1024] (the first magnitude that no finite double
      has), and [NaN] is the [None] of an [option Z].  Arithmetic rounds
      its exact result with [JS.fl], the way the arithmetic of doubles
      does; order, [Math.min] and [Math.max] are those of [Z].
    - A JavaScript string is a [string] whose characters are the code
      units below 256 (ASCII and Latin-1); [undefined] is the [None] of
      an option.
    - A query-string parameter is a string or is absent: parameters
      given more than once or with brackets, which the query parser
      turns into arrays and objects, are not in the embedding.
    - Timestamps maintained by the store layer ([createdAt], [updatedAt],
      [publishedAt]) are not fields of the modelled document: how the store
      orders by them is part of the store engine interface. *)

From Stdlib Require Import ZArith List Bool Ascii String Lia.
From Stdlib Require Import DecimalString.
From Stdlib Require Import Sorted Permutation.
Import ListNotations.

Local Open Scope string_scope.
Local Open Scope Z_scope.

(* ================================================================== *)
(** * Part I: the embedding *)
(* ================================================================== *)

(** ** JavaScript primitives used by the sources *)

Module JS.

(** The values that reach [parseInt] in the sources: a query-string
    parameter (a string, or [undefined] when it is absent) or a numeric
    default written in the code. *)
Inductive value : Type :=
| VUndefined
| VString (s : string)
| VNumber (n : Z).

(** The decimal numeral of an integer. *)
Definition Z_to_string (n : Z) : string :=
  NilZero.string_of_int (Z.to_int n).

(** [Infinity], as the carrier holds it. *)
Definition Infinity : Z := 2 ^ 1024.

(** The double nearest to an integer: 53 significant bits, a tie goes to
    the even significand, and from [2^1024 - 2^970] on the result is
    [Infinity].  Doubles of magnitude up to [2^53] are fixed. *)
Definition fl (n : Z) : Z :=
  let a := Z.abs n in
  let e := Z.log2 a - 52 in
  let r :=
    if e <=? 0 then a
    else
      let q := Z.shiftr a e in
      let rest := a - Z.shiftl q e in
      let half := Z.shiftl 1 (e - 1) in
      let q' := if (half <? rest) || ((rest =? half) && Z.odd q)
                then q + 1 else q in
      Z.shiftl q' e in
  Z.sgn n * Z.min r Infinity.

(** [a * b] on numbers that are not [NaN]: zero times an infinity is
    [NaN]. *)
Definition mul (a b : Z) : option Z :=
  if ((a =? 0) && (Z.abs b =? Infinity))
     || ((b =? 0) && (Z.abs a =? Infinity))
  then None
  else Some (fl (a * b)).

(** The shortest significand of a whole double [x > 2^53] of [d] decimal
    digits: the least number [k] of digits for which some [s] with
    [fl (s * 10^(d-k)) = x] exists, and for it the [s] nearest to [x]
    (the even one of two); the result is [s] and the exponent of ten
    that goes with it.  Seventeen digits tell any two doubles apart. *)
Fixpoint shortest (fuel : nat) (k d x : Z) : Z * Z :=
  match fuel with
  | O => (x, 0)
  | S fuel' =>
      let p := 10 ^ (d - k) in
      let lo := x / p in
      let hi := lo + 1 in
      let ok (s : Z) := fl (s * p) =? x in
      let hi_nearer :=
        (hi * p - x <? x - lo * p)
        || ((hi * p - x =? x - lo * p) && Z.even hi) in
      if ok lo then (if ok hi && hi_nearer then hi else lo, d - k)
      else if ok hi then (hi, d - k)
      else shortest fuel' (k + 1) d x
  end.

Fixpoint strip_zeros (rev_digits : list ascii) : list ascii :=
  match rev_digits with
  | "0"%char :: r => strip_zeros r
  | _ => rev_digits
  end.

(** The exponent form [d.ddde+n] of the significand [s] times [10^p]. *)
Definition exponent_form (s p : Z) : string :=
  let ds := Z_to_string s in
  let n := p + Z.of_nat (String.length ds) - 1 in
  match rev (strip_zeros (rev (list_ascii_of_string ds))) with
  | [] => ds
  | c :: [] => String c ("e+" ++ Z_to_string n)
  | c :: r => String c ("." ++ string_of_list_ascii r
                        ++ "e+" ++ Z_to_string n)
  end.

(** [Number::toString] on a whole number of the carrier.  Up to [2^53]
    every integer is a double, and the digits are those of the integer;
    above, they are the shortest digits that read back as the same
    double, followed by zeros below [10^21] and by an exponent from
    [10^21] on. *)
Definition Number_toString (x : Z) : string :=
  let a := Z.abs x in
  (if x <? 0 then "-" else EmptyString)
  ++ (if Infinity <=? a then "Infinity"
      else if a <=? 2 ^ 53 then Z_to_string a
      else
        let d := Z.of_nat (String.length (Z_to_string a)) in
        let '(s, p) := shortest 17 1 d a in
        if a <? 10 ^ 21 then Z_to_string (s * 10 ^ p)
        else exponent_form s p).

(** [ToString].  A number written in the source is the double its
    numeral rounds to. *)
Definition ToString (v : value) : string :=
  match v with
  | VUndefined => "undefined"
  | VString s => s
  | VNumber n => Number_toString (fl n)
  end.

(** [const { x = d } = obj]: the default applies only to [undefined]. *)
Definition with_default (raw : option string) (d : value) : value :=
  match raw with
  | Some s => VString s
  | None => d
  end.

(** A property read [obj.x]. *)
Definition prop (raw : option string) : value :=
  match raw with
  | Some s => VString s
  | None => VUndefined
  end.

(** White space and line terminators below 256, which [parseInt] skips
    and [String.prototype.trim] removes: TAB, LF, VT, FF, CR, SP and the
    no-break space U+00A0. *)
Definition is_ws (c : ascii) : bool :=
  let n := Z.of_N (N_of_ascii c) in
  ((9 <=? n) && (n <=? 13)) || (n =? 32) || (n =? 160).

Fixpoint skip_ws (s : string) : string :=
  match s with
  | String c s' => if is_ws c then skip_ws s' else s
  | EmptyString => s
  end.

(** Value of a digit in radix up to 36. *)
Definition digit_val (c : ascii) : option Z :=
  let n := Z.of_N (N_of_ascii c) in
  if (48 <=? n) && (n <=? 57) then Some (n - 48)
  else if (97 <=? n) && (n <=? 122) then Some (n - 87)
  else if (65 <=? n) && (n <=? 90) then Some (n - 55)
  else None.

(** Longest prefix of radix-[R] digits, as a number; [acc] is [None]
    until a first digit has been read. *)
Fixpoint digits (R : Z) (s : string) (acc : option Z) : option Z :=
  match s with
  | String c s' =>
      match digit_val c with
      | Some d =>
          if d <? R
          then digits R s' (Some (match acc with
                                  | Some a => a * R + d
                                  | None => d
                                  end))
          else acc
      | None => acc
      end
  | EmptyString => acc
  end.

(** Sign prefix of [parseInt]: the sign and the rest. *)
Definition take_sign (s : string) : Z * string :=
  match s with
  | String "-" s' => (-1, s')
  | String "+" s' => (1, s')
  | _ => (1, s)
  end.

(** [0x] / [0X] prefix, stripped when the radix is 16 or not given. *)
Definition strip_hex (s : string) : option string :=
  match s with
  | String "0" (String "x" s') => Some s'
  | String "0" (String "X" s') => Some s'
  | _ => None
  end.

(** [parseInt(v, radix)]; [radix = None] is a call with one argument.
    [None] as a result is [NaN]; a number is the double nearest to the
    integer that the digits denote. *)
Definition parseInt (v : value) (radix : option Z) : option Z :=
  let '(sign, str) := take_sign (skip_ws (ToString v)) in
  let number (d : Z) := fl (sign * d) in
  let R0 := match radix with Some r => r | None => 0 end in
  if (R0 =? 0) || (R0 =? 16) then
    match strip_hex str with
    | Some str' => option_map number (digits 16 str' None)
    | None =>
        option_map number
                   (digits (if R0 =? 0 then 10 else 16) str None)
    end
  else if (R0 <? 2) || (36 <? R0) then None
  else option_map number (digits R0 str None).

(** [n || d] on a number: [NaN] and [0] are falsy. *)
Definition or_else (n : option Z) (d : Z) : Z :=
  match n with
  | Some k => if k =? 0 then d else k
  | None => d
  end.

(** Truthiness of an optional string: [undefined] and [""] are falsy. *)
Definition truthy (raw : option string) : bool :=
  match raw with
  | Some EmptyString => false
  | Some _ => true
  | None => false
  end.

End JS.

(** ** String methods used by the sources *)

Module Text.

(** Leading white space removed. *)
Fixpoint drop_ws (s : list ascii) : list ascii :=
  match s with
  | c :: s' => if JS.is_ws c then drop_ws s' else s
  | [] => []
  end.

(** No white space at the start. *)
Definition starts_clean (l : list ascii) : Prop :=
  forall c r, l = c :: r -> JS.is_ws c = false.

(** No white space at the end. *)
Definition ends_clean (l : list ascii) : Prop :=
  forall a c, l = (a ++ [c])%list -> JS.is_ws c = false.

(** [String.prototype.trim], on the white space of [JS.is_ws]. *)
Definition trim_chars (s : list ascii) : list ascii :=
  rev (drop_ws (rev (drop_ws s))).

Definition trim (s : string) : string :=
  string_of_list_ascii (trim_chars (list_ascii_of_string s)).

(** [s.slice(0, stop)]: a negative [stop] counts from the end. *)
Definition slice0 (stop : Z) (s : list ascii) : list ascii :=
  let len := Z.of_nat (List.length s) in
  let k := if stop <? 0 then Z.max (len + stop) 0 else Z.min stop len in
  firstn (Z.to_nat k) s.

(** A decimal digit. *)
Definition is_digit (c : ascii) : bool :=
  let n := N_of_ascii c in ((48 <=? n) && (n <=? 57))%N.

(** [s.split(sep)] for a separator of one character. *)
Fixpoint split_chars (sep : ascii) (s : list ascii) : list (list ascii) :=
  match s with
  | [] => [[]]
  | c :: s' =>
      if Ascii.eqb c sep then [] :: split_chars sep s'
      else match split_chars sep s' with
           | h :: t => (c :: h) :: t
           | [] => [[c]]
           end
  end.

Definition split (sep : ascii) (s : string) : list string :=
  map string_of_list_ascii (split_chars sep (list_ascii_of_string s)).

End Text.

(** ** utils/validators.js *)

Module Validators.

Record Pagination := { page : Z; limit : Z }.

(** [validatePagination(query)], on the two properties it reads. *)
Definition validatePagination (q_page q_limit : option string)
  : Pagination :=
  {| page := Z.max 1 (JS.or_else (JS.parseInt (JS.prop q_page) None) 1);
     limit := Z.min 50
                (Z.max 1
                   (JS.or_else (JS.parseInt (JS.prop q_limit) None) 10))
  |}.

Record Sort := { sortBy : string; sortOrder : string }.

Definition includes (xs : list string) (x : option string) : bool :=
  match x with
  | Some s => existsb (String.eqb s) xs
  | None => false
  end.

Definition default_allowedFields : list string :=
  ["createdAt"; "updatedAt"; "title"; "views"].

(** [validateSort(sortBy, sortOrder, allowedFields)]. *)
Definition validateSort (sortBy sortOrder : option string)
           (allowedFields : list string) : Sort :=
  {| sortBy := match sortBy with
               | Some s => if includes allowedFields sortBy
                           then s else "createdAt"
               | None => "createdAt"
               end;
     sortOrder := match sortOrder with
                  | Some s => if includes ["asc"; "desc"] sortOrder
                              then s else "desc"
                  | None => "desc"
                  end |}.

End Validators.

(** ** Pagination and sort arithmetic of [getAllVideos] *)

Module Paging.

(** [parseInt(page, 10)] with [page = 1] as destructuring default. *)
Definition page_value (page : option string) : option Z :=
  JS.parseInt (JS.with_default page (JS.VNumber 1)) (Some 10).

(** [parseInt(limit, 10)] with [limit = 10] as destructuring default. *)
Definition limit_value (limit : option string) : option Z :=
  JS.parseInt (JS.with_default limit (JS.VNumber 10)) (Some 10).

(** [const pageNumber = parseInt(page, 10) || 1]. *)
Definition pageNumber (page : option string) : Z :=
  JS.or_else (page_value page) 1.

(** [const pageSize = Math.min(parseInt(limit, 10) || 10, 50)]. *)
Definition pageSize (limit : option string) : Z :=
  Z.min (JS.or_else (limit_value limit) 10) 50.

(** [const skip = (pageNumber - 1) * pageSize]; [None] is [NaN]. *)
Definition skip (page limit : option string) : option Z :=
  JS.mul (JS.fl (pageNumber page - 1)) (pageSize limit).

(** [Math.ceil(a / b)] for a count [a] below [2^53] and [b <> 0]: the
    quotient of such a count rounds to a whole double only when it is
    whole, so the ceiling of the rounded quotient is the ceiling of
    the exact one; a quotient by [-Infinity] is zero. *)
Definition ceil_div (a b : Z) : Z := - ((- a) / b).

(** [sortOptions[sortBy] = sortOrder === 'desc' ? -1 : 1], with the
    destructuring defaults ['createdAt'] and ['desc']. *)
Definition sortOptions (sortBy sortOrder : option string)
  : list (string * Z) :=
  let key := match sortBy with Some s => s | None => "createdAt" end in
  let ord := match sortOrder with Some s => s | None => "desc" end in
  [(key, if String.eqb ord "desc" then -1 else 1)].

End Paging.

(** ** The regular expressions of the sources

    A backtracking matcher for the fragment of ECMAScript regular
    expressions that the sources use: literal runs, greedy optional groups,
    alternation, greedy [+] and counted [{n}] repetition of a character
    class, and one capturing group.  [run] lists the ways a pattern matches
    at the start of the input in the priority order of the backtracking
    semantics, so that its head is the match a JavaScript engine reports. *)

Module Regex.

Inductive item : Type :=
| One (c : ascii)
| Range (lo hi : ascii).

(** A bracket expression: [[...]] or [[^...]]. *)
Record cclass : Type := { negated : bool; items : list item }.

Definition in_item (c : ascii) (i : item) : bool :=
  match i with
  | One d => Ascii.eqb c d
  | Range lo hi =>
      ((N_of_ascii lo <=? N_of_ascii c)%N
       && (N_of_ascii c <=? N_of_ascii hi)%N)%bool
  end.

Definition in_class (k : cclass) (c : ascii) : bool :=
  xorb (negated k) (existsb (in_item c) (items k)).

Inductive regex : Type :=
| Lit (w : string)
| Opt (r : regex)
| Alt (r1 r2 : regex)
| Seq (r1 r2 : regex)
| Plus (k : cclass)
| Times (n : nat) (k : cclass)
| Group (r : regex).

(** The rest of [s] after the prefix [w], when [w] is a prefix. *)
Fixpoint strip_prefix (w s : list ascii) : option (list ascii) :=
  match w, s with
  | [], _ => Some s
  | a :: w', b :: s' => if Ascii.eqb a b then strip_prefix w' s' else None
  | _ :: _, [] => None
  end.

(** Rests after zero or more characters of [k], longest run first. *)
Fixpoint star_rests (k : cclass) (s : list ascii) : list (list ascii) :=
  match s with
  | c :: s' => if in_class k c then star_rests k s' ++ [s] else [s]
  | [] => [s]
  end.

Definition plus_rests (k : cclass) (s : list ascii) : list (list ascii) :=
  match s with
  | c :: s' => if in_class k c then star_rests k s' else []
  | [] => []
  end.

(** Rest after exactly [n] characters of [k]. *)
Fixpoint times_rest (n : nat) (k : cclass) (s : list ascii)
  : option (list ascii) :=
  match n, s with
  | O, _ => Some s
  | S n', c :: s' => if in_class k c then times_rest n' k s' else None
  | S _, [] => None
  end.

(** The part of [s] consumed when [rest] is what remains. *)
Definition consumed (s rest : list ascii) : list ascii :=
  firstn (List.length s - List.length rest) s.

(** A match: the text of group 1 ([None] while the group has not taken
    part) and the rest of the input. *)
Definition result : Type := option (list ascii) * list ascii.

Fixpoint run (r : regex) (s : list ascii) : list result :=
  match r with
  | Lit w =>
      match strip_prefix (list_ascii_of_string w) s with
      | Some rest => [(None, rest)]
      | None => []
      end
  | Opt r1 => run r1 s ++ [(None, s)]
  | Alt r1 r2 => run r1 s ++ run r2 s
  | Seq r1 r2 =>
      flat_map
        (fun m1 : result =>
           map (fun m2 : result =>
                  (match fst m2 with Some _ => fst m2 | None => fst m1 end,
                   snd m2))
               (run r2 (snd m1)))
        (run r1 s)
  | Plus k => map (fun rest => (None, rest)) (plus_rests k s)
  | Times n k =>
      match times_rest n k s with
      | Some rest => [(None, rest)]
      | None => []
      end
  | Group r1 =>
      map (fun m : result => (Some (consumed s (snd m)), snd m)) (run r1 s)
  end.

(** [RegExp.prototype.exec] without the global flag: the first start
    position with a match, and there the match of highest priority.  The
    result is the text of group 1. *)
Fixpoint exec (r : regex) (s : list ascii) : option (option (list ascii)) :=
  match run r s with
  | m :: _ => Some (fst m)
  | [] =>
      match s with
      | _ :: s' => exec r s'
      | [] => None
      end
  end.

(** [str.match(re)] followed by a read of [match[1]]: [None] when there
    is no match, [Some None] when group 1 is [undefined]. *)
Definition match1 (s : string) (r : regex) : option (option string) :=
  option_map (option_map string_of_list_ascii)
             (exec r (list_ascii_of_string s)).

(** [w] occurs in [s] as a contiguous run. *)
Definition infix (w s : list ascii) : Prop :=
  exists a b, s = (a ++ w ++ b)%list.

Fixpoint infixb (w s : list ascii) : bool :=
  match strip_prefix w s with
  | Some _ => true
  | None =>
      match s with
      | _ :: s' => infixb w s'
      | [] => false
      end
  end.

(** Every match of [r] contains one of the literals [ws]. *)
Definition needs (r : regex) (ws : list (list ascii)) : Prop :=
  forall s m, In m (run r s) -> exists w, In w ws /\ infix w s.

(** [(?:https?:\/\/)?] *)
Definition opt_protocol : regex :=
  Opt (Seq (Lit "http") (Seq (Opt (Lit "s")) (Lit "://"))).

(** [(?:www\.)?] *)
Definition opt_www : regex := Opt (Lit "www.").

(** [[^&\n?#]] *)
Definition not_separator : cclass :=
  {| negated := true; items := [One "&"; One "010"; One "?"; One "#"] |}.

(** [[a-zA-Z0-9_-]] *)
Definition token_char : cclass :=
  {| negated := false;
     items := [Range "a" "z"; Range "A" "Z"; Range "0" "9";
               One "_"; One "-"] |}.

End Regex.

(** ** Identifier extraction in videoController.js *)

Module Extract.
Import Regex.

(** The [patterns] array of [extractYoutubeVideoId], in its order. *)
Definition pattern_of (marker : string) : regex :=
  Seq opt_protocol
      (Seq opt_www (Seq (Lit marker) (Group (Plus not_separator)))).

Definition patterns : list regex :=
  [ pattern_of "youtube.com/watch?v=";
    pattern_of "youtu.be/";
    pattern_of "youtube.com/embed/";
    pattern_of "youtube.com/v/" ].

(** The [for (let pattern of patterns)] loop: the first pattern with
    [match && match[1]] decides. *)
Fixpoint first_match (url : string) (ps : list regex) : option string :=
  match ps with
  | p :: ps' =>
      match match1 url p with
      | Some (Some (String c id')) => Some (String c id')
      | _ => first_match url ps'
      end
  | [] => None
  end.

(** [extractYoutubeVideoId(url)]; [None] is [null]. *)
Definition extractYoutubeVideoId (url : string) : option string :=
  first_match url patterns.

End Extract.

(** ** utils/youtube.js *)

Module Youtube.
Import Regex.

(** The regular expression of [extractVideoId] (the same one is used by
    the pre-save hook of the schema). *)
Definition regex_id : regex :=
  Seq (Alt (Lit "youtube.com/watch?v=")
           (Alt (Lit "youtu.be/") (Lit "youtube.com/embed/")))
      (Group (Times 11 token_char)).

(** [extractVideoId(url)]. *)
Definition extractVideoId (url : string) : option string :=
  match url with
  | EmptyString => None
  | _ =>
      match match1 url regex_id with
      | Some (Some id) => Some id
      | _ => None
      end
  end.

(** [getThumbnailUrl(videoId, quality = 'maxresdefault')]. *)
Definition getThumbnailUrl (videoId : string) (quality : option string)
  : option string :=
  match videoId with
  | EmptyString => None
  | _ =>
      Some ("https://img.youtube.com/vi/" ++ videoId ++ "/"
            ++ match quality with Some q => q | None => "maxresdefault" end
            ++ ".jpg")
  end.

(** [getWatchUrl(videoId)]. *)
Definition getWatchUrl (videoId : string) : option string :=
  match videoId with
  | EmptyString => None
  | _ => Some ("https://www.youtube.com/watch?v=" ++ videoId)
  end.

(** An offset as [getEmbedUrl] uses it: [if (options.start)] reads the
    truthiness of the value and [params.append] its string form.  Every
    value that is not [undefined] is such a pair. *)
Record Offset : Type := { o_truthy : bool; o_text : string }.

(** A whole number of seconds, written as the numeral [n]: the double
    that [n] rounds to.  Zero is falsy. *)
Definition seconds (n : Z) : Offset :=
  {| o_truthy := negb (JS.fl n =? 0);
     o_text := JS.Number_toString (JS.fl n) |}.

(** [NaN] as an offset. *)
Definition not_a_number : Offset :=
  {| o_truthy := false; o_text := "NaN" |}.

(** The [options] object of [getEmbedUrl]: a flag is [undefined] or a
    value, seen through its truthiness; an offset is [undefined] or a
    value. *)
Record EmbedOptions : Type := {
  autoplay : option bool;
  mute : option bool;
  controls : option bool;
  showinfo : option bool;
  rel : option bool;
  start : option Offset;
  end_ : option Offset
}.

(** [options = {}]. *)
Definition no_options : EmbedOptions :=
  {| autoplay := None; mute := None; controls := None; showinfo := None;
     rel := None; start := None; end_ := None |}.

(** [if (options.x) params.append(name, '1')]. *)
Definition when_true (name : string) (x : option bool)
  : list (string * string) :=
  match x with
  | Some true => [(name, "1")]
  | _ => []
  end.

(** [if (options.x !== undefined) params.append(name, options.x ? '1' : '0')]. *)
Definition when_defined (name : string) (x : option bool)
  : list (string * string) :=
  match x with
  | Some b => [(name, if b then "1" else "0")]
  | None => []
  end.

(** [if (options.x) params.append(name, options.x)]: [append] stores the
    string form of the value. *)
Definition when_truthy (name : string) (x : option Offset)
  : list (string * string) :=
  match x with
  | Some v => if o_truthy v then [(name, o_text v)] else []
  | None => []
  end.

(** The entries appended to [params], in order. *)
Definition embed_params (o : EmbedOptions) : list (string * string) :=
  when_true "autoplay" (autoplay o)
  ++ when_true "mute" (mute o)
  ++ when_defined "controls" (controls o)
  ++ when_defined "showinfo" (showinfo o)
  ++ when_defined "rel" (rel o)
  ++ when_truthy "start" (start o)
  ++ when_truthy "end" (end_ o).

Definition hex_upper (n : N) : ascii :=
  ascii_of_N (if (n <? 10)%N then 48 + n else 55 + n).

(** [%XX] for a byte. *)
Definition percent (byte : N) : string :=
  String "%" (String (hex_upper (byte / 16))
                     (String (hex_upper (byte mod 16)) EmptyString)).

(** The serialization of one code unit in a form-encoded query: a space
    is [+]; letters, digits, [*], [-], [.] and [_] stand for themselves;
    any other byte of the UTF-8 form of the code unit is [%XX]. *)
Definition form_encode_char (c : ascii) : string :=
  let n := N_of_ascii c in
  if (n =? 32)%N then "+"
  else if (((48 <=? n) && (n <=? 57)) || ((65 <=? n) && (n <=? 90))
           || ((97 <=? n) && (n <=? 122))
           || (n =? 42) || (n =? 45) || (n =? 46) || (n =? 95))%N
       then String c EmptyString
  else if (n <? 128)%N then percent n
  else percent (192 + n / 64) ++ percent (128 + n mod 64).

Fixpoint form_encode (s : string) : string :=
  match s with
  | EmptyString => EmptyString
  | String c s' => form_encode_char c ++ form_encode s'
  end.

(** [URLSearchParams.prototype.toString]. *)
Definition query_string (ps : list (string * string)) : string :=
  String.concat "&" (map (fun kv => form_encode (fst kv) ++ "="
                                    ++ form_encode (snd kv)) ps).

(** [getEmbedUrl(videoId, options = {})]. *)
Definition getEmbedUrl (videoId : string) (options : EmbedOptions)
  : option string :=
  match videoId with
  | EmptyString => None
  | _ =>
      let baseUrl := "https://www.youtube.com/embed/" ++ videoId in
      match query_string (embed_params options) with
      | EmptyString => Some baseUrl
      | queryString => Some (baseUrl ++ "?" ++ queryString)
      end
  end.

End Youtube.

(** ** Video.js: the document schema *)

Module Model.

(** A stored document.  Optional paths are [None] when they are not
    set. *)
Record Video : Type := {
  _id : string;
  title : string;
  description : string;
  bookTitle : string;
  chapter : string;
  type : string;
  youtubeUrl : option string;
  youtubeVideoId : option string;
  thumbnailUrl : option string;
  fileUrl : option string;
  fileName : option string;
  fileSize : option Z;
  duration : option string;
  views : Z;
  likes : Z;
  isActive : bool;
  tags : list string;
  difficulty : string;
  subject : option string;
  grade : option string;
  uploadedBy : string
}.

Definition set_isActive (b : bool) (v : Video) : Video :=
  {| _id := _id v; title := title v; description := description v;
     bookTitle := bookTitle v; chapter := chapter v; type := type v;
     youtubeUrl := youtubeUrl v; youtubeVideoId := youtubeVideoId v;
     thumbnailUrl := thumbnailUrl v; fileUrl := fileUrl v;
     fileName := fileName v; fileSize := fileSize v;
     duration := duration v; views := views v; likes := likes v;
     isActive := b; tags := tags v; difficulty := difficulty v;
     subject := subject v; grade := grade v; uploadedBy := uploadedBy v |}.

Definition set_views (n : Z) (v : Video) : Video :=
  {| _id := _id v; title := title v; description := description v;
     bookTitle := bookTitle v; chapter := chapter v; type := type v;
     youtubeUrl := youtubeUrl v; youtubeVideoId := youtubeVideoId v;
     thumbnailUrl := thumbnailUrl v; fileUrl := fileUrl v;
     fileName := fileName v; fileSize := fileSize v;
     duration := duration v; views := n; likes := likes v;
     isActive := isActive v; tags := tags v; difficulty := difficulty v;
     subject := subject v; grade := grade v; uploadedBy := uploadedBy v |}.

Definition set_youtube (id thumb : string) (v : Video) : Video :=
  {| _id := _id v; title := title v; description := description v;
     bookTitle := bookTitle v; chapter := chapter v; type := type v;
     youtubeUrl := youtubeUrl v; youtubeVideoId := Some id;
     thumbnailUrl := Some thumb; fileUrl := fileUrl v;
     fileName := fileName v; fileSize := fileSize v;
     duration := duration v; views := views v; likes := likes v;
     isActive := isActive v; tags := tags v; difficulty := difficulty v;
     subject := subject v; grade := grade v; uploadedBy := uploadedBy v |}.

(** [videoSchema.pre('save', ...)]: derive identifier and thumbnail from
    the link of a video entry. *)
Definition pre_save (v : Video) : Video :=
  match youtubeUrl v with
  | Some url =>
      if JS.truthy (Some url) && String.eqb (type v) "video" then
        match Regex.match1 url Youtube.regex_id with
        | Some (Some id) =>
            set_youtube id ("https://img.youtube.com/vi/" ++ id
                            ++ "/maxresdefault.jpg") v
        | _ => v
        end
      else v
  | None => v
  end.

(** The paths a filter of the controller can name. *)
Inductive path : Type :=
| PTitle | PDescription | PBookTitle | PChapter | PType
| PSubject | PGrade | PDifficulty.

Definition read (p : path) (v : Video) : option string :=
  match p with
  | PTitle => Some (title v)
  | PDescription => Some (description v)
  | PBookTitle => Some (bookTitle v)
  | PChapter => Some (chapter v)
  | PType => Some (type v)
  | PSubject => subject v
  | PGrade => grade v
  | PDifficulty => Some (difficulty v)
  end.

(** A condition on one path.  A compiled regular expression is carried
    as its test. *)
Inductive cond : Type :=
| IsActive (b : bool)
| Equals (p : path) (s : string)
| Matches (p : path) (test : string -> bool)
| TagsIn (test : string -> bool).

(** One key of a filter object: a condition, or an [$or] group. *)
Inductive clause : Type :=
| Key (c : cond)
| Or (cs : list cond).

(** The setters of the schema, which the store layer applies to the
    value of a filter as it does to the value of a document: the paths
    declared with [trim: true] trim it.  ([type] and [difficulty] are
    declared with an [enum], which is a validator and not a setter.) *)
Definition cast (p : path) (s : string) : string :=
  match p with
  | PType | PDifficulty => s
  | PTitle | PDescription | PBookTitle | PChapter | PSubject | PGrade =>
      Text.trim s
  end.

Definition cond_holds (c : cond) (v : Video) : bool :=
  match c with
  | IsActive b => Bool.eqb (isActive v) b
  | Equals p s =>
      match read p v with
      | Some x => String.eqb x (cast p s)
      | None => false
      end
  | Matches p test =>
      match read p v with
      | Some x => test x
      | None => false
      end
  | TagsIn test => existsb test (tags v)
  end.

Definition holds (c : clause) (v : Video) : bool :=
  match c with
  | Key c' => cond_holds c' v
  | Or cs => existsb (fun c' => cond_holds c' v) cs
  end.

(** A filter object: all of its keys must hold. *)
Definition filter_ : Type := list clause.

Definition satisfies (q : filter_) (v : Video) : bool :=
  forallb (fun c => holds c v) q.

(** The collection, in the store's natural order. *)
Definition collection : Type := list Video.

(** The documents of the collection that a filter selects. *)
Definition select (db : collection) (q : filter_) : list Video :=
  filter (satisfies q) db.

(** [Video.countDocuments(q)]. *)
Definition countDocuments (db : collection) (q : filter_) : Z :=
  Z.of_nat (List.length (select db q)).

(** What the sources use of the store and of the JavaScript runtime
    without implementing it. *)
Class Engine : Type := {
  (** [new RegExp(source, 'i')] as the test it compiles to; [None] when
      the constructor throws a [SyntaxError]. *)
  RegExp_i : string -> option (string -> bool);
  (** The [.sort(..).skip(..).limit(..)] stage of a query over the
      selected documents.  [None] in an argument: the stage is not
      requested; [Some None]: it is requested with [NaN].  [None] as a
      result when the store refuses the request. *)
  cursor : list (string * Z) -> option (option Z) -> option (option Z) ->
           list Video -> option (list Video);
  (** Whether a string casts to the store's identifier type. *)
  castObjectId : string -> bool;
  (** Document validation on [save()]. *)
  validate : Video -> bool
}.

(** A query stage only returns documents it was given. *)
Class EngineLaws (E : Engine) : Prop := {
  cursor_incl :
    forall so sk li xs ys, cursor so sk li xs = Some ys -> incl ys xs
}.

Inductive StoreError : Type := CastError | OtherError.

Fixpoint first_by_id (db : collection) (id : string) : option Video :=
  match db with
  | v :: db' => if String.eqb (_id v) id then Some v else first_by_id db' id
  | [] => None
  end.

(** Replace the first document whose [_id] is [id] by [f] of it. *)
Fixpoint update_by_id (db : collection) (id : string)
         (f : Video -> Video) : collection :=
  match db with
  | v :: db' =>
      if String.eqb (_id v) id then f v :: db'
      else v :: update_by_id db' id f
  | [] => []
  end.

Section Store.
Context {E : Engine}.

(** [Video.findById(id)]. *)
Definition findById (db : collection) (id : string)
  : StoreError + option Video :=
  if castObjectId id then inr (first_by_id db id) else inl CastError.

(** [Video.findByIdAndUpdate(id, update, { new: true })]: the updated
    document and the collection after the update. *)
Definition findByIdAndUpdate (db : collection) (id : string)
           (f : Video -> Video)
  : StoreError + (option Video * collection) :=
  if castObjectId id then
    inr (option_map f (first_by_id db id), update_by_id db id f)
  else inl CastError.

(** [doc.save()] on a document read from the collection: document
    validation, then the pre-save hook, then the write. *)
Definition save (db : collection) (v : Video)
  : StoreError + (Video * collection) :=
  if validate v then
    let v' := pre_save v in
    inr (v', update_by_id db (_id v) (fun _ => v'))
  else inl OtherError.

(** [videoSchema.methods.incrementViews]. *)
Definition incrementViews (db : collection) (v : Video)
  : StoreError + (Video * collection) :=
  save db (set_views (views v + 1) v).

(** [Video.distinct(path, q)] for a string path: the values in order
    of first occurrence. *)
Definition distinct (f : Video -> string) (db : collection)
           (q : filter_) : list string :=
  nodup string_dec (map f (select db q)).

End Store.

End Model.

(** ** middleware/validation.js: the rules of the list route *)

Module Validation.

(** The query string of a list request, on the parameters the sources
    read; [None] is an absent parameter. *)
Record ListQuery : Type := {
  q_page : option string;
  q_limit : option string;
  q_bookTitle : option string;
  q_chapter : option string;
  q_type : option string;
  q_subject : option string;
  q_grade : option string;
  q_difficulty : option string;
  q_search : option string;
  q_sortBy : option string;
  q_sortOrder : option string
}.

Inductive param : Type :=
| Ppage | Plimit | Ptype | Pdifficulty | PsortBy | PsortOrder.

Definition read_param (p : param) (q : ListQuery) : option string :=
  match p with
  | Ppage => q_page q
  | Plimit => q_limit q
  | Ptype => q_type q
  | Pdifficulty => q_difficulty q
  | PsortBy => q_sortBy q
  | PsortOrder => q_sortOrder q
  end.

Inductive check : Type :=
| isInt (min max : option Z)
| isIn (allowed : list string).

(** [query(p).optional().<check>.withMessage(msg)]. *)
Record rule : Type := { on : param; must : check; message : string }.

(** [queryValidationRules()].  The message of the [type] rule is written
    without the quotation marks it has in the source. *)
Definition queryValidationRules : list rule :=
  [ {| on := Ppage; must := isInt (Some 1) None;
       message := "Page must be a positive integer" |};
    {| on := Plimit; must := isInt (Some 1) (Some 50);
       message := "Limit must be between 1 and 50" |};
    {| on := Ptype; must := isIn ["video"; "image"];
       message := "Type must be either video or image" |};
    {| on := Pdifficulty; must := isIn ["easy"; "medium"; "hard"];
       message := "Difficulty must be easy, medium, or hard" |};
    {| on := PsortBy;
       must := isIn ["createdAt"; "updatedAt"; "title"; "views"; "likes"];
       message := "Invalid sort field" |};
    {| on := PsortOrder; must := isIn ["asc"; "desc"];
       message := "Sort order must be asc or desc" |} ].

Fixpoint all_digits (s : string) : bool :=
  match s with
  | String c s' =>
      (let n := Z.of_N (N_of_ascii c) in (48 <=? n) && (n <=? 57))
      && all_digits s'
  | EmptyString => true
  end.

(** The number a string is for [isInt] of validator.js: the string has
    to be an optional sign and digits ([/^[-+]?[0-9]+$/]: leading zeros
    are refused only under the option [allow_leading_zeroes: false],
    which the rules do not set), and the bounds are compared with the
    number it converts to, which on such a string is the number that
    [parseInt] reads in radix 10. *)
Definition int_of_string (s : string) : option Z :=
  match snd (JS.take_sign s) with
  | EmptyString => None
  | body => if all_digits body
            then JS.parseInt (JS.VString s) (Some 10) else None
  end.

(** [query(p).<check>] on the value of a parameter that is present. *)
Definition passes (c : check) (value : string) : bool :=
  match c with
  | isInt lo hi =>
      match int_of_string value with
      | Some n =>
          (match lo with Some l => l <=? n | None => true end)
          && (match hi with Some h => n <=? h | None => true end)
      | None => false
      end
  | isIn allowed => existsb (String.eqb value) allowed
  end.

(** A validation error: the parameter and the message. *)
Definition error : Type := param * string.

(** Running one optional rule: nothing is checked on an absent
    parameter. *)
Definition run_rule (q : ListQuery) (r : rule) : list error :=
  match read_param (on r) q with
  | Some value => if passes (must r) value then [] else [(on r, message r)]
  | None => []
  end.

(** A request as a handler receives it: the query string and the
    validation errors that the rules in front of the handler have
    recorded.  The rules record; they do not answer the request. *)
Record Request : Type := {
  query : ListQuery;
  validationErrors : list error
}.

Definition run_rules (rules : list rule) (q : ListQuery) : Request :=
  {| query := q; validationErrors := flat_map (run_rule q) rules |}.

End Validation.

(** ** videoController.js *)

Module Controller.
Import Model Validation.

Record PageInfo : Type := {
  currentPage : Z;
  totalPages : Z;
  totalCount : Z;
  hasNextPage : bool;
  hasPrevPage : bool;
  nextPage : option Z;
  prevPage : option Z
}.

(** The [filters] object echoed by the list operation. *)
Record Filters : Type := {
  f_bookTitle : option string;
  f_chapter : option string;
  f_type : option string;
  f_subject : option string;
  f_grade : option string;
  f_difficulty : option string;
  f_search : option string
}.

(** A row of [recentVideos]:
    [.select('title bookTitle chapter createdAt views')]. *)
Record Recent : Type := {
  r_id : string;
  r_title : string;
  r_bookTitle : string;
  r_chapter : string;
  r_views : Z
}.

Record Totals : Type := {
  t_videos : Z;
  t_images : Z;
  t_views : Z;
  t_total : Z
}.

Record Stats : Type := {
  totals : Totals;
  topBooks : list (string * Z);
  recentVideos : list Recent
}.

(** The JSON body of a response.  The [error] text of a failure depends
    on the process environment and is not modelled. *)
Inductive Body : Type :=
| Listing (data : list Video) (pagination : PageInfo) (filters : Filters)
| Single (data : Video)
| Names (data : list string)
| Statistics (data : Stats)
| Message (text : string).

Record Response : Type := { status : Z; success : bool; body : Body }.

Definition failure (code : Z) (text : string) : Response :=
  {| status := code; success := false; body := Message text |}.

Section Handlers.
Context {E : Engine}.

(** [if (x) query.p = new RegExp(x, 'i')]; [None] when the constructor
    throws. *)
Definition regex_key (p : path) (x : option string)
  : option (list clause) :=
  match x with
  | Some src =>
      if JS.truthy x
      then option_map (fun t => [Key (Matches p t)]) (RegExp_i src)
      else Some []
  | None => Some []
  end.

(** [if (x) query.p = x]. *)
Definition equal_key (p : path) (x : option string) : list clause :=
  match x with
  | Some s => if JS.truthy x then [Key (Equals p s)] else []
  | None => []
  end.

(** [if (search) query.$or = [...]]. *)
Definition search_key (x : option string) : option (list clause) :=
  match x with
  | Some src =>
      if JS.truthy x
      then option_map
             (fun t => [Or [Matches PTitle t; Matches PDescription t;
                            Matches PBookTitle t; Matches PChapter t;
                            TagsIn t]])
             (RegExp_i src)
      else Some []
  | None => Some []
  end.

Definition and_then {A B : Type} (x : option A) (k : A -> option B)
  : option B :=
  match x with
  | Some a => k a
  | None => None
  end.

(** The filter object built by [getAllVideos]; [None] when building it
    throws. *)
Definition build_query (q : ListQuery) : option filter_ :=
  and_then (regex_key PBookTitle (q_bookTitle q)) (fun k_book =>
  and_then (regex_key PChapter (q_chapter q)) (fun k_chapter =>
  and_then (regex_key PSubject (q_subject q)) (fun k_subject =>
  and_then (search_key (q_search q)) (fun k_search =>
  Some ([Key (IsActive true)]
        ++ k_book ++ k_chapter
        ++ equal_key PType (q_type q)
        ++ k_subject
        ++ equal_key PGrade (q_grade q)
        ++ equal_key PDifficulty (q_difficulty q)
        ++ k_search)%list)))).

Definition page_info (pageNumber pageSize count : Z) : PageInfo :=
  let totalPages := Paging.ceil_div count pageSize in
  let hasNextPage := pageNumber <? totalPages in
  let hasPrevPage := 1 <? pageNumber in
  {| currentPage := pageNumber;
     totalPages := totalPages;
     totalCount := count;
     hasNextPage := hasNextPage;
     hasPrevPage := hasPrevPage;
     nextPage := if hasNextPage then Some (JS.fl (pageNumber + 1))
                 else None;
     prevPage := if hasPrevPage then Some (JS.fl (pageNumber - 1))
                 else None |}.

(** [getAllVideos(req, res)]. *)
Definition getAllVideos (db : collection) (req : Request) : Response :=
  let q := query req in
  match build_query q with
  | None => failure 500 "Error fetching videos"
  | Some filter =>
      let pageNumber := Paging.pageNumber (q_page q) in
      let pageSize := Paging.pageSize (q_limit q) in
      let skip := Paging.skip (q_page q) (q_limit q) in
      let sortOptions := Paging.sortOptions (q_sortBy q) (q_sortOrder q) in
      match cursor sortOptions (Some skip) (Some (Some pageSize))
                   (select db filter) with
      | None => failure 500 "Error fetching videos"
      | Some videos =>
          {| status := 200; success := true;
             body :=
               Listing videos
                 (page_info pageNumber pageSize
                            (countDocuments db filter))
                 {| f_bookTitle := q_bookTitle q;
                    f_chapter := q_chapter q;
                    f_type := q_type q;
                    f_subject := q_subject q;
                    f_grade := q_grade q;
                    f_difficulty := q_difficulty q;
                    f_search := q_search q |} |}
      end
  end.

(** The list route: [router.get('/', queryValidationRules(),
    getAllVideos)]. *)
Definition list_route (db : collection) (q : ListQuery) : Response :=
  getAllVideos db (run_rules queryValidationRules q).

(** [getVideoById(req, res)]: the response and the collection after
    the call. *)
Definition getVideoById (db : collection) (id : string)
  : Response * collection :=
  match findById db id with
  | inl CastError => (failure 400 "Invalid video ID format", db)
  | inl OtherError => (failure 500 "Error fetching video", db)
  | inr None => (failure 404 "Video not found", db)
  | inr (Some video) =>
      if negb (isActive video)
      then (failure 404 "Video not found", db)
      else
        match incrementViews db video with
        | inl CastError => (failure 400 "Invalid video ID format", db)
        | inl OtherError => (failure 500 "Error fetching video", db)
        | inr (video', db') =>
            ({| status := 200; success := true; body := Single video' |},
             db')
        end
  end.

(** [deleteVideo(req, res)]: the response and the collection after the
    call. *)
Definition deleteVideo (db : collection) (id : string)
  : Response * collection :=
  match findByIdAndUpdate db id (set_isActive false) with
  | inl CastError => (failure 400 "Invalid video ID format", db)
  | inl OtherError => (failure 500 "Error deleting video", db)
  | inr (None, _) => (failure 404 "Video not found", db)
  | inr (Some _, db') =>
      ({| status := 200; success := true;
          body := Message "Video deleted successfully" |}, db')
  end.

(** [Array.prototype.sort()] on strings: insertion into code-unit
    order. *)
Fixpoint insert_sorted (x : string) (xs : list string) : list string :=
  match xs with
  | y :: ys => if String.leb x y then x :: xs else y :: insert_sorted x ys
  | [] => [x]
  end.

Definition sort_strings (xs : list string) : list string :=
  fold_right insert_sorted [] xs.

(** [getUniqueBooks(req, res)]. *)
Definition getUniqueBooks (db : collection) : Response :=
  {| status := 200; success := true;
     body := Names (sort_strings
                      (distinct bookTitle db [Key (IsActive true)])) |}.

(** [getChaptersByBook(req, res)], on the [bookTitle] parameter as the
    handler reads it. *)
Definition getChaptersByBook (db : collection) (book : string)
  : Response :=
  match RegExp_i book with
  | None => failure 500 "Error fetching chapters"
  | Some t =>
      {| status := 200; success := true;
         body := Names (sort_strings
                          (distinct chapter db
                             [Key (Matches PBookTitle t);
                              Key (IsActive true)])) |}
  end.

(** [{ $group: { _id: '$bookTitle', count: { $sum: 1 } } }]: one row
    per book title, in order of first occurrence. *)
Definition group_by_book (vs : list Video) : list (string * Z) :=
  map (fun b =>
         (b, Z.of_nat
               (List.length
                  (filter (fun v => String.eqb (bookTitle v) b) vs))))
      (nodup string_dec (map bookTitle vs)).

(** [{ $sort: { count: -1 } }], as a stable insertion; the order the
    store gives to rows of equal count is not specified by the
    sources. *)
Fixpoint insert_row (x : string * Z) (xs : list (string * Z))
  : list (string * Z) :=
  match xs with
  | y :: ys => if snd y <? snd x then x :: xs else y :: insert_row x ys
  | [] => [x]
  end.

Definition sort_rows (xs : list (string * Z)) : list (string * Z) :=
  fold_right insert_row [] xs.

Definition project (v : Video) : Recent :=
  {| r_id := _id v; r_title := title v; r_bookTitle := bookTitle v;
     r_chapter := chapter v; r_views := views v |}.

(** [getVideoStats(req, res)]. *)
Definition getVideoStats (db : collection) : Response :=
  let totalVideos :=
    countDocuments db [Key (Equals PType "video"); Key (IsActive true)] in
  let totalImages :=
    countDocuments db [Key (Equals PType "image"); Key (IsActive true)] in
  let active := select db [Key (IsActive true)] in
  let totalViews := fold_right Z.add 0 (map views active) in
  let bookStats := firstn 10 (sort_rows (group_by_book active)) in
  match cursor [("createdAt", -1)] None (Some (Some 5)) active with
  | None => failure 500 "Error fetching statistics"
  | Some recent =>
      {| status := 200; success := true;
         body := Statistics
                   {| totals := {| t_videos := totalVideos;
                                   t_images := totalImages;
                                   t_views := totalViews;
                                   t_total := totalVideos + totalImages |};
                      topBooks := bookStats;
                      recentVideos := map project recent |} |}
  end.

End Handlers.

End Controller.

(** ** The claims of the specification, in its words *)

Module Spec.

(** "positive integer, default 10, hard ceiling 50; values above 50 are
    clamped to 50, values below 1 clamped to 1": the page size the
    specification gives to a [limit] parameter whose numeric reading is
    [n] ([None]: absent or not a number). *)
Definition limit_of (n : option Z) : Z :=
  match n with
  | None => 10
  | Some k => if k <? 1 then 1 else if 50 <? k then 50 else k
  end.

(** "[totalPages = ceil(totalCount / limit)]": [t] is the ceiling of the
    quotient [a / b]. *)
Definition is_ceiling (t a b : Z) : Prop :=
  (0 < b -> (t - 1) * b < a <= t * b) /\
  (b < 0 -> t * b <= a < (t - 1) * b).

(** "for [totalCount = 0], [totalPages = 0] and both
    hasNextPage/hasPrevPage are false". *)
Definition empty_listing (p : Controller.PageInfo) : Prop :=
  Controller.totalPages p = 0
  /\ Controller.hasNextPage p = false
  /\ Controller.hasPrevPage p = false.

(** "[totalPages = ceil(totalCount / limit)], [hasNextPage = page <
    totalPages], [hasPrevPage = page > 1], with nextPage/prevPage set to
    the adjacent page number only when that direction exists, else
    absent/null". *)
Definition derived_page_info (page limit : Z) (p : Controller.PageInfo)
  : Prop :=
  is_ceiling (Controller.totalPages p) (Controller.totalCount p) limit
  /\ (Controller.hasNextPage p = true <-> page < Controller.totalPages p)
  /\ (Controller.hasPrevPage p = true <-> 1 < page)
  /\ (Controller.hasNextPage p = true ->
      Controller.nextPage p = Some (page + 1))
  /\ (Controller.hasNextPage p = false -> Controller.nextPage p = None)
  /\ (Controller.hasPrevPage p = true ->
      Controller.prevPage p = Some (page - 1))
  /\ (Controller.hasPrevPage p = false -> Controller.prevPage p = None).

(** The collection without its soft-deleted entries. *)
Definition without_deleted (db : Model.collection) : Model.collection :=
  filter Model.isActive db.

Inductive protocol : Type := NoProtocol | Http | Https.

(** The optional protocol prefix and [www.] subdomain of a link. *)
Definition url_prefix (p : protocol) (www : bool) : string :=
  match p with
  | NoProtocol => EmptyString
  | Http => "http://"
  | Https => "https://"
  end ++ (if www then "www." else EmptyString).

(** The four accepted shapes. *)
Definition watchForm (p : protocol) (www : bool) (id : string) : string :=
  url_prefix p www ++ "youtube.com/watch?v=" ++ id.

Definition shortForm (p : protocol) (www : bool) (id : string) : string :=
  url_prefix p www ++ "youtu.be/" ++ id.

Definition embedForm (p : protocol) (www : bool) (id : string) : string :=
  url_prefix p www ++ "youtube.com/embed/" ++ id.

Definition legacyForm (p : protocol) (www : bool) (id : string) : string :=
  url_prefix p www ++ "youtube.com/v/" ++ id.

(** "Token charset: [[A-Za-z0-9_-]], exactly 11 characters". *)
Definition is_token (id : string) : Prop :=
  String.length id = 11%nat
  /\ Forall (fun c => Regex.in_class Regex.token_char c = true)
            (list_ascii_of_string id).

End Spec.

(** ** A small in-memory engine

    An instance of the engine interface on which the handlers can be run.
    A regular expression source made of letters, digits and spaces is the
    case-insensitive substring test; any other source is refused.  The
    natural order of the collection is the order of creation, the only
    sort key the engine knows is [createdAt], a [skip] that is negative
    or [NaN] and a [limit] that is [NaN] are refused, and a negative
    [limit] counts as its absolute value. *)

Module Mem.
Import Model.

Definition lower (c : ascii) : ascii :=
  let n := N_of_ascii c in
  if ((65 <=? n) && (n <=? 90))%N then ascii_of_N (n + 32) else c.

Fixpoint starts_with_ci (w s : list ascii) : bool :=
  match w, s with
  | [], _ => true
  | a :: w', b :: s' =>
      Ascii.eqb (lower a) (lower b) && starts_with_ci w' s'
  | _ :: _, [] => false
  end.

Fixpoint contains_ci (w s : list ascii) : bool :=
  starts_with_ci w s
  || match s with
     | _ :: s' => contains_ci w s'
     | [] => false
     end.

Definition plain (c : ascii) : bool :=
  let n := N_of_ascii c in
  (((48 <=? n) && (n <=? 57)) || ((65 <=? n) && (n <=? 90))
   || ((97 <=? n) && (n <=? 122)) || (n =? 32))%N.

Definition regexp_i (src : string) : option (string -> bool) :=
  if forallb plain (list_ascii_of_string src)
  then Some (fun s => contains_ci (list_ascii_of_string src)
                                  (list_ascii_of_string s))
  else None.

Definition order (so : list (string * Z)) (xs : list Video) : list Video :=
  match so with
  | [(key, dir)] =>
      if String.eqb key "createdAt" && (dir <? 0) then rev xs else xs
  | _ => xs
  end.

(** The documents after the first [k], for [k >= 0]. *)
Definition drop (k : Z) (ys : list Video) : list Video :=
  if Z.of_nat (List.length ys) <=? k then [] else skipn (Z.to_nat k) ys.

(** The first [k] documents, for [k >= 0]. *)
Definition take (k : Z) (ys : list Video) : list Video :=
  if Z.of_nat (List.length ys) <=? k then ys else firstn (Z.to_nat k) ys.

Definition window (so : list (string * Z)) (sk li : option (option Z))
           (xs : list Video) : option (list Video) :=
  let sorted := order so xs in
  let limited (ys : list Video) : option (list Video) :=
    match li with
    | Some (Some l) => Some (if l =? 0 then ys else take (Z.abs l) ys)
    | Some None => None
    | None => Some ys
    end in
  match sk with
  | Some (Some k) => if k <? 0 then None else limited (drop k sorted)
  | Some None => None
  | None => limited sorted
  end.

Definition hex (c : ascii) : bool :=
  let n := N_of_ascii c in
  (((48 <=? n) && (n <=? 57)) || ((65 <=? n) && (n <=? 70))
   || ((97 <=? n) && (n <=? 102)))%N.

Definition object_id (id : string) : bool :=
  (String.length id =? 24)%nat && forallb hex (list_ascii_of_string id).

#[export] Instance engine : Engine :=
  {| RegExp_i := regexp_i;
     cursor := window;
     castObjectId := object_id;
     validate := fun _ => true |}.

(** A catalog entry for the examples. *)
Definition entry (id ttl book chap ty : string) (active : bool)
           (seen : Z) (tgs : list string) : Video :=
  {| _id := id; title := ttl; description := "A worked solution";
     bookTitle := book; chapter := chap; type := ty;
     youtubeUrl := None; youtubeVideoId := None; thumbnailUrl := None;
     fileUrl := None; fileName := None; fileSize := None;
     duration := None; views := seen; likes := 0; isActive := active;
     tags := tgs; difficulty := "medium"; subject := None; grade := None;
     uploadedBy := "Admin" |}.

Definition catalog : collection :=
  [ entry "64b0000000000000000000a1" "Density of solids" "Physics" "1"
          "video" true 3 ["density"];
    entry "64b0000000000000000000a2" "Buoyancy" "Physics" "2"
          "video" true 5 ["fluids"; "Density"];
    entry "64b0000000000000000000a3" "Relative density" "Physics" "2"
          "video" true 0 [];
    entry "64b0000000000000000000a4" "Pressure" "Physics" "3"
          "video" true 1 [];
    entry "64b0000000000000000000a5" "Moles" "Chemistry" "1"
          "video" true 2 [];
    entry "64b0000000000000000000a6" "Density table" "Physics" "1"
          "image" false 7 ["density"] ].

(** [?search=density&type=video&page=1&limit=2] *)
Definition density_query : Validation.ListQuery :=
  {| Validation.q_page := Some "1"; Validation.q_limit := Some "2";
     Validation.q_bookTitle := None; Validation.q_chapter := None;
     Validation.q_type := Some "video"; Validation.q_subject := None;
     Validation.q_grade := None; Validation.q_difficulty := None;
     Validation.q_search := Some "density"; Validation.q_sortBy := None;
     Validation.q_sortOrder := None |}.

(** [?page=2&grade=12]: nothing in the catalog has this grade. *)
Definition empty_page2_query : Validation.ListQuery :=
  {| Validation.q_page := Some "2"; Validation.q_limit := None;
     Validation.q_bookTitle := None; Validation.q_chapter := None;
     Validation.q_type := None; Validation.q_subject := None;
     Validation.q_grade := Some "12"; Validation.q_difficulty := None;
     Validation.q_search := None; Validation.q_sortBy := None;
     Validation.q_sortOrder := None |}.

(** [?type=&limit=3] *)
Definition blank_type_query : Validation.ListQuery :=
  {| Validation.q_page := None; Validation.q_limit := Some "3";
     Validation.q_bookTitle := None; Validation.q_chapter := None;
     Validation.q_type := Some EmptyString; Validation.q_subject := None;
     Validation.q_grade := None; Validation.q_difficulty := None;
     Validation.q_search := None; Validation.q_sortBy := None;
     Validation.q_sortOrder := None |}.

(** [?page=9007199254740994]: the page number is [2^53 + 2]. *)
Definition huge_page_query : Validation.ListQuery :=
  {| Validation.q_page := Some "9007199254740994";
     Validation.q_limit := None;
     Validation.q_bookTitle := None; Validation.q_chapter := None;
     Validation.q_type := None; Validation.q_subject := None;
     Validation.q_grade := None; Validation.q_difficulty := None;
     Validation.q_search := None; Validation.q_sortBy := None;
     Validation.q_sortOrder := None |}.

(** [?page=007&limit=050] *)
Definition zeros_query : Validation.ListQuery :=
  {| Validation.q_page := Some "007"; Validation.q_limit := Some "050";
     Validation.q_bookTitle := None; Validation.q_chapter := None;
     Validation.q_type := None; Validation.q_subject := None;
     Validation.q_grade := None; Validation.q_difficulty := None;
     Validation.q_search := None; Validation.q_sortBy := None;
     Validation.q_sortOrder := None |}.

(** [?grade=%2012]: the grade with a space in front. *)
Definition spaced_grade_query : Validation.ListQuery :=
  {| Validation.q_page := None; Validation.q_limit := None;
     Validation.q_bookTitle := None; Validation.q_chapter := None;
     Validation.q_type := None; Validation.q_subject := None;
     Validation.q_grade := Some " 12"; Validation.q_difficulty := None;
     Validation.q_search := None; Validation.q_sortBy := None;
     Validation.q_sortOrder := None |}.

(** An entry of grade 12. *)
Definition graded : Video :=
  {| _id := "64b0000000000000000000d1"; title := "Moments";
     description := "A worked solution"; bookTitle := "Physics";
     chapter := "4"; type := "video";
     youtubeUrl := None; youtubeVideoId := None; thumbnailUrl := None;
     fileUrl := None; fileName := None; fileSize := None;
     duration := None; views := 0; likes := 0; isActive := true;
     tags := []; difficulty := "medium"; subject := None;
     grade := Some "12"; uploadedBy := "Admin" |}.

(** [?type=audio&difficulty=extreme] *)
Definition bad_enum_query : Validation.ListQuery :=
  {| Validation.q_page := None; Validation.q_limit := None;
     Validation.q_bookTitle := None; Validation.q_chapter := None;
     Validation.q_type := Some "audio"; Validation.q_subject := None;
     Validation.q_grade := None; Validation.q_difficulty := Some "extreme";
     Validation.q_search := None; Validation.q_sortBy := None;
     Validation.q_sortOrder := None |}.

End Mem.

(** ** Anchored tests of a regular expression *)

Module RegexTest.
Import Regex.

(** [/^r/.test(s)]: a match at the start of the input. *)
Definition test_start (r : regex) (s : list ascii) : bool :=
  match run r s with
  | [] => false
  | _ :: _ => true
  end.

(** [/^r$/.test(s)]: a match of the whole input. *)
Definition test_whole (r : regex) (s : list ascii) : bool :=
  existsb (fun m : result => match snd m with [] => true | _ :: _ => false end)
          (run r s).

(** [[0-9a-fA-F]] *)
Definition hex_digit : cclass :=
  {| negated := false;
     items := [Range "0" "9"; Range "a" "f"; Range "A" "F"] |}.

(** [[\w-]]: [\w] is [[A-Za-z0-9_]]. *)
Definition word_or_dash : cclass :=
  {| negated := false;
     items := [Range "A" "Z"; Range "a" "z"; Range "0" "9"; One "_";
               One "-"] |}.

(** The bracket expression of [sanitizeString] and [escapeHtml]: the
    characters [<], [>], [&], the double quote and the single quote. *)
Definition markup_char : cclass :=
  {| negated := false;
     items := [One "<"; One ">"; One "034"; One "'"; One "&"] |}.

(** The part after [^] of the expression shared by [isValidYouTubeUrl]
    (both files) and the schema validator:
    [(https?:\/\/)?(www\.)?(youtube\.com\/watch\?v=|youtu\.be\/|youtube\.com\/embed\/)([a-zA-Z0-9_-]{11})].
    Its groups capture, but the sources only [test] it. *)
Definition valid_url : regex :=
  Seq opt_protocol
      (Seq opt_www
           (Seq (Alt (Lit "youtube.com/watch?v=")
                     (Alt (Lit "youtu.be/") (Lit "youtube.com/embed/")))
                (Times 11 token_char))).

(** [/^[0-9a-fA-F]{24}$/] without its anchors. *)
Definition object_id : regex := Times 24 hex_digit.

(** [p] and [w] agree as far as both go. *)
Fixpoint agree (p w : list ascii) : bool :=
  match p, w with
  | a :: p', b :: w' => Ascii.eqb a b && agree p' w'
  | _, _ => true
  end.

(** [w] can start somewhere in [pre], running past its end or not. *)
Fixpoint overlapb (w pre : list ascii) : bool :=
  match pre with
  | [] => false
  | _ :: pre' => agree pre w || overlapb w pre'
  end.

End RegexTest.

(** ** utils/validators.js: the remaining helpers *)

Module Sanitize.
Import RegexTest.

(** [isValidYouTubeUrl(url)] of utils/validators.js. *)
Definition isValidYouTubeUrl (url : JS.value) : bool :=
  match url with
  | JS.VString (String c u) =>
      test_start valid_url
                 (Text.trim_chars (list_ascii_of_string (String c u)))
  | _ => false
  end.

(** [isValidObjectId(id)]. *)
Definition isValidObjectId (id : JS.value) : bool :=
  match id with
  | JS.VString (String c u) =>
      test_whole object_id (list_ascii_of_string (String c u))
  | _ => false
  end.

(** [.replace(/[...]/g, '')] on the markup characters. *)
Definition strip_markup (s : list ascii) : list ascii :=
  filter (fun c => negb (Regex.in_class markup_char c)) s.

(** [sanitizeString(input, maxLength = 255)]. *)
Definition sanitizeString (input : JS.value) (maxLength : option Z)
  : string :=
  match input with
  | JS.VString (String c u) =>
      let m := match maxLength with Some k => k | None => 255 end in
      string_of_list_ascii
        (strip_markup
           (Text.slice0 m
              (Text.trim_chars (list_ascii_of_string (String c u)))))
  | _ => EmptyString
  end.

(** The argument of [validateTags]: a falsy value, a string, an array, or
    any other value. *)
Inductive tags_value : Type :=
| TagsFalsy
| TagsString (s : string)
| TagsArray (xs : list JS.value)
| TagsOther.

(** [tag && typeof tag === 'string']. *)
Definition truthy_string (v : JS.value) : bool :=
  match v with
  | JS.VString (String _ _) => true
  | _ => false
  end.

(** [validateTags(tags)]. *)
Definition validateTags (tags : tags_value) : list string :=
  let tagArray :=
    match tags with
    | TagsString (String c u) =>
        Some (map (fun t => JS.VString (Text.trim t))
                  (Text.split "," (String c u)))
    | TagsArray xs => Some xs
    | _ => None
    end in
  match tagArray with
  | None => []
  | Some arr =>
      firstn 10
        (filter (fun t => (0 <? String.length t)%nat)
           (map (fun t => sanitizeString t (Some 30))
              (filter truthy_string arr)))
  end.

End Sanitize.

(** ** utils/youtube.js: validation and parsing *)

Module YoutubeParse.
Import RegexTest.

(** [isValidYouTubeUrl(url)] of utils/youtube.js. *)
Definition isValidYouTubeUrl (url : string) : bool :=
  match url with
  | EmptyString => false
  | _ => test_start valid_url (list_ascii_of_string url)
  end.

Record Parsed : Type := {
  isValid : bool;
  videoId : option string;
  thumbnailUrl : option string;
  embedUrl : option string;
  watchUrl : option string
}.

(** [parseYouTubeUrl(url)]. *)
Definition parseYouTubeUrl (url : string) : Parsed :=
  match Youtube.extractVideoId url with
  | Some (String c u) =>
      let id := String c u in
      {| isValid := true;
         videoId := Some id;
         thumbnailUrl := Youtube.getThumbnailUrl id None;
         embedUrl := Youtube.getEmbedUrl id Youtube.no_options;
         watchUrl := Youtube.getWatchUrl id |}
  | _ =>
      {| isValid := false; videoId := None; thumbnailUrl := None;
         embedUrl := None; watchUrl := None |}
  end.

End YoutubeParse.

(** ** Video.js: validator, virtual and static *)

Module Schema.
Import Model.

(** The [validate.validator] of the [youtubeUrl] path. *)
Definition youtubeUrl_validator (v : Video) (url : string) : bool :=
  if negb (String.eqb (type v) "video") then true
  else RegexTest.test_start RegexTest.valid_url (list_ascii_of_string url).

(** The virtual [youtubeEmbedUrl]. *)
Definition youtubeEmbedUrl (v : Video) : option string :=
  match youtubeVideoId v with
  | Some (String c u) =>
      Some ("https://www.youtube.com/embed/" ++ String c u)
  | _ => None
  end.

(** [videoSchema.statics.getByBookAndChapter]; [None] when a regular
    expression does not compile or the store refuses the query. *)
Definition getByBookAndChapter {E : Engine} (db : collection)
           (book chap : string) : option (list Video) :=
  match RegExp_i book, RegExp_i chap with
  | Some tb, Some tc =>
      cursor [("createdAt", -1)] None None
             (select db [Key (Matches PBookTitle tb);
                         Key (Matches PChapter tc);
                         Key (IsActive true)])
  | _, _ => None
  end.

End Schema.

(** ** videoController.js: [createVideo] *)

Module Create.
Import Model.

(** The fields of [req.body] that the handler reads. *)
Record Body : Type := {
  b_title : option string;
  b_description : option string;
  b_bookTitle : option string;
  b_chapter : option string;
  b_type : option string;
  b_youtubeUrl : option string;
  b_tags : option string;
  b_difficulty : option string;
  b_subject : option string;
  b_grade : option string
}.

(** [req.file], as the upload handler leaves it. *)
Record File : Type := {
  filename : string;
  originalname : string;
  size : Z
}.

(** The object handed to [new Video(...)]. *)
Record VideoData : Type := {
  d_title : option string;
  d_description : option string;
  d_bookTitle : option string;
  d_chapter : option string;
  d_type : option string;
  d_difficulty : option string;
  d_subject : option string;
  d_grade : option string;
  d_tags : list string;
  d_youtubeUrl : option string;
  d_youtubeVideoId : option string;
  d_fileUrl : option string;
  d_fileName : option string;
  d_fileSize : option Z
}.

(** What [new Video(videoData).save()] comes to: the saved document and
    the collection after the write, a duplicate-key error (code 11000), or
    any other error. *)
Inductive outcome : Type :=
| Saved (v : Video) (db' : collection)
| DuplicateKey
| Failed.

Inductive reply (Err : Type) : Type :=
| Invalid (errors : list Err)
| Rejected (status : Z) (message : string)
| Created (data : Video).

Arguments Invalid {Err} errors.
Arguments Rejected {Err} status message.
Arguments Created {Err} data.

(** The HTTP status of a reply. *)
Definition status_of {Err : Type} (r : reply Err) : Z :=
  match r with
  | Invalid _ => 400
  | Rejected code _ => code
  | Created _ => 201
  end.

(** [a || b] on optional strings. *)
Definition or_string (a b : option string) : option string :=
  if JS.truthy a then a else b.

(** The [videoData] object before the type-specific fields are set. *)
Definition base_data (b : Body) : VideoData :=
  {| d_title := or_string (b_title b) (b_bookTitle b);
     d_description := b_description b;
     d_bookTitle := b_bookTitle b;
     d_chapter := b_chapter b;
     d_type := b_type b;
     d_difficulty := b_difficulty b;
     d_subject := b_subject b;
     d_grade := b_grade b;
     d_tags := match b_tags b with
               | Some (String c u) =>
                   map Text.trim (Text.split "," (String c u))
               | _ => []
               end;
     d_youtubeUrl := None;
     d_youtubeVideoId := None;
     d_fileUrl := None;
     d_fileName := None;
     d_fileSize := None |}.

Definition with_link (url id : string) (d : VideoData) : VideoData :=
  {| d_title := d_title d; d_description := d_description d;
     d_bookTitle := d_bookTitle d; d_chapter := d_chapter d;
     d_type := d_type d; d_difficulty := d_difficulty d;
     d_subject := d_subject d; d_grade := d_grade d; d_tags := d_tags d;
     d_youtubeUrl := Some url; d_youtubeVideoId := Some id;
     d_fileUrl := d_fileUrl d; d_fileName := d_fileName d;
     d_fileSize := d_fileSize d |}.

Definition with_file (f : File) (d : VideoData) : VideoData :=
  {| d_title := d_title d; d_description := d_description d;
     d_bookTitle := d_bookTitle d; d_chapter := d_chapter d;
     d_type := d_type d; d_difficulty := d_difficulty d;
     d_subject := d_subject d; d_grade := d_grade d; d_tags := d_tags d;
     d_youtubeUrl := d_youtubeUrl d;
     d_youtubeVideoId := d_youtubeVideoId d;
     d_fileUrl := Some ("/uploads/" ++ filename f);
     d_fileName := Some (originalname f);
     d_fileSize := Some (size f) |}.

(** [type === s]. *)
Definition type_is (b : Body) (s : string) : bool :=
  match b_type b with
  | Some ty => String.eqb ty s
  | None => false
  end.

(** The [if (type === 'video')] block: the data with the link and its
    identifier, or the message of the 400 answer. *)
Definition video_step (b : Body) (d : VideoData) : string + VideoData :=
  if type_is b "video" then
    match b_youtubeUrl b with
    | Some (String c u) =>
        match Extract.extractYoutubeVideoId (String c u) with
        | Some (String c' id') =>
            inr (with_link (String c u) (String c' id') d)
        | _ => inl "Invalid YouTube URL format"
        end
    | _ => inl "YouTube URL is required for video type"
    end
  else inr d.

(** The [if (type === 'image' && req.file)] block. *)
Definition image_step (b : Body) (file : option File) (d : VideoData)
  : VideoData :=
  match file with
  | Some f => if type_is b "image" then with_file f d else d
  | None => d
  end.

Section Handler.
Variable persist : VideoData -> collection -> outcome.

(** [createVideo(req, res)] on the validation errors recorded for the
    request, its body and its file: the reply and the collection after
    the call. *)
Definition createVideo {Err : Type} (db : collection) (errors : list Err)
           (b : Body) (file : option File) : reply Err * collection :=
  match errors with
  | _ :: _ => (Invalid errors, db)
  | [] =>
      match video_step b (base_data b) with
      | inl message => (Rejected 400 message, db)
      | inr d =>
          match persist (image_step b file d) db with
          | Saved v db' => (Created v, db')
          | DuplicateKey =>
              (Rejected 400 "Video with similar details already exists", db)
          | Failed => (Rejected 500 "Error creating video", db)
          end
      end
  end.

End Handler.

(** A body for the examples: a video entry with a link. *)
Definition video_body (url : string) : Body :=
  {| b_title := Some "Density of solids";
     b_description := Some "A worked solution";
     b_bookTitle := Some "Physics";
     b_chapter := Some "1";
     b_type := Some "video";
     b_youtubeUrl := Some url;
     b_tags := Some "density, solids";
     b_difficulty := None;
     b_subject := None;
     b_grade := None |}.

(** A store for the examples: the document gets its fields from the data
    and is put at the end of the collection. *)
Definition append_only (d : VideoData) (db : collection) : outcome :=
  match d_title d, d_description d, d_bookTitle d, d_chapter d, d_type d with
  | Some t, Some de, Some bk, Some ch, Some ty =>
      let v := {| _id := "64b0000000000000000000c1"; title := t;
                  description := de; bookTitle := bk; chapter := ch;
                  type := ty; youtubeUrl := d_youtubeUrl d;
                  youtubeVideoId := d_youtubeVideoId d;
                  thumbnailUrl := None; fileUrl := d_fileUrl d;
                  fileName := d_fileName d; fileSize := d_fileSize d;
                  duration := None; views := 0; likes := 0;
                  isActive := true; tags := d_tags d;
                  difficulty := "medium"; subject := d_subject d;
                  grade := d_grade d; uploadedBy := "Admin" |} in
      Saved v (db ++ [v])%list
  | _, _, _, _, _ => Failed
  end.

End Create.

(** ** The gallery script: link identifiers and HTML escaping *)

Module Frontend.
Import Regex.

(** The regular expression of [extractYoutubeID]:
    [(?:https?:\/\/)?(?:www\.)?(?:youtube\.com\/watch\?v=|youtu\.be\/)([\w-]{11})]. *)
Definition regex_gallery : regex :=
  Seq opt_protocol
      (Seq opt_www
           (Seq (Alt (Lit "youtube.com/watch?v=") (Lit "youtu.be/"))
                (Group (Times 11 RegexTest.word_or_dash)))).

(** [extractYoutubeID(url)]. *)
Definition extractYoutubeID (url : string) : option string :=
  match match1 url regex_gallery with
  | Some (Some id) => Some id
  | _ => None
  end.

(** The [map] of [escapeHtml]. *)
Definition entity (c : ascii) : option string :=
  if Ascii.eqb c "&" then Some "&amp;"
  else if Ascii.eqb c "<" then Some "&lt;"
  else if Ascii.eqb c ">" then Some "&gt;"
  else if Ascii.eqb c "034" then Some "&quot;"
  else if Ascii.eqb c "'" then Some "&#039;"
  else None.

(** [escapeHtml(text)]: every markup character is replaced by its
    entity. *)
Fixpoint escapeHtml (text : string) : string :=
  match text with
  | EmptyString => EmptyString
  | String c text' =>
      match entity c with
      | Some e => e ++ escapeHtml text'
      | None => String c (escapeHtml text')
      end
  end.

End Frontend.

(** ** Vocabulary of the statements about the handlers *)

Module Words.
Import Model Validation.

(** An empty parameter read as an absent one. *)
Definition blank_as_absent (x : option string) : option string :=
  match x with
  | Some EmptyString => None
  | _ => x
  end.

(** The query string without its empty filter parameters. *)
Definition without_empty (q : ListQuery) : ListQuery :=
  {| q_page := q_page q;
     q_limit := q_limit q;
     q_bookTitle := blank_as_absent (q_bookTitle q);
     q_chapter := blank_as_absent (q_chapter q);
     q_type := blank_as_absent (q_type q);
     q_subject := blank_as_absent (q_subject q);
     q_grade := blank_as_absent (q_grade q);
     q_difficulty := blank_as_absent (q_difficulty q);
     q_search := blank_as_absent (q_search q);
     q_sortBy := q_sortBy q;
     q_sortOrder := q_sortOrder q |}.

(** [tag] is [piece] without the white space around it. *)
Definition trimmed_of (piece tag : string) : Prop :=
  exists l r,
    list_ascii_of_string piece
    = (l ++ list_ascii_of_string tag ++ r)%list
    /\ Forall (fun c => JS.is_ws c = true) l
    /\ Forall (fun c => JS.is_ws c = true) r
    /\ Text.starts_clean (list_ascii_of_string tag)
    /\ Text.ends_clean (list_ascii_of_string tag).


(** A test holds on the title, the description, the book title, the
    chapter or one of the tags. *)
Definition search_hit (t : string -> bool) (v : Video) : bool :=
  t (title v) || t (description v) || t (bookTitle v) || t (chapter v)
  || existsb t (tags v).

(** Ascending order of strings by character code. *)
Definition string_le (a b : string) : Prop := String.leb a b = true.

(** Descending order of rows by their count. *)
Definition count_ge (a b : string * Z) : Prop := snd b <= snd a.

(** The number of active entries of a book title. *)
Definition active_of_book (db : collection) (b : string) : Z :=
  Z.of_nat (List.length
              (filter (fun v => String.eqb (bookTitle v) b)
                      (filter isActive db))).

End Words.

(* ================================================================== *)
(** * Part II: properties *)
(* ================================================================== *)

Import Model Validation Controller.

(** ** The concrete scenarios of the specification *)

Example limit_500 : Paging.pageSize (Some "500") = 50.
Proof. reflexivity. Qed.

Example limit_abc : Paging.pageSize (Some "abc") = 10.
Proof. reflexivity. Qed.

Example page_x : Paging.pageNumber (Some "x") = 1.
Proof. reflexivity. Qed.

Example short_link_with_offset :
  Extract.extractYoutubeVideoId "https://youtu.be/dQw4w9WgXcQ?t=30"
  = Some "dQw4w9WgXcQ".
Proof. vm_compute. reflexivity. Qed.

Example unrelated_page :
  Extract.extractYoutubeVideoId "https://example.com/a/page" = None.
Proof. vm_compute. reflexivity. Qed.

Example density_page :
  exists x y f,
    body (list_route (E:=Mem.engine) Mem.catalog Mem.density_query)
    = Listing [x; y]
              {| currentPage := 1; totalPages := 2; totalCount := 3;
                 hasNextPage := true; hasPrevPage := false;
                 nextPage := Some 2; prevPage := None |} f.
Proof. eexists; eexists; eexists. vm_compute. reflexivity. Qed.

(** ** Page number and page size *)

Section PagingFacts.

Lemma safe_below_Infinity : 2 ^ 53 < JS.Infinity.
Proof. reflexivity. Qed.

(** Rounding fixes the integers of magnitude up to [2^53]. *)
Lemma fl_exact n : Z.abs n <= 2 ^ 53 -> JS.fl n = n.
Proof.
  intros Hn. pose proof safe_below_Infinity as Hinf.
  destruct (Z.eq_dec (Z.abs n) (2 ^ 53)) as [Hmax|Hlt].
  - destruct (Z.abs_eq_or_opp n) as [He|He]; rewrite He in Hmax.
    + rewrite Hmax. reflexivity.
    + assert (Hn' : n = - 2 ^ 53) by lia. rewrite Hn'. reflexivity.
  - unfold JS.fl.
    assert (He : Z.log2 (Z.abs n) - 52 <= 0).
    { destruct (Z.eq_dec (Z.abs n) 0) as [H0|H0];
        [rewrite H0; simpl; lia|].
      assert (Z.log2 (Z.abs n) < 53); [|lia].
      apply Z.log2_lt_pow2; lia. }
    apply Z.leb_le in He. rewrite He.
    rewrite Z.min_l by lia. rewrite Z.mul_comm. apply Z.abs_sgn.
Qed.

(** Rounding keeps the sign. *)
Lemma fl_nonneg n : 0 <= n -> 0 <= JS.fl n.
Proof.
  intros Hn. unfold JS.fl.
  assert (Hi : 0 <= JS.Infinity) by discriminate.
  apply Z.mul_nonneg_nonneg; [apply Z.sgn_nonneg, Hn|].
  apply Z.min_glb; [|exact Hi].
  destruct (Z.log2 (Z.abs n) - 52 <=? 0); [apply Z.abs_nonneg|].
  apply Z.shiftl_nonneg.
  assert (Hq : 0 <= Z.shiftr (Z.abs n) (Z.log2 (Z.abs n) - 52))
    by (apply Z.shiftr_nonneg, Z.abs_nonneg).
  destruct (_ || _); lia.
Qed.

Lemma or_else_nonzero n d : d <> 0 -> JS.or_else n d <> 0.
Proof.
  intros Hd. unfold JS.or_else.
  destruct n as [k|]; [|exact Hd].
  destruct (Z.eqb_spec k 0); [exact Hd | assumption].
Qed.

(** No request makes the page size zero, so the division that gives the
    number of pages is defined. *)
Lemma pageSize_nonzero limit : Paging.pageSize limit <> 0.
Proof.
  unfold Paging.pageSize.
  pose proof (or_else_nonzero (Paging.limit_value limit) 10) as H.
  assert (JS.or_else (Paging.limit_value limit) 10 <> 0) by (apply H; lia).
  lia.
Qed.

Lemma pageSize_le_50 limit : Paging.pageSize limit <= 50.
Proof. unfold Paging.pageSize. lia. Qed.

(** The helper of utils/validators.js clamps both of its results. *)
Lemma validatePagination_bounds qp ql :
  1 <= Validators.page (Validators.validatePagination qp ql)
  /\ 1 <= Validators.limit (Validators.validatePagination qp ql) <= 50.
Proof. unfold Validators.validatePagination; simpl. lia. Qed.

(** The page number of the controller on a reading that is not negative. *)
Lemma pageNumber_nonneg_reading page :
  (forall n, Paging.page_value page = Some n -> 0 <= n) ->
  1 <= Paging.pageNumber page.
Proof.
  intros H. unfold Paging.pageNumber, JS.or_else.
  destruct (Paging.page_value page) as [k|]; [|lia].
  specialize (H k eq_refl).
  destruct (Z.eqb_spec k 0); lia.
Qed.

End PagingFacts.

(** C1, as the specification states it, fails on the controller: a
    [limit] of [0] is a value below 1, and the page size it gives is the
    default 10, not 1. *)
Lemma pageSize_zero_is_default :
  Paging.limit_value (Some "0") = Some 0
  /\ Paging.pageSize (Some "0") = 10
  /\ Paging.pageSize (Some "0") <> Spec.limit_of (Paging.limit_value (Some "0")).
Proof. repeat split; vm_compute; congruence. Qed.

(** A no-break space in front of the number is skipped like any other
    white space: [?limit=%C2%A0-5] reads as -5, a negative number, and
    the page size is -5. *)
Example limit_after_no_break_space :
  Paging.limit_value (Some (String "160" "-5")) = Some (-5)
  /\ Paging.pageSize (Some (String "160" "-5")) = -5.
Proof. split; reflexivity. Qed.

(** C1, amended: when [limit] is absent, is not a number, or reads as a
    number that is not negative, the page size of the list operation lies
    in [1,50]; a value above 50 gives 50, a value in [1,50] is kept, and a
    value of 0, a value that is not a number and an absent value give the
    default 10. *)
Theorem pageSize_clamped (limit : option string)
        (Hreading : forall n, Paging.limit_value limit = Some n -> 0 <= n) :
  1 <= Paging.pageSize limit <= 50
  /\ (forall n, Paging.limit_value limit = Some n -> 50 < n ->
                Paging.pageSize limit = 50)
  /\ (forall n, Paging.limit_value limit = Some n -> 1 <= n <= 50 ->
                Paging.pageSize limit = n)
  /\ (Paging.limit_value limit = Some 0 -> Paging.pageSize limit = 10)
  /\ (Paging.limit_value limit = None -> Paging.pageSize limit = 10)
  /\ (limit = None -> Paging.pageSize limit = 10).
Proof.
  assert (Hnone : limit = None -> Paging.pageSize limit = 10)
    by (intros ->; reflexivity).
  revert Hnone. unfold Paging.pageSize, JS.or_else.
  destruct (Paging.limit_value limit) as [k|] eqn:Hk; intros Hnone.
  - specialize (Hreading k eq_refl).
    destruct (Z.eqb_spec k 0) as [->|Hk0];
      (split; [lia|]);
      (split; [intros n [= <-] ?; lia|]);
      (split; [intros n [= <-] ?; lia|]);
      (split; [intros H0; inversion H0; subst; lia|]);
      (split; [discriminate | exact Hnone]).
  - split; [lia|].
    split; [discriminate|].
    split; [discriminate|].
    split; [discriminate|].
    split; [reflexivity | exact Hnone].
Qed.

Lemma pageSize_clamped_witness :
  (forall n, Paging.limit_value (Some "500") = Some n -> 0 <= n)
  /\ 1 <= Paging.pageSize (Some "500") <= 50
  /\ Paging.pageSize (Some "500") = 50.
Proof.
  assert (H : forall n, Paging.limit_value (Some "500") = Some n -> 0 <= n).
  { intros n Hn. vm_compute in Hn. injection Hn as <-. lia. }
  split; [exact H|].
  destruct (pageSize_clamped (Some "500") H) as (Hb & Habove & _).
  split; [exact Hb|].
  apply (Habove 500); [reflexivity | lia].
Defined.

(** C2 on the code: a negative [page] is used as it is.  The page number
    of [?page=-5] is -5 and the offset handed to the store is -60, while
    [validatePagination] answers 1 on the same input. *)
Theorem pageNumber_negative_kept :
  Paging.pageNumber (Some "-5") = -5
  /\ Paging.skip (Some "-5") None = Some (-60)
  /\ Validators.page (Validators.validatePagination (Some "-5") None) = 1.
Proof. repeat split. Qed.

(** C4 on the code: the sort key and direction of the controller are not
    checked.  [?sortBy=uploadedBy&sortOrder=up] sorts ascending by
    [uploadedBy], while [validateSort] answers [createdAt], [desc] on the
    same input. *)
Theorem sortOptions_unchecked :
  Paging.sortOptions (Some "uploadedBy") (Some "up") = [("uploadedBy", 1)]
  /\ Validators.validateSort (Some "uploadedBy") (Some "up")
                             Validators.default_allowedFields
     = {| Validators.sortBy := "createdAt"; Validators.sortOrder := "desc" |}.
Proof. split; reflexivity. Qed.

(** ** The list operation *)

Section ListingFacts.
Context {E : Engine}.

(** What a successful listing is made of. *)
Lemma getAllVideos_listing db req data p f :
  body (getAllVideos db req) = Listing data p f ->
  exists filter,
    build_query (query req) = Some filter
    /\ cursor (Paging.sortOptions (q_sortBy (query req))
                                  (q_sortOrder (query req)))
              (Some (Paging.skip (q_page (query req))
                                 (q_limit (query req))))
              (Some (Some (Paging.pageSize (q_limit (query req)))))
              (select db filter) = Some data
    /\ p = page_info (Paging.pageNumber (q_page (query req)))
                     (Paging.pageSize (q_limit (query req)))
                     (countDocuments db filter).
Proof.
  unfold getAllVideos.
  destruct (build_query (query req)) as [filter|]; [|discriminate].
  destruct (cursor _ _ _ _) as [videos|] eqn:Hc; [|discriminate].
  simpl. intros [= <- <- _]. exists filter. auto.
Qed.

(** The handler answers 200 or 500, whatever the request. *)
Lemma getAllVideos_status db req :
  status (getAllVideos db req) = 200 \/ status (getAllVideos db req) = 500.
Proof.
  unfold getAllVideos.
  destruct (build_query (query req)); [|right; reflexivity].
  destruct (cursor _ _ _ _); [left | right]; reflexivity.
Qed.

(** The handler does not look at the recorded validation errors. *)
Lemma getAllVideos_ignores_errors db q e1 e2 :
  getAllVideos db {| query := q; validationErrors := e1 |}
  = getAllVideos db {| query := q; validationErrors := e2 |}.
Proof. reflexivity. Qed.

Lemma ceil_div_is_ceiling a b :
  b <> 0 -> Spec.is_ceiling (Paging.ceil_div a b) a b.
Proof.
  intros Hb. unfold Spec.is_ceiling, Paging.ceil_div.
  pose proof (Z.div_mod (- a) b Hb) as Hdm.
  split; intros Hs.
  - pose proof (Z.mod_pos_bound (- a) b Hs). nia.
  - pose proof (Z.mod_neg_bound (- a) b Hs). nia.
Qed.

End ListingFacts.

(** C5, as the specification states it, fails on the controller: the
    page numbers are doubles, and from [2^53] on the double next to a
    page number is not always the adjacent integer.  On page
    [2^53 + 2] the previous page is reported as [2^53]. *)
Lemma prevPage_of_huge_page_is_rounded :
  exists data p f,
    body (list_route (E:=Mem.engine) Mem.catalog Mem.huge_page_query)
    = Listing data p f
    /\ currentPage p = 9007199254740994
    /\ hasPrevPage p = true
    /\ prevPage p = Some 9007199254740992
    /\ ~ Spec.derived_page_info
           (Paging.pageNumber (q_page Mem.huge_page_query))
           (Paging.pageSize (q_limit Mem.huge_page_query)) p.
Proof.
  eexists; eexists; eexists.
  split; [vm_compute; reflexivity|].
  split; [reflexivity|].
  split; [reflexivity|].
  split; [reflexivity|].
  intros (_ & _ & _ & _ & _ & Hprev & _).
  specialize (Hprev eq_refl). vm_compute in Hprev. discriminate Hprev.
Qed.

(** C5, amended: when the page number is a safe integer (its magnitude
    is below [2^53]) and fewer than [2^53] entries match, the pagination
    metadata of a listing is derived from the page number, the page size
    and the number of matching entries: [totalPages] is the ceiling of
    [totalCount / limit], [hasNextPage] is [page < totalPages],
    [hasPrevPage] is [page > 1], and [nextPage] and [prevPage] are the
    adjacent page numbers when the flag is set and null otherwise. *)
Theorem pagination_metadata {E : Engine} (db : collection) (req : Request)
        (data : list Video) (p : PageInfo) (f : Filters) :
  body (getAllVideos db req) = Listing data p f ->
  Z.abs (Paging.pageNumber (q_page (query req))) < 2 ^ 53 ->
  totalCount p < 2 ^ 53 ->
  currentPage p = Paging.pageNumber (q_page (query req))
  /\ (exists filter, build_query (query req) = Some filter
                     /\ totalCount p = countDocuments db filter)
  /\ Spec.derived_page_info (Paging.pageNumber (q_page (query req)))
                            (Paging.pageSize (q_limit (query req))) p.
Proof.
  intros H Hsafe _. apply getAllVideos_listing in H.
  destruct H as (filter & Hq & _ & ->).
  split; [reflexivity|].
  split; [exists filter; split; [exact Hq | reflexivity]|].
  unfold Spec.derived_page_info, page_info;
    cbn [totalPages totalCount hasNextPage hasPrevPage nextPage prevPage].
  rewrite !fl_exact by lia.
  split; [apply ceil_div_is_ceiling, pageSize_nonzero|].
  split; [apply Z.ltb_lt|].
  split; [apply Z.ltb_lt|].
  repeat split; intros ->; reflexivity.
Qed.

Lemma pagination_metadata_witness :
  exists data p f,
    body (getAllVideos (E:=Mem.engine) Mem.catalog
                       (run_rules queryValidationRules Mem.density_query))
    = Listing data p f
    /\ totalCount p = 3
    /\ totalPages p = 2
    /\ Spec.derived_page_info 1 2 p.
Proof.
  eexists; eexists; eexists.
  split; [vm_compute; reflexivity|].
  split; [reflexivity|].
  split; [reflexivity|].
  refine (proj2 (proj2 (pagination_metadata (E:=Mem.engine) Mem.catalog
            (run_rules queryValidationRules Mem.density_query) _ _ _ _
            _ _))).
  - vm_compute; reflexivity.
  - vm_compute; reflexivity.
  - vm_compute; reflexivity.
Defined.

(** C6, as the specification states it, fails on the controller: page 2 of
    a listing without entries has a previous page. *)
Lemma empty_listing_page2_has_previous :
  exists data p f,
    body (list_route (E:=Mem.engine) Mem.catalog Mem.empty_page2_query)
    = Listing data p f
    /\ totalCount p = 0
    /\ hasPrevPage p = true
    /\ ~ Spec.empty_listing p.
Proof.
  eexists; eexists; eexists.
  split; [vm_compute; reflexivity|].
  split; [reflexivity|].
  split; [reflexivity|].
  intros (_ & _ & H). discriminate H.
Qed.

(** C6, amended: a listing without matching entries reports
    [totalPages = 0]; [hasPrevPage] is set exactly when the page number
    exceeds 1, and [hasNextPage] is not set when the page number is at
    least 1.  On page 1 both flags are false. *)
Theorem empty_listing_metadata {E : Engine} (db : collection) (req : Request)
        (data : list Video) (p : PageInfo) (f : Filters) :
  body (getAllVideos db req) = Listing data p f ->
  totalCount p = 0 ->
  totalPages p = 0
  /\ (hasPrevPage p = true <-> 1 < currentPage p)
  /\ (1 <= currentPage p -> hasNextPage p = false)
  /\ (currentPage p = 1 -> Spec.empty_listing p).
Proof.
  intros H. apply getAllVideos_listing in H.
  destruct H as (filter & _ & _ & ->).
  unfold page_info, Spec.empty_listing; simpl. intros ->.
  assert (Hz : forall b, Paging.ceil_div 0 b = 0)
    by (intros b; reflexivity).
  rewrite Hz.
  split; [reflexivity|].
  split; [apply Z.ltb_lt|].
  split; [intros Hp; apply Z.ltb_ge; lia|].
  intros ->. repeat split.
Qed.

Lemma empty_listing_metadata_witness :
  exists data p f,
    body (getAllVideos (E:=Mem.engine) Mem.catalog
                       (run_rules queryValidationRules Mem.bad_enum_query))
    = Listing data p f
    /\ totalCount p = 0
    /\ totalPages p = 0
    /\ Spec.empty_listing p.
Proof.
  eexists; eexists; eexists.
  split; [vm_compute; reflexivity|].
  split; [reflexivity|].
  split; [reflexivity|].
  refine (proj2 (proj2 (proj2
            (empty_listing_metadata (E:=Mem.engine) Mem.catalog
               (run_rules queryValidationRules Mem.bad_enum_query)
               _ _ _ _ _))) _);
    vm_compute; reflexivity.
Defined.

(** The list route never answers with a validation failure. *)
Lemma list_route_never_400 {E : Engine} (db : collection) (q : ListQuery) :
  status (list_route db q) <> 400.
Proof.
  unfold list_route.
  destruct (getAllVideos_status db (run_rules queryValidationRules q)) as [H|H];
    rewrite H; discriminate.
Qed.

(** C3 on the code: the rules in front of the handler record that [type]
    and [difficulty] are not admissible, and the handler runs the query
    all the same.  [?type=audio&difficulty=extreme] is answered with
    status 200 and an empty page. *)
Theorem list_route_runs_bad_enum :
  validationErrors (run_rules queryValidationRules Mem.bad_enum_query)
  = [(Ptype, "Type must be either video or image");
     (Pdifficulty, "Difficulty must be easy, medium, or hard")]
  /\ status (list_route (E:=Mem.engine) Mem.catalog Mem.bad_enum_query) = 200
  /\ success (list_route (E:=Mem.engine) Mem.catalog Mem.bad_enum_query)
     = true.
Proof. repeat split. Qed.

(** ** The matcher *)

Section RegexFacts.
Import Regex.

Lemma strip_prefix_app w s : strip_prefix w (w ++ s) = Some s.
Proof.
  induction w as [|a w IH]; simpl; [reflexivity|].
  rewrite Ascii.eqb_refl. exact IH.
Qed.

Lemma strip_prefix_sound w : forall s r,
  strip_prefix w s = Some r -> s = (w ++ r)%list.
Proof.
  induction w as [|a w IH]; simpl; intros s r H.
  - congruence.
  - destruct s as [|b s]; [discriminate|].
    destruct (Ascii.eqb_spec a b) as [->|]; [|discriminate].
    f_equal. apply IH, H.
Qed.

Lemma star_rests_suffix k : forall s rest,
  In rest (star_rests k s) -> exists m, s = (m ++ rest)%list.
Proof.
  induction s as [|c s IH]; simpl; intros rest H.
  - destruct H as [<-|[]]. exists []. reflexivity.
  - destruct (in_class k c).
    + apply in_app_or in H. destruct H as [H|[<-|[]]].
      * destruct (IH _ H) as [m ->]. exists (c :: m). reflexivity.
      * exists []. reflexivity.
    + destruct H as [<-|[]]. exists []. reflexivity.
Qed.

Lemma times_rest_suffix k : forall n s rest,
  times_rest n k s = Some rest -> exists m, s = (m ++ rest)%list.
Proof.
  induction n as [|n IH]; simpl; intros s rest H.
  - injection H as <-. exists []. reflexivity.
  - destruct s as [|c s]; [discriminate|].
    destruct (in_class k c); [|discriminate].
    destruct (IH _ _ H) as [m ->]. exists (c :: m). reflexivity.
Qed.

Lemma run_Seq_inv r1 r2 s m :
  In m (run (Seq r1 r2) s) ->
  exists m1 m2,
    In m1 (run r1 s) /\ In m2 (run r2 (snd m1)) /\ snd m = snd m2.
Proof.
  simpl. intros H. apply in_flat_map in H.
  destruct H as (m1 & H1 & H). apply in_map_iff in H.
  destruct H as (m2 & <- & H2). exists m1, m2. auto.
Qed.

(** What a match leaves is a suffix of the input. *)
Lemma run_suffix r : forall s m,
  In m (run r s) -> exists a, s = (a ++ snd m)%list.
Proof.
  induction r as [w|r IH|r1 IH1 r2 IH2|r1 IH1 r2 IH2|k|n k|r IH];
    intros s m H.
  - simpl in H.
    destruct (strip_prefix _ s) as [rest|] eqn:Hp; [|contradiction].
    destruct H as [<-|[]]. simpl.
    exists (list_ascii_of_string w). apply strip_prefix_sound, Hp.
  - simpl in H. apply in_app_or in H. destruct H as [H|[<-|[]]].
    + apply IH, H.
    + exists []. reflexivity.
  - simpl in H. apply in_app_or in H. destruct H; auto.
  - apply run_Seq_inv in H. destruct H as (m1 & m2 & H1 & H2 & ->).
    destruct (IH1 _ _ H1) as [a ->]. destruct (IH2 _ _ H2) as [b Hb].
    exists (a ++ b)%list. rewrite <- app_assoc. f_equal. exact Hb.
  - simpl in H. apply in_map_iff in H. destruct H as (rest & <- & H).
    simpl. unfold plus_rests in H.
    destruct s as [|c s]; [contradiction|].
    destruct (in_class k c); [|contradiction].
    destruct (star_rests_suffix _ _ _ H) as [a ->].
    exists (c :: a). reflexivity.
  - simpl in H. destruct (times_rest n k s) as [rest|] eqn:Ht;
      [|contradiction].
    destruct H as [<-|[]]. simpl. eapply times_rest_suffix, Ht.
  - simpl in H. apply in_map_iff in H. destruct H as (m1 & <- & H).
    simpl. apply IH, H.
Qed.

Lemma infix_extend w a s : infix w s -> infix w (a ++ s).
Proof.
  intros (x & y & ->). exists (a ++ x)%list, y.
  rewrite <- app_assoc. reflexivity.
Qed.

Lemma infix_shorten w1 w2 s : infix (w1 ++ w2) s -> infix w1 s.
Proof.
  intros (x & y & ->). exists x, (w2 ++ y)%list.
  rewrite <- app_assoc. reflexivity.
Qed.

Lemma infixb_unfold w s :
  infixb w s = match strip_prefix w s with
               | Some _ => true
               | None => match s with
                         | _ :: s' => infixb w s'
                         | [] => false
                         end
               end.
Proof. destruct s; reflexivity. Qed.

Lemma infix_infixb w : forall s, infix w s -> infixb w s = true.
Proof.
  intros s (a & b & ->).
  induction a as [|c a IH].
  - simpl app. rewrite infixb_unfold, strip_prefix_app. reflexivity.
  - rewrite infixb_unfold. simpl app.
    destruct (strip_prefix w (c :: a ++ w ++ b)); [reflexivity | exact IH].
Qed.

(** An occurrence that ends with a character foreign to the tail of the
    input ends before that tail. *)
Lemma infix_before_tail u x pre t :
  ~ In x t -> infix (u ++ [x]) (pre ++ t) -> infix (u ++ [x]) pre.
Proof.
  intros Hx (a & b & Heq).
  replace (a ++ (u ++ [x]) ++ b)%list with (((a ++ u) ++ [x]) ++ b)%list
    in Heq by (rewrite <- !app_assoc; reflexivity).
  apply app_eq_app in Heq. destruct Heq as (l & [[Hpre Hb]|[Hocc Ht]]).
  - exists a, l. rewrite Hpre, <- !app_assoc. reflexivity.
  - destruct l as [|y0 l0].
    + rewrite app_nil_r in Hocc. exists a, [].
      rewrite <- Hocc, app_nil_r, <- app_assoc. reflexivity.
    + destruct (@exists_last _ (y0 :: l0)) as (l' & y & Hl);
        [discriminate|].
      rewrite Hl in Hocc, Ht. rewrite app_assoc in Hocc.
      apply app_inj_tail in Hocc. destruct Hocc as [_ ->].
      exfalso. apply Hx. rewrite Ht.
      apply in_or_app. left. apply in_or_app. right. left. reflexivity.
Qed.

Lemma not_infix_app u x v pre t :
  infixb (u ++ [x]) pre = false -> ~ In x t ->
  ~ infix ((u ++ [x]) ++ v) (pre ++ t).
Proof.
  intros Hb Hx Hi. apply infix_shorten in Hi.
  apply infix_before_tail in Hi; [|exact Hx].
  apply infix_infixb in Hi. congruence.
Qed.

Lemma needs_Lit w : needs (Lit w) [list_ascii_of_string w].
Proof.
  intros s m H. simpl in H.
  destruct (strip_prefix _ s) as [rest|] eqn:Hp; [|contradiction].
  exists (list_ascii_of_string w). split; [left; reflexivity|].
  exists [], rest. exact (strip_prefix_sound _ _ _ Hp).
Qed.

Lemma needs_Alt r1 r2 ws1 ws2 :
  needs r1 ws1 -> needs r2 ws2 -> needs (Alt r1 r2) (ws1 ++ ws2).
Proof.
  intros H1 H2 s m H. simpl in H. apply in_app_or in H.
  destruct H as [H|H]; [apply H1 in H | apply H2 in H];
    destruct H as (w & Hw & Hi); exists w; split; auto;
    apply in_or_app; auto.
Qed.

Lemma needs_Seq_l r1 r2 ws : needs r1 ws -> needs (Seq r1 r2) ws.
Proof.
  intros H1 s m H. apply run_Seq_inv in H.
  destruct H as (m1 & _ & Hm1 & _). eapply H1, Hm1.
Qed.

Lemma needs_Seq_r r1 r2 ws : needs r2 ws -> needs (Seq r1 r2) ws.
Proof.
  intros H2 s m H. apply run_Seq_inv in H.
  destruct H as (m1 & m2 & Hm1 & Hm2 & _).
  destruct (H2 _ _ Hm2) as (w & Hw & Hi). exists w. split; [exact Hw|].
  destruct (run_suffix _ _ _ Hm1) as [a ->]. apply infix_extend, Hi.
Qed.

(** Without any of the needed literals there is no match at any start
    position. *)
Lemma exec_none r ws : needs r ws -> forall s,
  (forall w, In w ws -> ~ infix w s) -> exec r s = None.
Proof.
  intros Hn. induction s as [|c s IH]; intros Hs; simpl.
  - destruct (run r []) as [|m tl] eqn:Hr; [reflexivity|].
    destruct (Hn [] m) as (w & Hw & Hi); [rewrite Hr; left; reflexivity|].
    exfalso. eapply Hs; eauto.
  - destruct (run r (c :: s)) as [|m tl] eqn:Hr.
    + apply IH. intros w Hw Hi. apply (Hs w Hw).
      apply (infix_extend w [c] s Hi).
    + destruct (Hn (c :: s) m) as (w & Hw & Hi);
        [rewrite Hr; left; reflexivity|].
      exfalso. eapply Hs; eauto.
Qed.

Lemma exec_head r s m tl : run r s = m :: tl -> exec r s = Some (fst m).
Proof. intros H. destruct s; simpl; rewrite H; reflexivity. Qed.

Lemma star_rests_all k t :
  Forall (fun c => in_class k c = true) t ->
  exists tl, star_rests k t = [] :: tl.
Proof.
  induction 1 as [|c t Hc _ IH]; simpl.
  - exists []. reflexivity.
  - rewrite Hc. destruct IH as [tl ->]. exists (tl ++ [c :: t])%list.
    reflexivity.
Qed.

(** A greedy [+] over a run of class characters that ends the input
    takes all of it first. *)
Lemma plus_rests_all k t :
  Forall (fun c => in_class k c = true) t -> t <> [] ->
  exists tl, plus_rests k t = [] :: tl.
Proof.
  intros H Hne. destruct H as [|c t Hc Ht]; [contradiction|].
  simpl. rewrite Hc. apply star_rests_all, Ht.
Qed.

Lemma times_rest_all k t :
  Forall (fun c => in_class k c = true) t ->
  forall rest, times_rest (List.length t) k (t ++ rest) = Some rest.
Proof.
  induction 1 as [|c t Hc _ IH]; intros rest; simpl.
  - reflexivity.
  - rewrite Hc. apply IH.
Qed.

Lemma consumed_all t : consumed t [] = t.
Proof.
  unfold consumed. simpl. rewrite Nat.sub_0_r. apply firstn_all.
Qed.

Lemma list_ascii_of_string_app a b :
  list_ascii_of_string (a ++ b)
  = (list_ascii_of_string a ++ list_ascii_of_string b)%list.
Proof. induction a as [|c a IH]; simpl; [reflexivity | f_equal; exact IH]. Qed.

Lemma list_ascii_length s :
  List.length (list_ascii_of_string s) = String.length s.
Proof. induction s as [|c s IH]; simpl; [reflexivity | f_equal; exact IH]. Qed.

End RegexFacts.

(** ** Identifier extraction *)

Section ExtractionFacts.
Import Regex.

Local Abbreviation chars := list_ascii_of_string.
Local Abbreviation pre_of p www :=
  (list_ascii_of_string (Spec.url_prefix p www)).

(** A token character is not a separator of [[^&\n?#]], and is none of
    the characters that end the markers. *)
Lemma token_char_facts c :
  in_class token_char c = true ->
  in_class not_separator c = true
  /\ c <> "?"%char /\ c <> "."%char /\ c <> "/"%char.
Proof.
  destruct c as [[] [] [] [] [] [] [] []]; vm_compute; intros H;
    try discriminate H; repeat split; discriminate.
Qed.

Lemma token_not_separator t :
  Forall (fun c => in_class token_char c = true) t ->
  Forall (fun c => in_class not_separator c = true) t.
Proof.
  intros H. eapply Forall_impl; [|exact H].
  intros c Hc. apply token_char_facts, Hc.
Qed.

Lemma token_excludes t x :
  (x = "?" \/ x = "." \/ x = "/")%char ->
  Forall (fun c => in_class token_char c = true) t -> ~ In x t.
Proof.
  intros Hx H Hin. rewrite Forall_forall in H.
  destruct (token_char_facts x (H x Hin)) as (_ & H1 & H2 & H3).
  destruct Hx as [Hx|[Hx|Hx]]; contradiction.
Qed.

Lemma needs_pattern_of marker :
  needs (Extract.pattern_of marker) [chars marker].
Proof.
  unfold Extract.pattern_of.
  apply needs_Seq_r, needs_Seq_r, needs_Seq_l, needs_Lit.
Qed.

(** A pattern of the controller finds nothing in a link whose fixed part
    lacks the marker up to a character that no token has. *)
Lemma pattern_of_none marker u x v pre t :
  chars marker = ((u ++ [x]) ++ v)%list ->
  infixb (u ++ [x]) pre = false ->
  ~ In x t ->
  exec (Extract.pattern_of marker) (pre ++ t) = None.
Proof.
  intros Hm Hb Hx.
  apply (exec_none _ _ (needs_pattern_of marker)).
  intros w [<-|[]]. rewrite Hm. apply not_infix_app; assumption.
Qed.

Ltac run_symbolic H :=
  cbn [list_ascii_of_string app];
  cbn -[plus_rests times_rest consumed];
  rewrite H; cbn -[consumed]; rewrite consumed_all; reflexivity.

(** The pattern of a shape finds the token of a link of that shape. *)
Lemma pattern_of_hit p www marker t :
  In marker ["youtube.com/watch?v="; "youtu.be/"; "youtube.com/embed/";
             "youtube.com/v/"] ->
  Forall (fun c => in_class not_separator c = true) t -> t <> [] ->
  exec (Extract.pattern_of marker) (pre_of p www ++ chars marker ++ t)
  = Some (Some t).
Proof.
  intros Hm Ht Hne. destruct (plus_rests_all _ _ Ht Hne) as [tl Htl].
  unfold Extract.pattern_of, opt_protocol, opt_www.
  destruct Hm as [<-|[<-|[<-|[<-|[]]]]]; destruct p, www;
    run_symbolic Htl.
Qed.

(** The expression of the utility finds the token of a watch-page,
    short-link or embed-page link. *)
Lemma regex_id_hit p www marker t :
  In marker ["youtube.com/watch?v="; "youtu.be/"; "youtube.com/embed/"] ->
  Forall (fun c => in_class token_char c = true) t ->
  List.length t = 11%nat ->
  exec Youtube.regex_id (pre_of p www ++ chars marker ++ t)
  = Some (Some t).
Proof.
  intros Hm Ht Hlen.
  pose proof (times_rest_all _ _ Ht []) as Hr.
  rewrite Hlen, app_nil_r in Hr.
  unfold Youtube.regex_id.
  destruct Hm as [<-|[<-|[<-|[]]]]; destruct p, www; run_symbolic Hr.
Qed.

Lemma needs_regex_id :
  needs Youtube.regex_id
        [chars "youtube.com/watch?v="; chars "youtu.be/";
         chars "youtube.com/embed/"].
Proof.
  unfold Youtube.regex_id. apply needs_Seq_l.
  apply (needs_Alt _ _ [_] [_; _] (needs_Lit _)).
  apply (needs_Alt _ _ [_] [_] (needs_Lit _) (needs_Lit _)).
Qed.

(** The expression of the utility finds nothing in a link of the legacy
    direct-play shape. *)
Lemma regex_id_legacy_none p www t :
  Forall (fun c => in_class token_char c = true) t ->
  exec Youtube.regex_id (pre_of p www ++ chars "youtube.com/v/" ++ t)
  = None.
Proof.
  intros Ht. rewrite app_assoc.
  apply (exec_none _ _ needs_regex_id).
  intros w [<-|[<-|[<-|[]]]].
  - apply (not_infix_app (chars "youtube.com/watch") "?" (chars "v=")).
    + destruct p, www; reflexivity.
    + apply token_excludes; auto.
  - apply (not_infix_app (chars "youtu") "." (chars "be/")).
    + destruct p, www; reflexivity.
    + apply token_excludes; auto.
  - apply (not_infix_app (chars "youtube.com/embed") "/" []).
    + destruct p, www; reflexivity.
    + apply token_excludes; auto.
Qed.

Lemma match1_app a b r :
  match1 (a ++ b) r
  = option_map (option_map string_of_list_ascii)
               (exec r (chars a ++ chars b)).
Proof. unfold match1. rewrite list_ascii_of_string_app. reflexivity. Qed.

Lemma append_nonempty a b : b <> EmptyString -> (a ++ b) <> EmptyString.
Proof. destruct a; simpl; [auto | discriminate]. Qed.

Lemma is_token_chars id :
  Spec.is_token id ->
  Forall (fun c => in_class token_char c = true) (chars id)
  /\ List.length (chars id) = 11%nat
  /\ chars id <> []
  /\ exists c id', id = String c id'.
Proof.
  intros [Hlen Hall]. split; [exact Hall|].
  split; [rewrite list_ascii_length; exact Hlen|].
  destruct id as [|c id']; [discriminate Hlen|].
  split; [discriminate | eauto].
Qed.

Lemma match1_pattern_hit p www marker id :
  In marker ["youtube.com/watch?v="; "youtu.be/"; "youtube.com/embed/";
             "youtube.com/v/"] ->
  Spec.is_token id ->
  match1 (Spec.url_prefix p www ++ marker ++ id)
         (Extract.pattern_of marker) = Some (Some id).
Proof.
  intros Hm Hid. destruct (is_token_chars id Hid) as (Ht & _ & Hne & _).
  rewrite match1_app, list_ascii_of_string_app.
  rewrite (pattern_of_hit p www marker _ Hm (token_not_separator _ Ht) Hne).
  simpl. rewrite string_of_list_ascii_of_string. reflexivity.
Qed.

Lemma match1_pattern_miss p www marker marker' u x v id :
  chars marker = ((u ++ [x]) ++ v)%list ->
  (x = "?" \/ x = "." \/ x = "/")%char ->
  infixb (u ++ [x]) (pre_of p www ++ chars marker') = false ->
  Spec.is_token id ->
  match1 (Spec.url_prefix p www ++ marker' ++ id)
         (Extract.pattern_of marker) = None.
Proof.
  intros Hm Hx Hb Hid. destruct (is_token_chars id Hid) as (Ht & _).
  rewrite match1_app, list_ascii_of_string_app, app_assoc.
  rewrite (pattern_of_none marker u x v _ _ Hm Hb
             (token_excludes _ x Hx Ht)).
  reflexivity.
Qed.

Lemma first_match_hit url p ps id :
  id <> EmptyString ->
  match1 url p = Some (Some id) ->
  Extract.first_match url (p :: ps) = Some id.
Proof.
  intros Hne H. simpl. rewrite H.
  destruct id; [contradiction | reflexivity].
Qed.

Lemma first_match_miss url p ps :
  match1 url p = None ->
  Extract.first_match url (p :: ps) = Extract.first_match url ps.
Proof. intros H. simpl. rewrite H. reflexivity. Qed.

Lemma is_token_nonempty id : Spec.is_token id -> id <> EmptyString.
Proof. intros [Hlen _] ->. discriminate Hlen. Qed.

(** The extractor of the controller on the four shapes. *)
Lemma extractYoutubeVideoId_watch p www id :
  Spec.is_token id ->
  Extract.extractYoutubeVideoId (Spec.watchForm p www id) = Some id.
Proof.
  intros Hid. unfold Extract.extractYoutubeVideoId, Extract.patterns.
  apply first_match_hit; [apply is_token_nonempty, Hid|].
  apply match1_pattern_hit; simpl; auto.
Qed.

Ltac miss p www u x v :=
  rewrite first_match_miss;
  [| apply (match1_pattern_miss _ _ _ _ (chars u) x (chars v));
     [reflexivity | auto | destruct p, www; reflexivity | assumption]].

Lemma extractYoutubeVideoId_short p www id :
  Spec.is_token id ->
  Extract.extractYoutubeVideoId (Spec.shortForm p www id) = Some id.
Proof.
  intros Hid.
  unfold Extract.extractYoutubeVideoId, Extract.patterns, Spec.shortForm.
  miss p www "youtube.com/watch" "?"%char "v=".
  apply first_match_hit; [apply is_token_nonempty, Hid|].
  apply match1_pattern_hit; simpl; auto.
Qed.

Lemma extractYoutubeVideoId_embed p www id :
  Spec.is_token id ->
  Extract.extractYoutubeVideoId (Spec.embedForm p www id) = Some id.
Proof.
  intros Hid.
  unfold Extract.extractYoutubeVideoId, Extract.patterns, Spec.embedForm.
  miss p www "youtube.com/watch" "?"%char "v=".
  miss p www "youtu" "."%char "be/".
  apply first_match_hit; [apply is_token_nonempty, Hid|].
  apply match1_pattern_hit; simpl; auto.
Qed.

Lemma extractYoutubeVideoId_legacy p www id :
  Spec.is_token id ->
  Extract.extractYoutubeVideoId (Spec.legacyForm p www id) = Some id.
Proof.
  intros Hid.
  unfold Extract.extractYoutubeVideoId, Extract.patterns, Spec.legacyForm.
  miss p www "youtube.com/watch" "?"%char "v=".
  miss p www "youtu" "."%char "be/".
  miss p www "youtube.com/embed" "/"%char EmptyString.
  apply first_match_hit; [apply is_token_nonempty, Hid|].
  apply match1_pattern_hit; simpl; auto 6.
Qed.

(** The extractor of the utility on the shapes it knows. *)
Lemma extractVideoId_hit p www marker id :
  In marker ["youtube.com/watch?v="; "youtu.be/"; "youtube.com/embed/"] ->
  Spec.is_token id ->
  Youtube.extractVideoId (Spec.url_prefix p www ++ marker ++ id) = Some id.
Proof.
  intros Hm Hid. destruct (is_token_chars id Hid) as (Ht & Hlen & _).
  unfold Youtube.extractVideoId.
  rewrite match1_app, list_ascii_of_string_app.
  rewrite (regex_id_hit p www marker _ Hm Ht Hlen). cbn [option_map].
  rewrite string_of_list_ascii_of_string.
  destruct (Spec.url_prefix p www ++ marker ++ id) eqn:Hu;
    [|reflexivity].
  exfalso. revert Hu. apply append_nonempty, append_nonempty.
  apply is_token_nonempty, Hid.
Qed.

Lemma extractVideoId_legacy p www id :
  Spec.is_token id ->
  Youtube.extractVideoId (Spec.legacyForm p www id) = None.
Proof.
  intros Hid. destruct (is_token_chars id Hid) as (Ht & _).
  unfold Youtube.extractVideoId, Spec.legacyForm.
  rewrite match1_app, list_ascii_of_string_app.
  rewrite (regex_id_legacy_none p www _ Ht). cbn [option_map].
  destruct (Spec.url_prefix p www ++ "youtube.com/v/" ++ id); reflexivity.
Qed.

End ExtractionFacts.

(** C7, as the specification states it, fails on the extractor of
    utils/youtube.js: it does not know the legacy direct-play shape. *)
Lemma extractVideoId_misses_legacy :
  Spec.is_token "dQw4w9WgXcQ"
  /\ Youtube.extractVideoId (Spec.legacyForm Spec.Https true "dQw4w9WgXcQ")
     <> Some "dQw4w9WgXcQ".
Proof.
  split.
  - split; [reflexivity|]. repeat constructor.
  - vm_compute. discriminate.
Qed.

(** C7, amended: for every token [id] of 11 characters over
    [[A-Za-z0-9_-]], with or without protocol prefix and [www.], the
    extractor of the controller returns exactly [id] on the watch-page,
    short-link, embed-page and legacy direct-play shapes; the extractor of
    utils/youtube.js returns exactly [id] on the watch-page, short-link and
    embed-page shapes and finds no identifier in the legacy direct-play
    shape. *)
Theorem extraction_on_shapes (p : Spec.protocol) (www : bool) (id : string) :
  Spec.is_token id ->
  (Extract.extractYoutubeVideoId (Spec.watchForm p www id) = Some id
   /\ Extract.extractYoutubeVideoId (Spec.shortForm p www id) = Some id
   /\ Extract.extractYoutubeVideoId (Spec.embedForm p www id) = Some id
   /\ Extract.extractYoutubeVideoId (Spec.legacyForm p www id) = Some id)
  /\ (Youtube.extractVideoId (Spec.watchForm p www id) = Some id
      /\ Youtube.extractVideoId (Spec.shortForm p www id) = Some id
      /\ Youtube.extractVideoId (Spec.embedForm p www id) = Some id
      /\ Youtube.extractVideoId (Spec.legacyForm p www id) = None).
Proof.
  intros Hid. split.
  - split; [apply extractYoutubeVideoId_watch, Hid|].
    split; [apply extractYoutubeVideoId_short, Hid|].
    split; [apply extractYoutubeVideoId_embed, Hid|].
    apply extractYoutubeVideoId_legacy, Hid.
  - split; [apply extractVideoId_hit; simpl; auto|].
    split; [apply extractVideoId_hit; simpl; auto|].
    split; [apply extractVideoId_hit; simpl; auto|].
    apply extractVideoId_legacy, Hid.
Qed.

Lemma extraction_on_shapes_witness :
  Spec.is_token "dQw4w9WgXcQ"
  /\ Extract.extractYoutubeVideoId
       (Spec.legacyForm Spec.NoProtocol true "dQw4w9WgXcQ")
     = Some "dQw4w9WgXcQ"
  /\ Youtube.extractVideoId (Spec.shortForm Spec.Https false "dQw4w9WgXcQ")
     = Some "dQw4w9WgXcQ".
Proof.
  assert (H : Spec.is_token "dQw4w9WgXcQ")
    by (split; [reflexivity | repeat constructor]).
  split; [exact H|].
  split.
  - exact (proj2 (proj2 (proj2 (proj1
             (extraction_on_shapes Spec.NoProtocol true "dQw4w9WgXcQ" H))))).
  - exact (proj1 (proj2 (proj2
             (extraction_on_shapes Spec.Https false "dQw4w9WgXcQ" H)))).
Defined.

(** ** The embed URL *)

Section EmbedFacts.
Import Youtube.

Lemma in_when_true name x k v :
  In (k, v) (when_true name x)
  <-> k = name /\ x = Some true /\ v = "1".
Proof.
  unfold when_true. destruct x as [[]|]; simpl.
  - split.
    + intros [[= <- <-]|[]]. auto.
    + intros (-> & _ & ->). left. reflexivity.
  - split; [intros [] | intros (_ & [=] & _)].
  - split; [intros [] | intros (_ & [=] & _)].
Qed.

Lemma in_when_defined name x k v :
  In (k, v) (when_defined name x)
  <-> k = name /\ exists b, x = Some b /\ v = if b then "1" else "0".
Proof.
  unfold when_defined. destruct x as [b|]; simpl.
  - split.
    + intros [[= <- <-]|[]]. eauto.
    + intros (-> & b' & [= <-] & ->). left. reflexivity.
  - split; [intros [] | intros (_ & b & [=] & _)].
Qed.

Lemma in_when_truthy name x k v :
  In (k, v) (when_truthy name x)
  <-> k = name /\ exists y, x = Some y /\ o_truthy y = true
                            /\ v = o_text y.
Proof.
  unfold when_truthy. destruct x as [y|]; simpl.
  - destruct (o_truthy y) eqn:Hy; simpl.
    + split.
      * intros [[= <- <-]|[]]. eauto.
      * intros (-> & y' & [= <-] & _ & ->). left. reflexivity.
    + split; [intros []|].
      intros (_ & y' & [= <-] & Hy' & _). congruence.
  - split; [intros [] | intros (_ & y & [=] & _)].
Qed.

Lemma uint_chars d c :
  In c (list_ascii_of_string (NilEmpty.string_of_uint d)) ->
  Text.is_digit c = true.
Proof.
  induction d; simpl; intros H; try contradiction;
    destruct H as [<-|H]; auto.
Qed.

Lemma Z_to_string_chars n c :
  In c (list_ascii_of_string (JS.Z_to_string n)) ->
  Text.is_digit c = true \/ c = "-"%char.
Proof.
  unfold JS.Z_to_string, NilZero.string_of_int.
  assert (Hu : forall d,
             In c (list_ascii_of_string (NilZero.string_of_uint d)) ->
             Text.is_digit c = true).
  { intros d. unfold NilZero.string_of_uint.
    destruct d; try apply uint_chars.
    simpl. intros [<-|[]]. reflexivity. }
  destruct (Z.to_int n) as [d|d].
  - intros H. left. eapply Hu, H.
  - simpl. intros [<-|H]; [right; reflexivity | left; eapply Hu, H].
Qed.

(** The numeral of a negative integer is the sign and the numeral of
    its magnitude. *)
Lemma Z_to_string_signed n :
  JS.Z_to_string n
  = ((if (n <? 0)%Z then "-" else EmptyString)
     ++ JS.Z_to_string (Z.abs n))%string.
Proof. destruct n; reflexivity. Qed.

(** Up to [2^53] an integer is written as its numeral. *)
Lemma Number_toString_safe n :
  Z.abs n <= 2 ^ 53 -> JS.Number_toString n = JS.Z_to_string n.
Proof.
  intros Hn. unfold JS.Number_toString.
  pose proof safe_below_Infinity as Hinf.
  assert (H1 : (JS.Infinity <=? Z.abs n) = false) by (apply Z.leb_gt; lia).
  assert (H2 : (Z.abs n <=? 2 ^ 53) = true) by (apply Z.leb_le; lia).
  rewrite H1, H2. symmetry. apply Z_to_string_signed.
Qed.

(** Digits and the minus sign stand for themselves in a query string. *)
Lemma form_encode_plain s :
  (forall c, In c (list_ascii_of_string s) ->
             Text.is_digit c = true \/ c = "-"%char) ->
  form_encode s = s.
Proof.
  induction s as [|c s IH]; intros H; [reflexivity|].
  cbn [form_encode]. rewrite IH by (intros x Hx; apply H; right; exact Hx).
  assert (Hc : form_encode_char c = String c EmptyString).
  { assert (Hin : In c (list_ascii_of_string (String c s)))
      by (left; reflexivity).
    destruct (H c Hin) as [Hd|Hm]; [|rewrite Hm; reflexivity].
    clear - Hd. revert Hd. destruct c as [[] [] [] [] [] [] [] []];
      intros Hd; try discriminate Hd; reflexivity. }
  rewrite Hc. reflexivity.
Qed.

(** A query string holds no [/]: the serializer writes it as [%2F]. *)
Lemma form_encode_no_slash s :
  ~ In "/"%char (list_ascii_of_string (form_encode s)).
Proof.
  induction s as [|c s IH]; [intros []|].
  cbn [form_encode]. rewrite list_ascii_of_string_app, in_app_iff.
  intros [H|H]; [|exact (IH H)].
  revert H. destruct c as [[] [] [] [] [] [] [] []]; vm_compute;
    intuition discriminate.
Qed.

Lemma query_string_nonempty kv ps :
  query_string (kv :: ps) <> EmptyString.
Proof.
  unfold query_string. simpl map.
  destruct (map _ ps) as [|y l]; cbn [String.concat];
    destruct (form_encode (fst kv)); simpl; discriminate.
Qed.

(** The URL is the template, followed by [?] and the parameters when
    there are any. *)
Lemma getEmbedUrl_shape id o :
  id <> EmptyString ->
  getEmbedUrl id o
  = Some ("https://www.youtube.com/embed/" ++ id
          ++ match embed_params o with
             | [] => EmptyString
             | ps => "?" ++ query_string ps
             end).
Proof.
  intros Hid. unfold getEmbedUrl.
  destruct id as [|c id']; [contradiction|].
  destruct (embed_params o) as [|kv ps] eqn:Hps.
  - simpl. repeat f_equal. clear.
    induction id' as [|c' s IH]; simpl; [reflexivity | f_equal; exact IH].
  - destruct (query_string (kv :: ps)) eqn:Hq.
    + exfalso. eapply query_string_nonempty, Hq.
    + simpl. repeat f_equal.
Qed.

End EmbedFacts.

(** C8, as the specification states it, fails on the builder: an explicit
    start offset of 0 is not passed through, the URL is the bare
    template. *)
Lemma embed_url_drops_zero_start :
  let o := {| Youtube.autoplay := None; Youtube.mute := None;
              Youtube.controls := None; Youtube.showinfo := None;
              Youtube.rel := None;
              Youtube.start := Some (Youtube.seconds 0);
              Youtube.end_ := None |} in
  Youtube.getEmbedUrl "dQw4w9WgXcQ" o
  = Some "https://www.youtube.com/embed/dQw4w9WgXcQ"
  /\ Youtube.o_text (Youtube.seconds 0) = "0"
  /\ ~ In ("start", "0") (Youtube.embed_params o).
Proof. split; [reflexivity|]. split; [reflexivity | intros []]. Qed.

(** From [10^21] on an offset is written with an exponent, whose sign
    the query string escapes; above [2^53] its digits are the shortest
    ones that read back as the number; a fraction or any other value
    goes by its string form; [NaN] is falsy and is dropped. *)
Example embed_url_other_offsets :
  Youtube.getEmbedUrl "dQw4w9WgXcQ"
    {| Youtube.autoplay := None; Youtube.mute := None;
       Youtube.controls := None; Youtube.showinfo := None;
       Youtube.rel := None;
       Youtube.start := Some (Youtube.seconds (10 ^ 21));
       Youtube.end_ := Some (Youtube.seconds (2 ^ 64)) |}
  = Some "https://www.youtube.com/embed/dQw4w9WgXcQ?start=1e%2B21&end=18446744073709552000"
  /\ Youtube.getEmbedUrl "dQw4w9WgXcQ"
       {| Youtube.autoplay := None; Youtube.mute := None;
          Youtube.controls := None; Youtube.showinfo := None;
          Youtube.rel := None;
          Youtube.start := Some {| Youtube.o_truthy := true;
                                   Youtube.o_text := "1.5" |};
          Youtube.end_ := Some Youtube.not_a_number |}
     = Some "https://www.youtube.com/embed/dQw4w9WgXcQ?start=1.5".
Proof. split; vm_compute; reflexivity. Qed.

(** C8, amended: for every identifier that is not empty and every option
    set, the URL is the embed template for the identifier followed by the
    query parameters; a parameter is appended exactly in these cases:
    [autoplay] and [mute] as ["1"] when the flag is truthy; [controls],
    [showinfo] and [rel] as ["1"] or ["0"] when the flag is defined;
    [start] and [end] as the string form of the offset when the offset
    is truthy.  A whole number of seconds of magnitude up to [2^53] is
    truthy unless it is 0, its string form is its decimal numeral, and
    the query string holds that numeral as it is.  Without options the
    URL is the bare template. *)
Theorem embed_url_parameters (id : string) (o : Youtube.EmbedOptions) :
  id <> EmptyString ->
  Youtube.getEmbedUrl id o
  = Some ("https://www.youtube.com/embed/" ++ id
          ++ match Youtube.embed_params o with
             | [] => EmptyString
             | ps => "?" ++ Youtube.query_string ps
             end)
  /\ (forall k v,
        In (k, v) (Youtube.embed_params o) <->
        (k = "autoplay" /\ Youtube.autoplay o = Some true /\ v = "1")
        \/ (k = "mute" /\ Youtube.mute o = Some true /\ v = "1")
        \/ (k = "controls" /\ exists b, Youtube.controls o = Some b
                                        /\ v = if b then "1" else "0")
        \/ (k = "showinfo" /\ exists b, Youtube.showinfo o = Some b
                                        /\ v = if b then "1" else "0")
        \/ (k = "rel" /\ exists b, Youtube.rel o = Some b
                                   /\ v = if b then "1" else "0")
        \/ (k = "start" /\ exists x, Youtube.start o = Some x
                                     /\ Youtube.o_truthy x = true
                                     /\ v = Youtube.o_text x)
        \/ (k = "end" /\ exists x, Youtube.end_ o = Some x
                                   /\ Youtube.o_truthy x = true
                                   /\ v = Youtube.o_text x))
  /\ (forall n, Z.abs n <= 2 ^ 53 ->
        (Youtube.o_truthy (Youtube.seconds n) = true <-> n <> 0)
        /\ Youtube.o_text (Youtube.seconds n) = JS.Z_to_string n
        /\ Youtube.form_encode (JS.Z_to_string n) = JS.Z_to_string n)
  /\ Youtube.getEmbedUrl id Youtube.no_options
     = Some ("https://www.youtube.com/embed/" ++ id).
Proof.
  intros Hid. split; [apply getEmbedUrl_shape, Hid|]. split.
  { intros k v. unfold Youtube.embed_params.
    rewrite !in_app_iff, !in_when_true, !in_when_defined, !in_when_truthy.
    reflexivity. }
  split.
  { intros n Hn. unfold Youtube.seconds.
    cbn [Youtube.o_truthy Youtube.o_text].
    rewrite (fl_exact n Hn).
    split; [|split].
    - rewrite negb_true_iff, Z.eqb_neq. reflexivity.
    - apply Number_toString_safe, Hn.
    - apply form_encode_plain. intros c. apply Z_to_string_chars. }
  destruct id as [|c id']; [contradiction | reflexivity].
Qed.

Lemma embed_url_parameters_witness :
  let o := {| Youtube.autoplay := Some true; Youtube.mute := Some false;
              Youtube.controls := Some false; Youtube.showinfo := None;
              Youtube.rel := None;
              Youtube.start := Some (Youtube.seconds 30);
              Youtube.end_ := Some (Youtube.seconds 0) |} in
  "dQw4w9WgXcQ" <> EmptyString
  /\ Youtube.getEmbedUrl "dQw4w9WgXcQ" o
     = Some "https://www.youtube.com/embed/dQw4w9WgXcQ?autoplay=1&controls=0&start=30"
  /\ Youtube.getEmbedUrl "dQw4w9WgXcQ" Youtube.no_options
     = Some "https://www.youtube.com/embed/dQw4w9WgXcQ".
Proof.
  intros o.
  assert (H : "dQw4w9WgXcQ" <> EmptyString) by discriminate.
  split; [exact H|].
  split.
  - exact (proj1 (embed_url_parameters "dQw4w9WgXcQ" o H)).
  - exact (proj2 (proj2 (proj2 (embed_url_parameters "dQw4w9WgXcQ" o H)))).
Defined.

(** ** Soft deletion *)

Section SoftDeleteFacts.
Context {E : Engine}.

Lemma filter_filter_sub {A : Type} (f g : A -> bool) (l : list A) :
  (forall x, f x = true -> g x = true) ->
  filter f (filter g l) = filter f l.
Proof.
  intros H. induction l as [|x l IH]; simpl; [reflexivity|].
  destruct (g x) eqn:Hg; simpl.
  - rewrite IH. reflexivity.
  - destruct (f x) eqn:Hf; [|exact IH].
    rewrite (H x Hf) in Hg. discriminate.
Qed.

Lemma satisfies_active q v :
  In (Key (IsActive true)) q -> satisfies q v = true -> isActive v = true.
Proof.
  intros Hin Hs. unfold satisfies in Hs. rewrite forallb_forall in Hs.
  specialize (Hs _ Hin). simpl in Hs.
  destruct (isActive v); [reflexivity | discriminate].
Qed.

(** A filter with the key [isActive: true] does not see soft-deleted
    entries. *)
Lemma select_without_deleted db q :
  In (Key (IsActive true)) q ->
  select (Spec.without_deleted db) q = select db q.
Proof.
  intros Hin. unfold select, Spec.without_deleted.
  apply filter_filter_sub. intros v. apply satisfies_active, Hin.
Qed.

Lemma select_members db q v :
  In (Key (IsActive true)) q -> In v (select db q) ->
  In v db /\ isActive v = true.
Proof.
  intros Hin Hv. apply filter_In in Hv. destruct Hv as [Hdb Hs].
  split; [exact Hdb | eapply satisfies_active; eauto].
Qed.

Lemma build_query_active q filter :
  build_query q = Some filter -> In (Key (IsActive true)) filter.
Proof.
  unfold build_query, and_then.
  destruct (regex_key PBookTitle _); [|discriminate].
  destruct (regex_key PChapter _); [|discriminate].
  destruct (regex_key PSubject _); [|discriminate].
  destruct (search_key _); [|discriminate].
  intros [= <-]. left. reflexivity.
Qed.

Lemma pre_save_isActive v : isActive (pre_save v) = isActive v.
Proof.
  unfold pre_save. destruct (youtubeUrl v) as [url|]; [|reflexivity].
  destruct (_ && _); [|reflexivity].
  destruct (Regex.match1 url Youtube.regex_id) as [[id|]|]; reflexivity.
Qed.

Lemma in_insert_sorted x y xs :
  In y (insert_sorted x xs) <-> y = x \/ In y xs.
Proof.
  induction xs as [|z xs IH]; simpl.
  - intuition congruence.
  - destruct (String.leb x z); simpl; [intuition congruence|].
    rewrite IH. intuition congruence.
Qed.

Lemma in_sort_strings y xs : In y (sort_strings xs) <-> In y xs.
Proof.
  induction xs as [|x xs IH]; simpl; [reflexivity|].
  rewrite in_insert_sorted, IH. intuition congruence.
Qed.

Lemma in_insert_row x y xs : In y (insert_row x xs) <-> y = x \/ In y xs.
Proof.
  induction xs as [|z xs IH]; simpl.
  - intuition congruence.
  - destruct (snd z <? snd x); simpl; [intuition congruence|].
    rewrite IH. intuition congruence.
Qed.

Lemma in_sort_rows y xs : In y (sort_rows xs) <-> In y xs.
Proof.
  induction xs as [|x xs IH]; simpl; [reflexivity|].
  rewrite in_insert_row, IH. intuition congruence.
Qed.

Lemma in_distinct f db q x :
  In (Key (IsActive true)) q ->
  In x (distinct f db q) ->
  exists v, In v db /\ isActive v = true /\ f v = x.
Proof.
  intros Hq Hx. unfold distinct in Hx. apply nodup_In in Hx.
  apply in_map_iff in Hx. destruct Hx as (v & <- & Hv).
  destruct (select_members _ _ _ Hq Hv). eauto.
Qed.

Lemma first_by_id_In db id v : first_by_id db id = Some v -> In v db.
Proof.
  induction db as [|x db IH]; simpl; [discriminate|].
  destruct (String.eqb (_id x) id).
  - intros [= ->]. left. reflexivity.
  - intros H. right. apply IH, H.
Qed.

Lemma first_by_id_id db id v : first_by_id db id = Some v -> _id v = id.
Proof.
  induction db as [|x db IH]; simpl; [discriminate|].
  destruct (String.eqb_spec (_id x) id) as [Hx|Hx].
  - intros [= <-]. exact Hx.
  - exact IH.
Qed.

Lemma first_by_id_update_same db id f v :
  first_by_id db id = Some v -> _id (f v) = id ->
  first_by_id (update_by_id db id f) id = Some (f v).
Proof.
  intros H Hf. induction db as [|x db IH]; simpl in *; [discriminate|].
  destruct (String.eqb_spec (_id x) id) as [Hx|Hx]; simpl.
  - injection H as ->. rewrite Hf, String.eqb_refl. reflexivity.
  - destruct (String.eqb_spec (_id x) id); [contradiction | auto].
Qed.




Lemma in_firstn {A : Type} n (l : list A) x : In x (firstn n l) -> In x l.
Proof.
  intros H. rewrite <- (firstn_skipn n l). apply in_or_app. auto.
Qed.

Lemma in_skipn {A : Type} n (l : list A) x : In x (skipn n l) -> In x l.
Proof.
  intros H. rewrite <- (firstn_skipn n l). apply in_or_app. auto.
Qed.

Lemma in_group_by_book vs row :
  In row (group_by_book vs) -> exists v, In v vs /\ bookTitle v = fst row.
Proof.
  unfold group_by_book. intros H. apply in_map_iff in H.
  destruct H as (b & <- & Hb). apply nodup_In in Hb.
  apply in_map_iff in Hb. destruct Hb as (v & <- & Hv). eauto.
Qed.

End SoftDeleteFacts.

(** The in-memory engine keeps to the engine laws. *)
Lemma mem_engine_laws : EngineLaws Mem.engine.
Proof.
  constructor. intros so sk li xs ys. simpl. unfold Mem.window.
  assert (Horder : forall x, In x (Mem.order so xs) -> In x xs).
  { intros x. unfold Mem.order.
    destruct so as [|[key dir] [|? ?]]; auto.
    destruct (_ && _); auto. intros Hx. apply in_rev, Hx. }
  assert (Hdrop : forall k (zs : list Video) x,
             In x (Mem.drop k zs) -> In x zs).
  { intros k zs x. unfold Mem.drop.
    destruct (_ <=? _); [intros [] | apply in_skipn]. }
  assert (Htake : forall k (zs : list Video) x,
             In x (Mem.take k zs) -> In x zs).
  { intros k zs x. unfold Mem.take.
    destruct (_ <=? _); [auto | apply in_firstn]. }
  assert (Hlim : forall (zs ws : list Video),
             match li with
             | Some (Some l) =>
                 Some (if l =? 0 then zs else Mem.take (Z.abs l) zs)
             | Some None => None
             | None => Some zs
             end = Some ws -> incl ws zs).
  { intros zs ws. destruct li as [[l|]|]; try discriminate.
    - intros [= <-] x. destruct (l =? 0); [auto | apply Htake].
    - intros [= <-] x. auto. }
  destruct sk as [[k|]|]; try discriminate.
  - destruct (k <? 0); [discriminate|].
    intros H x Hx. apply Horder. eapply Hdrop, (Hlim _ _ H), Hx.
  - intros H x Hx. apply Horder, (Hlim _ _ H), Hx.
Qed.

(** C9: an entry with [isActive = false] never appears in the output of
    the list operation, of the single-item get, of the statistics or of
    the two metadata operations: what they return is made of active
    entries only, and it does not change when the soft-deleted entries are
    removed from the collection. *)
Theorem soft_deleted_never_served {E : Engine} (L : EngineLaws E)
        (db : collection) :
  (forall req data p f,
      body (getAllVideos db req) = Listing data p f ->
      forall v, In v data -> In v db /\ isActive v = true)
  /\ (forall req,
         getAllVideos (Spec.without_deleted db) req = getAllVideos db req)
  /\ (forall id v,
         body (fst (getVideoById db id)) = Single v -> isActive v = true)
  /\ (forall id v,
         findById db id = inr (Some v) -> isActive v = false ->
         getVideoById db id = (failure 404 "Video not found", db))
  /\ getVideoStats (Spec.without_deleted db) = getVideoStats db
  /\ (forall st,
         body (getVideoStats db) = Statistics st ->
         (forall r, In r (recentVideos st) ->
                    exists v, In v db /\ isActive v = true /\ project v = r)
         /\ (forall row, In row (topBooks st) ->
                         exists v, In v db /\ isActive v = true
                                   /\ bookTitle v = fst row))
  /\ getUniqueBooks (Spec.without_deleted db) = getUniqueBooks db
  /\ (forall names,
         body (getUniqueBooks db) = Names names ->
         forall b, In b names ->
                   exists v, In v db /\ isActive v = true /\ bookTitle v = b)
  /\ (forall book,
         getChaptersByBook (Spec.without_deleted db) book
         = getChaptersByBook db book)
  /\ (forall book names,
         body (getChaptersByBook db book) = Names names ->
         forall c, In c names ->
                   exists v, In v db /\ isActive v = true /\ chapter v = c).
Proof.
  assert (Hact : In (Key (IsActive true)) [Key (IsActive true)])
    by (left; reflexivity).
  split.
  { intros req data p f H v Hv. apply getAllVideos_listing in H.
    destruct H as (filter & Hq & Hc & _).
    apply cursor_incl in Hc. apply Hc in Hv.
    eapply select_members; [eapply build_query_active, Hq | exact Hv]. }
  split.
  { intros req. unfold getAllVideos.
    destruct (build_query (query req)) as [filter|] eqn:Hq; [|reflexivity].
    unfold countDocuments.
    rewrite (select_without_deleted db filter (build_query_active _ _ Hq)).
    reflexivity. }
  split.
  { intros id v. unfold getVideoById.
    destruct (findById db id) as [[]|[video|]]; try discriminate.
    destruct (isActive video) eqn:Hv; simpl; [|discriminate].
    unfold incrementViews, save.
    destruct (validate _); simpl; [|discriminate].
    intros [= <-]. rewrite pre_save_isActive. exact Hv. }
  split.
  { intros id v Hf Hv. unfold getVideoById. rewrite Hf, Hv. reflexivity. }
  split.
  { unfold getVideoStats, countDocuments.
    rewrite !select_without_deleted by (simpl; auto). reflexivity. }
  split.
  { intros st. unfold getVideoStats.
    destruct (cursor _ _ _ _) as [recent|] eqn:Hc; [|discriminate].
    intros Hst.
    assert (Hrecent : recentVideos st = map project recent)
      by (inversion Hst; reflexivity).
    assert (Htop : topBooks st
                   = firstn 10 (sort_rows
                                  (group_by_book
                                     (select db [Key (IsActive true)]))))
      by (inversion Hst; reflexivity).
    rewrite Hrecent, Htop. clear Hst Hrecent Htop. split.
    - intros r Hr. apply in_map_iff in Hr. destruct Hr as (v & <- & Hv).
      apply cursor_incl in Hc. apply Hc in Hv.
      destruct (select_members _ _ _ Hact Hv). eauto.
    - intros row Hrow. apply in_firstn in Hrow.
      apply -> in_sort_rows in Hrow.
      apply in_group_by_book in Hrow. destruct Hrow as (v & Hv & Hb).
      destruct (select_members _ _ _ Hact Hv). eauto. }
  split.
  { unfold getUniqueBooks, distinct.
    rewrite select_without_deleted by exact Hact. reflexivity. }
  split.
  { intros names [= <-] b Hb. apply -> in_sort_strings in Hb.
    eapply in_distinct; [exact Hact | exact Hb]. }
  split.
  { intros book. unfold getChaptersByBook, distinct.
    destruct (RegExp_i book); [|reflexivity].
    rewrite select_without_deleted by (simpl; auto). reflexivity. }
  { intros book names. unfold getChaptersByBook.
    destruct (RegExp_i book); [|discriminate].
    intros [= <-] c Hc. apply -> in_sort_strings in Hc.
    eapply in_distinct; [|exact Hc]. simpl; auto. }
Qed.

Lemma soft_deleted_never_served_witness :
  EngineLaws Mem.engine
  /\ getAllVideos (E:=Mem.engine) (Spec.without_deleted Mem.catalog)
                  (run_rules queryValidationRules Mem.density_query)
     = getAllVideos (E:=Mem.engine) Mem.catalog
                    (run_rules queryValidationRules Mem.density_query)
  /\ getVideoById (E:=Mem.engine) Mem.catalog "64b0000000000000000000a6"
     = (failure 404 "Video not found", Mem.catalog)
  /\ getVideoStats (E:=Mem.engine) (Spec.without_deleted Mem.catalog)
     = getVideoStats (E:=Mem.engine) Mem.catalog.
Proof.
  split; [exact mem_engine_laws|].
  pose proof (soft_deleted_never_served mem_engine_laws Mem.catalog)
    as (_ & Hlist & _ & Hget & Hstats & _).
  split; [apply Hlist|].
  split; [|exact Hstats].
  eapply Hget; reflexivity.
Defined.




(** ** The helpers of utils/validators.js *)

(** X1: [validatePagination] clamps for every input: the page is at least
    1 and the limit lies in [1,50]; a page reading of at least 1 and a
    limit reading in [1,50] are kept, a limit reading above 50 gives 50 and
    a negative one gives 1. *)
Theorem validatePagination_clamps (q_page q_limit : option string) :
  let r := Validators.validatePagination q_page q_limit in
  1 <= Validators.page r
  /\ 1 <= Validators.limit r <= 50
  /\ (forall n, JS.parseInt (JS.prop q_page) None = Some n -> 1 <= n ->
                Validators.page r = n)
  /\ (forall n, JS.parseInt (JS.prop q_limit) None = Some n ->
                1 <= n <= 50 -> Validators.limit r = n)
  /\ (forall n, JS.parseInt (JS.prop q_limit) None = Some n ->
                50 < n -> Validators.limit r = 50)
  /\ (forall n, JS.parseInt (JS.prop q_limit) None = Some n ->
                n < 0 -> Validators.limit r = 1).
Proof.
  unfold Validators.validatePagination; simpl.
  split; [lia|]. split; [lia|].
  unfold JS.or_else.
  split; [intros n -> Hn; destruct (Z.eqb_spec n 0); lia|].
  split; [intros n -> Hn; destruct (Z.eqb_spec n 0); lia|].
  split; intros n -> Hn; destruct (Z.eqb_spec n 0); lia.
Qed.

Lemma validatePagination_clamps_witness :
  Validators.page (Validators.validatePagination (Some "7") (Some "-3")) = 7
  /\ Validators.limit (Validators.validatePagination (Some "7") (Some "-3"))
     = 1.
Proof.
  pose proof (validatePagination_clamps (Some "7") (Some "-3"))
    as (_ & _ & Hp & _ & _ & Hl).
  split.
  - apply (Hp 7); [reflexivity | lia].
  - apply (Hl (-3)); [reflexivity | lia].
Defined.

Lemma includes_In xs s :
  Validators.includes xs (Some s) = true <-> In s xs.
Proof.
  unfold Validators.includes. rewrite existsb_exists. split.
  - intros (x & Hx & He). apply String.eqb_eq in He. subst. exact Hx.
  - intros H. exists s. split; [exact H | apply String.eqb_refl].
Qed.

(** X2: the result of [validateSort] is always admissible: its key is one
    of the allowed fields or [createdAt], its order is [asc] or [desc]; an
    allowed key and an admissible order are kept; and validating the
    result again changes nothing. *)
Theorem validateSort_admissible (sortBy sortOrder : option string)
        (allowedFields : list string) :
  let r := Validators.validateSort sortBy sortOrder allowedFields in
  (In (Validators.sortBy r) allowedFields
   \/ Validators.sortBy r = "createdAt")
  /\ (Validators.sortOrder r = "asc" \/ Validators.sortOrder r = "desc")
  /\ (forall s, sortBy = Some s -> In s allowedFields ->
                Validators.sortBy r = s)
  /\ (forall s, sortOrder = Some s -> s = "asc" \/ s = "desc" ->
                Validators.sortOrder r = s)
  /\ Validators.validateSort (Some (Validators.sortBy r))
                             (Some (Validators.sortOrder r)) allowedFields
     = r.
Proof.
  unfold Validators.validateSort; simpl.
  split.
  { destruct sortBy as [s|]; [|auto].
    destruct (Validators.includes allowedFields (Some s)) eqn:Hi; [|auto].
    left. apply includes_In, Hi. }
  split.
  { destruct sortOrder as [s|]; [|auto].
    destruct (Validators.includes ["asc"; "desc"] (Some s)) eqn:Hi; [|auto].
    apply includes_In in Hi. simpl in Hi. intuition auto. }
  split.
  { intros s -> Hs. apply includes_In in Hs. rewrite Hs. reflexivity. }
  split.
  { intros s -> Hs.
    assert (Hi : Validators.includes ["asc"; "desc"] (Some s) = true)
      by (apply includes_In; simpl; intuition auto).
    rewrite Hi. reflexivity. }
  f_equal.
  - destruct sortBy as [s|].
    + destruct (Validators.includes allowedFields (Some s)) eqn:Hi.
      * simpl in Hi |- *. rewrite Hi. reflexivity.
      * match goal with
        | |- (if ?b then _ else _) = _ => destruct b; reflexivity
        end.
    + match goal with
      | |- (if ?b then _ else _) = _ => destruct b; reflexivity
      end.
  - destruct sortOrder as [s|]; [|reflexivity].
    destruct (Validators.includes ["asc"; "desc"] (Some s)) eqn:Hi.
    + simpl in Hi |- *. rewrite Hi. reflexivity.
    + reflexivity.
Qed.

Lemma validateSort_admissible_witness :
  Validators.sortBy
    (Validators.validateSort (Some "views") (Some "sideways")
                             Validators.default_allowedFields) = "views"
  /\ Validators.sortOrder
       (Validators.validateSort (Some "views") (Some "sideways")
                                Validators.default_allowedFields) = "desc".
Proof.
  pose proof (validateSort_admissible (Some "views") (Some "sideways")
                Validators.default_allowedFields) as (_ & _ & Hby & _).
  split; [|reflexivity].
  apply (Hby "views"); [reflexivity | simpl; auto].
Defined.

Section SanitizeFacts.
Import Regex RegexTest Sanitize.

Lemma string_length_of_list l :
  String.length (string_of_list_ascii l) = List.length l.
Proof. induction l as [|c l IH]; simpl; [reflexivity | f_equal; exact IH]. Qed.

Lemma filter_length_le {A : Type} (f : A -> bool) (l : list A) :
  (List.length (filter f l) <= List.length l)%nat.
Proof.
  induction l as [|x l IH]; simpl; [lia|].
  destruct (f x); simpl; lia.
Qed.

Lemma slice0_length m s :
  0 <= m -> Z.of_nat (List.length (Text.slice0 m s)) <= m.
Proof.
  intros Hm. unfold Text.slice0.
  destruct (Z.ltb_spec m 0); [lia|].
  pose proof (firstn_le_length
                (Z.to_nat (Z.min m (Z.of_nat (List.length s)))) s).
  lia.
Qed.

Lemma in_drop_ws c s : In c (Text.drop_ws s) -> In c s.
Proof.
  induction s as [|a s IH]; simpl; [auto|].
  destruct (JS.is_ws a); simpl; auto.
Qed.

Lemma in_trim_chars c s : In c (Text.trim_chars s) -> In c s.
Proof.
  unfold Text.trim_chars. intros H.
  apply in_rev, in_drop_ws in H. apply in_rev in H.
  apply in_drop_ws, H.
Qed.

Lemma in_slice0 c m s : In c (Text.slice0 m s) -> In c s.
Proof. unfold Text.slice0. apply in_firstn. Qed.

Lemma in_strip_markup c s :
  In c (strip_markup s) <-> In c s /\ in_class markup_char c = false.
Proof.
  unfold strip_markup. rewrite filter_In.
  destruct (in_class markup_char c); simpl; intuition congruence.
Qed.

Lemma sanitize_chars input maxLength c :
  In c (list_ascii_of_string
          (sanitizeString (JS.VString input) maxLength)) ->
  in_class markup_char c = false /\ In c (list_ascii_of_string input).
Proof.
  unfold sanitizeString.
  destruct input as [|a u]; simpl; [intros []|].
  intros Hc. rewrite list_ascii_of_string_of_list_ascii in Hc.
  apply in_strip_markup in Hc. destruct Hc as [Hc Hm].
  split; [exact Hm|].
  apply in_slice0, in_trim_chars in Hc. exact Hc.
Qed.

Lemma sanitize_length input maxLength m :
  m = match maxLength with Some k => k | None => 255 end ->
  0 <= m ->
  Z.of_nat (String.length (sanitizeString (JS.VString input) maxLength))
  <= m.
Proof.
  intros -> Hm. unfold sanitizeString.
  destruct input as [|a u]; simpl; [exact Hm|].
  rewrite string_length_of_list.
  match goal with
  | |- Z.of_nat (List.length (strip_markup (Text.slice0 ?k ?t))) <= _ =>
      pose proof (filter_length_le
                    (fun c => negb (in_class markup_char c))
                    (Text.slice0 k t));
      pose proof (slice0_length k t)
  end.
  unfold strip_markup.
  destruct maxLength as [k|]; simpl in *; lia.
Qed.

End SanitizeFacts.

(** X3: the result of [sanitizeString] holds none of the characters
    [<], [>], [&], double quote and single quote, every character of it
    is a character of the input, and it is no longer than a maximum length
    that is not negative (255 when none is given). *)
Theorem sanitizeString_safe (input : string) (maxLength : option Z) :
  let out := Sanitize.sanitizeString (JS.VString input) maxLength in
  (forall c, In c (list_ascii_of_string out) ->
             Regex.in_class RegexTest.markup_char c = false
             /\ In c (list_ascii_of_string input))
  /\ (forall m, maxLength = Some m -> 0 <= m ->
                Z.of_nat (String.length out) <= m)
  /\ (maxLength = None -> Z.of_nat (String.length out) <= 255).
Proof.
  cbv zeta. split; [intros c; apply sanitize_chars|].
  split.
  - intros m -> Hm. apply sanitize_length; [reflexivity | exact Hm].
  - intros ->. apply sanitize_length; [reflexivity | lia].
Qed.

Lemma sanitizeString_safe_witness :
  Z.of_nat (String.length
              (Sanitize.sanitizeString
                 (JS.VString "  <b>Tom & Jerry</b>  ") (Some 12))) <= 12
  /\ Sanitize.sanitizeString (JS.VString "  <b>Tom & Jerry</b>  ") (Some 12)
     = "bTom  Jer".
Proof.
  split; [|reflexivity].
  apply (proj1 (proj2 (sanitizeString_safe "  <b>Tom & Jerry</b>  "
                         (Some 12))) 12); [reflexivity | lia].
Defined.

(** X4: [validateTags] returns at most 10 tags; each of them is not
    empty, has at most 30 characters and holds none of the characters
    [<], [>], [&], double quote and single quote. *)
Theorem validateTags_bounds (tags : Sanitize.tags_value) :
  (List.length (Sanitize.validateTags tags) <= 10)%nat
  /\ forall t, In t (Sanitize.validateTags tags) ->
               (1 <= String.length t <= 30)%nat
               /\ forall c, In c (list_ascii_of_string t) ->
                            Regex.in_class RegexTest.markup_char c = false.
Proof.
  unfold Sanitize.validateTags.
  set (arr := match tags with
              | Sanitize.TagsString (String c u) => _
              | Sanitize.TagsArray xs => Some xs
              | _ => None
              end).
  destruct arr as [xs|]; [|split; [simpl; lia | intros t []]].
  split; [apply firstn_le_length|].
  intros t Ht. apply in_firstn in Ht. apply filter_In in Ht.
  destruct Ht as [Ht Hpos]. apply Nat.ltb_lt in Hpos.
  apply in_map_iff in Ht. destruct Ht as (v & <- & Hv).
  apply filter_In in Hv. destruct Hv as [_ Hv].
  destruct v as [|s|n]; try discriminate Hv.
  split.
  - pose proof (sanitize_length s (Some 30) 30 eq_refl).
    rewrite <- Nat2Z.id at 1. lia.
  - intros c Hin. eapply sanitize_chars, Hin.
Qed.

Lemma validateTags_bounds_witness :
  Sanitize.validateTags
    (Sanitize.TagsString " density , <i>fluids</i>,, a&b ")
  = ["density"; "ifluids/i"; "ab"]
  /\ (1 <= String.length "ifluids/i" <= 30)%nat.
Proof.
  split; [reflexivity|].
  apply (proj2 (validateTags_bounds
                  (Sanitize.TagsString " density , <i>fluids</i>,, a&b "))).
  vm_compute. auto.
Defined.

(** ** Anchored tests and what a match is made of *)

Section RegexInversion.
Import Regex RegexTest.

Local Abbreviation chars := list_ascii_of_string.

Lemma times_rest_sound k : forall n s rest,
  times_rest n k s = Some rest ->
  exists t, s = (t ++ rest)%list /\ List.length t = n
            /\ Forall (fun c => in_class k c = true) t.
Proof.
  induction n as [|n IH]; simpl; intros s rest H.
  - injection H as <-. exists []. auto.
  - destruct s as [|c s]; [discriminate|].
    destruct (in_class k c) eqn:Hc; [|discriminate].
    destruct (IH _ _ H) as (t & -> & Hlen & Hall).
    exists (c :: t). simpl. auto.
Qed.

Lemma times_rest_app k t rest :
  Forall (fun c => in_class k c = true) t ->
  times_rest (List.length t) k (t ++ rest) = Some rest.
Proof. intros H. apply times_rest_all, H. Qed.

Lemma consumed_app t rest : consumed (t ++ rest) rest = t.
Proof.
  unfold consumed. rewrite length_app, Nat.add_sub.
  rewrite firstn_app, Nat.sub_diag, firstn_all. simpl.
  apply app_nil_r.
Qed.

Lemma run_Lit_inv w s m :
  In m (run (Lit w) s) -> s = (chars w ++ snd m)%list /\ fst m = None.
Proof.
  simpl. destruct (strip_prefix _ s) as [rest|] eqn:Hp; [|contradiction].
  intros [<-|[]]. split; [apply strip_prefix_sound, Hp | reflexivity].
Qed.

Lemma run_Opt_inv r s m :
  In m (run (Opt r) s) -> In m (run r s) \/ m = (None, s).
Proof.
  simpl. intros H. apply in_app_or in H.
  destruct H as [H|[<-|[]]]; auto.
Qed.

Lemma run_Alt_inv r1 r2 s m :
  In m (run (Alt r1 r2) s) -> In m (run r1 s) \/ In m (run r2 s).
Proof. simpl. apply in_app_or. Qed.

Lemma run_Times_inv n k s m :
  In m (run (Times n k) s) ->
  fst m = None
  /\ exists t, s = (t ++ snd m)%list /\ List.length t = n
               /\ Forall (fun c => in_class k c = true) t.
Proof.
  simpl. destruct (times_rest n k s) as [rest|] eqn:Ht; [|contradiction].
  intros [<-|[]]. split; [reflexivity|].
  apply times_rest_sound, Ht.
Qed.

Lemma run_Group_inv r s m :
  In m (run (Group r) s) ->
  fst m = Some (consumed s (snd m))
  /\ exists m', In m' (run r s) /\ snd m' = snd m.
Proof.
  simpl. intros H. apply in_map_iff in H. destruct H as (m' & <- & H).
  simpl. eauto.
Qed.

(** A match of a sequence, with the text of the group. *)
Lemma run_Seq_inv_full r1 r2 s m :
  In m (run (Seq r1 r2) s) ->
  exists m1 m2,
    In m1 (run r1 s) /\ In m2 (run r2 (snd m1)) /\ snd m = snd m2
    /\ fst m = match fst m2 with Some _ => fst m2 | None => fst m1 end.
Proof.
  simpl. intros H. apply in_flat_map in H.
  destruct H as (m1 & H1 & H). apply in_map_iff in H.
  destruct H as (m2 & <- & H2). exists m1, m2. auto.
Qed.

(** The optional protocol takes nothing, [http://] or [https://]. *)
Lemma run_opt_protocol_inv s m :
  In m (run opt_protocol s) ->
  fst m = None
  /\ exists p, In p [[]; chars "http://"; chars "https://"]
               /\ s = (p ++ snd m)%list.
Proof.
  unfold opt_protocol. intros H. apply run_Opt_inv in H.
  destruct H as [H| ->].
  - apply run_Seq_inv_full in H.
    destruct H as (m1 & m2 & H1 & H2 & Hs & Hf).
    apply run_Lit_inv in H1. destruct H1 as [-> Hf1].
    apply run_Seq_inv_full in H2.
    destruct H2 as (m3 & m4 & H3 & H4 & Hs2 & Hf2).
    apply run_Lit_inv in H4. destruct H4 as [H4 Hf4].
    rewrite Hf4 in Hf2. rewrite Hf2 in Hf. rewrite Hs, Hs2.
    apply run_Opt_inv in H3. destruct H3 as [H3|H3].
    + apply run_Lit_inv in H3. destruct H3 as [H3 Hf3].
      rewrite Hf3, Hf1 in Hf. split; [exact Hf|].
      exists (chars "https://"). split; [simpl; auto|].
      rewrite H3, H4. reflexivity.
    + subst m3. simpl in *. rewrite Hf1 in Hf. split; [exact Hf|].
      exists (chars "http://"). split; [simpl; auto|].
      rewrite H4. reflexivity.
  - split; [reflexivity|]. exists []. split; [simpl; auto | reflexivity].
Qed.

(** The optional subdomain takes nothing or [www.]. *)
Lemma run_opt_www_inv s m :
  In m (run opt_www s) ->
  fst m = None
  /\ exists w, In w [[]; chars "www."] /\ s = (w ++ snd m)%list.
Proof.
  unfold opt_www. intros H. apply run_Opt_inv in H.
  destruct H as [H| ->].
  - apply run_Lit_inv in H. destruct H as [H Hf]. split; [exact Hf|].
    exists (chars "www."). split; [simpl; auto | exact H].
  - split; [reflexivity|]. exists []. split; [simpl; auto | reflexivity].
Qed.

(** What [^valid_url] accepts: an optional protocol, an optional [www.],
    one of the three markers, eleven token characters, and anything. *)
Lemma test_start_valid_url_inv s :
  test_start valid_url s = true ->
  exists p w marker t rest,
    In p [[]; chars "http://"; chars "https://"]
    /\ In w [[]; chars "www."]
    /\ In marker ["youtube.com/watch?v="; "youtu.be/";
                  "youtube.com/embed/"]
    /\ List.length t = 11%nat
    /\ Forall (fun c => in_class token_char c = true) t
    /\ s = (p ++ w ++ chars marker ++ t ++ rest)%list.
Proof.
  unfold test_start.
  destruct (run valid_url s) as [|m tl] eqn:Hr; [discriminate|]. intros _.
  assert (H : In m (run valid_url s)) by (rewrite Hr; left; reflexivity).
  clear Hr. unfold valid_url in H.
  apply run_Seq_inv_full in H. destruct H as (m1 & m2 & H1 & H2 & _ & _).
  apply run_opt_protocol_inv in H1. destruct H1 as (_ & p & Hp & ->).
  apply run_Seq_inv_full in H2. destruct H2 as (m3 & m4 & H3 & H4 & _ & _).
  apply run_opt_www_inv in H3. destruct H3 as (_ & w & Hw & ->).
  apply run_Seq_inv_full in H4. destruct H4 as (m5 & m6 & H5 & H6 & _ & _).
  apply run_Times_inv in H6. destruct H6 as (_ & t & Ht & Hlen & Hall).
  exists p, w.
  assert (Hmk : exists marker,
             In marker ["youtube.com/watch?v="; "youtu.be/";
                        "youtube.com/embed/"]
             /\ snd m3 = (chars marker ++ snd m5)%list).
  { apply run_Alt_inv in H5. destruct H5 as [H5|H5].
    - apply run_Lit_inv in H5. exists "youtube.com/watch?v=".
      split; [simpl; auto | apply H5].
    - apply run_Alt_inv in H5. destruct H5 as [H5|H5];
        apply run_Lit_inv in H5.
      + exists "youtu.be/". split; [simpl; auto | apply H5].
      + exists "youtube.com/embed/". split; [simpl; auto | apply H5]. }
  destruct Hmk as (marker & Hmk & Hs).
  exists marker, t, (snd m6). repeat (split; [assumption|]).
  rewrite Hs, Ht. reflexivity.
Qed.

Ltac run_with H :=
  cbn [list_ascii_of_string app];
  cbn -[plus_rests times_rest consumed];
  rewrite H; cbn -[consumed]; rewrite consumed_app; reflexivity.

(** The expression of [extractVideoId] finds the token of every link
    that [^valid_url] accepts. *)
Lemma regex_id_hit_rest p w marker t rest :
  In p [[]; chars "http://"; chars "https://"] ->
  In w [[]; chars "www."] ->
  In marker ["youtube.com/watch?v="; "youtu.be/"; "youtube.com/embed/"] ->
  List.length t = 11%nat ->
  Forall (fun c => in_class token_char c = true) t ->
  exec Youtube.regex_id (p ++ w ++ chars marker ++ t ++ rest)
  = Some (Some t).
Proof.
  intros Hp Hw Hm Hlen Ht.
  pose proof (times_rest_app _ _ rest Ht) as Hr. rewrite Hlen in Hr.
  unfold Youtube.regex_id.
  destruct Hp as [<-|[<-|[<-|[]]]]; destruct Hw as [<-|[<-|[]]];
    destruct Hm as [<-|[<-|[<-|[]]]]; run_with Hr.
Qed.

Lemma test_start_valid_url_hit p w marker t rest :
  In p [[]; chars "http://"; chars "https://"] ->
  In w [[]; chars "www."] ->
  In marker ["youtube.com/watch?v="; "youtu.be/"; "youtube.com/embed/"] ->
  List.length t = 11%nat ->
  Forall (fun c => in_class token_char c = true) t ->
  test_start valid_url (p ++ w ++ chars marker ++ t ++ rest) = true.
Proof.
  intros Hp Hw Hm Hlen Ht.
  pose proof (times_rest_app _ _ rest Ht) as Hr. rewrite Hlen in Hr.
  unfold test_start, valid_url, opt_protocol, opt_www.
  destruct Hp as [<-|[<-|[<-|[]]]]; destruct Hw as [<-|[<-|[]]];
    destruct Hm as [<-|[<-|[<-|[]]]];
    cbn [list_ascii_of_string app];
    cbn -[plus_rests times_rest consumed];
    rewrite Hr; reflexivity.
Qed.

Lemma exec_inv r : forall s c,
  exec r s = Some c ->
  exists a s' m tl, s = (a ++ s')%list /\ run r s' = m :: tl /\ fst m = c.
Proof.
  induction s as [|x s IH]; intros c; simpl.
  - destruct (run r []) as [|m tl] eqn:Hr; [discriminate|].
    intros [= <-]. exists [], [], m, tl. auto.
  - destruct (run r (x :: s)) as [|m tl] eqn:Hr.
    + intros H. destruct (IH _ H) as (a & s' & m & tl & -> & Hm & Hc).
      exists (x :: a), s', m, tl. auto.
    + intros [= <-]. exists [], (x :: s), m, tl. auto.
Qed.

(** What [extractVideoId] finds is eleven token characters. *)
Lemma exec_regex_id_token s c :
  exec Youtube.regex_id s = Some c ->
  exists t, c = Some t /\ List.length t = 11%nat
            /\ Forall (fun x => in_class token_char x = true) t.
Proof.
  intros H. apply exec_inv in H.
  destruct H as (a & s' & m & tl & _ & Hr & <-).
  assert (Hin : In m (run Youtube.regex_id s'))
    by (rewrite Hr; left; reflexivity).
  unfold Youtube.regex_id in Hin. apply run_Seq_inv_full in Hin.
  destruct Hin as (m1 & m2 & _ & H2 & _ & Hf).
  apply run_Group_inv in H2. destruct H2 as (Hf2 & m3 & H3 & Hs3).
  apply run_Times_inv in H3. destruct H3 as (_ & t & Ht & Hlen & Hall).
  rewrite Hf2 in Hf. rewrite Hf. exists t. split; [|auto].
  rewrite <- Hs3, Ht. rewrite consumed_app. reflexivity.
Qed.

Lemma times_rest_whole k n s :
  times_rest n k s = Some [] <->
  List.length s = n /\ Forall (fun c => in_class k c = true) s.
Proof.
  split.
  - intros H. apply times_rest_sound in H.
    destruct H as (t & -> & Hlen & Hall). rewrite app_nil_r. auto.
  - intros [<- Hall]. pose proof (times_rest_app k s [] Hall) as H.
    rewrite app_nil_r in H. exact H.
Qed.

End RegexInversion.

(** X5: [isValidObjectId] accepts exactly the strings of 24 hexadecimal
    digits, and no value that is not a string. *)
Theorem isValidObjectId_spec (id : JS.value) :
  Sanitize.isValidObjectId id = true <->
  exists s, id = JS.VString s
            /\ String.length s = 24%nat
            /\ Forall (fun c => Regex.in_class RegexTest.hex_digit c = true)
                      (list_ascii_of_string s).
Proof.
  assert (Hw : forall l,
             RegexTest.test_whole RegexTest.object_id l = true <->
             Regex.times_rest 24 RegexTest.hex_digit l = Some []).
  { intros l. unfold RegexTest.test_whole, RegexTest.object_id.
    cbn [Regex.run].
    destruct (Regex.times_rest 24 RegexTest.hex_digit l) as [[|c r]|];
      cbn [existsb snd orb]; split; intros H;
      try discriminate H; reflexivity. }
  split.
  - destruct id as [|s|n]; try discriminate.
    destruct s as [|c u]; [discriminate|]. unfold Sanitize.isValidObjectId.
    intros H. apply Hw, times_rest_whole in H. destruct H as [Hlen Hall].
    exists (String c u). rewrite <- list_ascii_length. auto.
  - intros (s & -> & Hlen & Hall).
    destruct s as [|c u]; [discriminate Hlen|].
    unfold Sanitize.isValidObjectId. apply Hw, times_rest_whole.
    rewrite list_ascii_length. auto.
Qed.

Lemma isValidObjectId_spec_witness :
  Sanitize.isValidObjectId (JS.VString "64b0000000000000000000A1") = true
  /\ Sanitize.isValidObjectId (JS.VString "64b0000000000000000000a") = false
  /\ Sanitize.isValidObjectId (JS.VString "64b0000000000000000000g1")
     = false.
Proof.
  split; [|split; reflexivity].
  apply (proj2 (isValidObjectId_spec (JS.VString "64b0000000000000000000A1"))).
  exists "64b0000000000000000000A1".
  split; [reflexivity|]. split; [reflexivity|]. repeat constructor.
Defined.

(** ** Validation and extraction of links *)

Section LinkFacts.
Import Regex RegexTest.

Local Abbreviation chars := list_ascii_of_string.

Lemma url_prefix_parts p www :
  exists P W,
    In P [[]; chars "http://"; chars "https://"]
    /\ In W [[]; chars "www."]
    /\ chars (Spec.url_prefix p www) = (P ++ W)%list.
Proof.
  destruct p, www.
  - exists [], (chars "www."). simpl. auto.
  - exists [], []. simpl. auto.
  - exists (chars "http://"), (chars "www."). simpl. auto 6.
  - exists (chars "http://"), []. simpl. auto 6.
  - exists (chars "https://"), (chars "www."). simpl. auto 6.
  - exists (chars "https://"), []. simpl. auto 6.
Qed.

Lemma string_nonempty_chars s : chars s <> [] -> s <> EmptyString.
Proof. intros H ->. apply H. reflexivity. Qed.

Lemma token_of_chars t :
  List.length t = 11%nat ->
  Forall (fun c => in_class token_char c = true) t ->
  Spec.is_token (string_of_list_ascii t).
Proof.
  intros Hlen Hall. split.
  - rewrite string_length_of_list. exact Hlen.
  - rewrite list_ascii_of_string_of_list_ascii. exact Hall.
Qed.

(** [extractVideoId] on a link whose characters are known. *)
Lemma extractVideoId_of_exec url t :
  exec Youtube.regex_id (chars url) = Some (Some t) ->
  url <> EmptyString ->
  Youtube.extractVideoId url = Some (string_of_list_ascii t).
Proof.
  intros H Hne. unfold Youtube.extractVideoId, match1. rewrite H. simpl.
  destruct url; [contradiction | reflexivity].
Qed.

Lemma run_regex_id_first c s :
  run Youtube.regex_id (c :: s) <> [] -> c = "y"%char.
Proof.
  unfold Youtube.regex_id. cbn [run list_ascii_of_string strip_prefix].
  destruct (Ascii.eqb_spec "y" c) as [<-|Hc]; [reflexivity|].
  simpl. intros H. contradiction.
Qed.

Lemma exec_step r c s : run r (c :: s) = [] -> exec r (c :: s) = exec r s.
Proof. intros H. simpl. rewrite H. reflexivity. Qed.

(** Leading white space does not change what [extractVideoId] finds. *)
Lemma exec_regex_id_drop_ws s :
  exec Youtube.regex_id s = exec Youtube.regex_id (Text.drop_ws s).
Proof.
  induction s as [|c s IH]; [reflexivity|].
  cbn [Text.drop_ws]. destruct (JS.is_ws c) eqn:Hws; [|reflexivity].
  rewrite exec_step; [exact IH|].
  destruct (run Youtube.regex_id (c :: s)) as [|m tl] eqn:Hr; [reflexivity|].
  assert (Hy : c = "y"%char)
    by (apply (run_regex_id_first c s); rewrite Hr; discriminate).
  subst c. discriminate Hws.
Qed.

Lemma drop_ws_suffix s : exists a, s = (a ++ Text.drop_ws s)%list.
Proof.
  induction s as [|c s [a IH]]; [exists []; reflexivity|].
  cbn [Text.drop_ws]. destruct (JS.is_ws c).
  - exists (c :: a). simpl. f_equal. exact IH.
  - exists []. reflexivity.
Qed.

Lemma trim_chars_prefix s :
  exists b, Text.drop_ws s = (Text.trim_chars s ++ b)%list.
Proof.
  unfold Text.trim_chars.
  destruct (drop_ws_suffix (rev (Text.drop_ws s))) as [a Ha].
  exists (rev a). rewrite <- rev_app_distr, <- Ha, rev_involutive.
  reflexivity.
Qed.

End LinkFacts.

(** X6: a link that [isValidYouTubeUrl] accepts always has an identifier:
    [extractVideoId] returns eleven token characters for it.  This holds
    for the test of utils/youtube.js and for the test of
    utils/validators.js, which trims the link first. *)
Theorem valid_link_has_identifier (url : string) :
  YoutubeParse.isValidYouTubeUrl url = true
  \/ Sanitize.isValidYouTubeUrl (JS.VString url) = true ->
  exists id, Youtube.extractVideoId url = Some id /\ Spec.is_token id.
Proof.
  intros [H|H].
  - unfold YoutubeParse.isValidYouTubeUrl in H.
    destruct url as [|c u] eqn:Hu; [discriminate|]. rewrite <- Hu in *.
    apply test_start_valid_url_inv in H.
    destruct H as (p & w & marker & t & rest & Hp & Hw & Hm & Hlen & Hall
                   & Hs).
    exists (string_of_list_ascii t). split; [|apply token_of_chars; auto].
    apply extractVideoId_of_exec; [|rewrite Hu; discriminate].
    rewrite Hs. apply regex_id_hit_rest; auto.
  - unfold Sanitize.isValidYouTubeUrl in H.
    destruct url as [|c u] eqn:Hu; [discriminate|]. rewrite <- Hu in *.
    apply test_start_valid_url_inv in H.
    destruct H as (p & w & marker & t & rest & Hp & Hw & Hm & Hlen & Hall
                   & Hs).
    exists (string_of_list_ascii t). split; [|apply token_of_chars; auto].
    apply extractVideoId_of_exec; [|rewrite Hu; discriminate].
    rewrite exec_regex_id_drop_ws.
    destruct (trim_chars_prefix (list_ascii_of_string url)) as [b ->].
    rewrite Hs.
    replace ((p ++ w ++ list_ascii_of_string marker ++ t ++ rest) ++ b)%list
      with (p ++ w ++ list_ascii_of_string marker ++ t ++ (rest ++ b))%list
      by (rewrite <- !app_assoc; reflexivity).
    apply regex_id_hit_rest; auto.
Qed.

Lemma valid_link_has_identifier_witness :
  Sanitize.isValidYouTubeUrl
    (JS.VString "  youtu.be/dQw4w9WgXcQ?t=30 ") = true
  /\ exists id,
       Youtube.extractVideoId "  youtu.be/dQw4w9WgXcQ?t=30 " = Some id
       /\ Spec.is_token id.
Proof.
  assert (H : Sanitize.isValidYouTubeUrl
                (JS.VString "  youtu.be/dQw4w9WgXcQ?t=30 ") = true)
    by reflexivity.
  split; [exact H|].
  apply valid_link_has_identifier. right. exact H.
Defined.

Section ShapeFacts.
Import Regex RegexTest.

Local Abbreviation chars := list_ascii_of_string.

Lemma needs_valid_url :
  needs valid_url
        [chars "youtube.com/watch?v="; chars "youtu.be/";
         chars "youtube.com/embed/"].
Proof.
  unfold valid_url. apply needs_Seq_r, needs_Seq_r, needs_Seq_l.
  apply (needs_Alt _ _ [_] [_; _] (needs_Lit _)).
  apply (needs_Alt _ _ [_] [_] (needs_Lit _) (needs_Lit _)).
Qed.

(** A link of the legacy shape holds none of the three markers. *)
Lemma legacy_has_no_marker p www t w :
  In w [chars "youtube.com/watch?v="; chars "youtu.be/";
        chars "youtube.com/embed/"] ->
  Forall (fun c => in_class token_char c = true) t ->
  ~ infix w ((chars (Spec.url_prefix p www) ++ chars "youtube.com/v/") ++ t).
Proof.
  intros [<-|[<-|[<-|[]]]] Ht.
  - apply (not_infix_app (chars "youtube.com/watch") "?" (chars "v=")).
    + destruct p, www; reflexivity.
    + apply token_excludes; auto.
  - apply (not_infix_app (chars "youtu") "." (chars "be/")).
    + destruct p, www; reflexivity.
    + apply token_excludes; auto.
  - apply (not_infix_app (chars "youtube.com/embed") "/" []).
    + destruct p, www; reflexivity.
    + apply token_excludes; auto.
Qed.

Lemma test_start_of_run r s : test_start r s = true <-> run r s <> [].
Proof.
  unfold test_start. destruct (run r s); split; congruence.
Qed.

Lemma test_start_needs r ws s :
  needs r ws -> (forall w, In w ws -> ~ infix w s) ->
  test_start r s = false.
Proof.
  intros Hn Hs. unfold test_start.
  destruct (run r s) as [|m tl] eqn:Hr; [reflexivity|].
  destruct (Hn s m) as (w & Hw & Hi); [rewrite Hr; left; reflexivity|].
  exfalso. eapply Hs; eauto.
Qed.

Lemma shape_chars p www marker id :
  chars (Spec.url_prefix p www ++ marker ++ id)
  = (chars (Spec.url_prefix p www) ++ chars marker ++ chars id)%list.
Proof. rewrite !list_ascii_of_string_app. reflexivity. Qed.

Lemma isValidYouTubeUrl_shape p www marker id :
  In marker ["youtube.com/watch?v="; "youtu.be/"; "youtube.com/embed/"] ->
  Spec.is_token id ->
  YoutubeParse.isValidYouTubeUrl (Spec.url_prefix p www ++ marker ++ id)
  = true.
Proof.
  intros Hm Hid. destruct (is_token_chars id Hid) as (Ht & Hlen & _).
  unfold YoutubeParse.isValidYouTubeUrl.
  destruct (Spec.url_prefix p www ++ marker ++ id) eqn:Hu.
  - exfalso. revert Hu. apply append_nonempty, append_nonempty.
    apply is_token_nonempty, Hid.
  - rewrite <- Hu, shape_chars.
    destruct (url_prefix_parts p www) as (P & W & HP & HW & ->).
    rewrite <- app_assoc.
    rewrite <- (app_nil_r (chars id)).
    apply test_start_valid_url_hit; auto.
Qed.

End ShapeFacts.

(** X7: for every token of eleven characters, with or without protocol
    and [www.], [isValidYouTubeUrl] of utils/youtube.js accepts the
    watch-page, short-link and embed-page links and refuses the legacy
    direct-play link; the schema validator of a video entry decides the
    same way. *)
Theorem isValidYouTubeUrl_on_shapes (p : Spec.protocol) (www : bool)
        (id : string) (v : Video) :
  Spec.is_token id -> type v = "video" ->
  (YoutubeParse.isValidYouTubeUrl (Spec.watchForm p www id) = true
   /\ YoutubeParse.isValidYouTubeUrl (Spec.shortForm p www id) = true
   /\ YoutubeParse.isValidYouTubeUrl (Spec.embedForm p www id) = true
   /\ YoutubeParse.isValidYouTubeUrl (Spec.legacyForm p www id) = false)
  /\ (Schema.youtubeUrl_validator v (Spec.watchForm p www id) = true
      /\ Schema.youtubeUrl_validator v (Spec.shortForm p www id) = true
      /\ Schema.youtubeUrl_validator v (Spec.embedForm p www id) = true
      /\ Schema.youtubeUrl_validator v (Spec.legacyForm p www id) = false).
Proof.
  intros Hid Hv.
  assert (Hshape : forall marker,
             In marker ["youtube.com/watch?v="; "youtu.be/";
                        "youtube.com/embed/"] ->
             RegexTest.test_start RegexTest.valid_url
               (list_ascii_of_string (Spec.url_prefix p www ++ marker ++ id))
             = true).
  { intros marker Hm.
    pose proof (isValidYouTubeUrl_shape p www marker id Hm Hid) as H.
    unfold YoutubeParse.isValidYouTubeUrl in H.
    destruct (Spec.url_prefix p www ++ marker ++ id); [discriminate | exact H]. }
  assert (Hlegacy : RegexTest.test_start RegexTest.valid_url
                      (list_ascii_of_string (Spec.legacyForm p www id))
                    = false).
  { unfold Spec.legacyForm. rewrite shape_chars, app_assoc.
    apply (test_start_needs _ _ _ needs_valid_url).
    intros w Hw. apply legacy_has_no_marker; [exact Hw|].
    apply (is_token_chars id Hid). }
  split.
  - split; [apply isValidYouTubeUrl_shape; simpl; auto|].
    split; [apply isValidYouTubeUrl_shape; simpl; auto|].
    split; [apply isValidYouTubeUrl_shape; simpl; auto|].
    unfold YoutubeParse.isValidYouTubeUrl.
    destruct (Spec.legacyForm p www id); [reflexivity | exact Hlegacy].
  - unfold Schema.youtubeUrl_validator. rewrite Hv. simpl.
    split; [apply Hshape; simpl; auto|].
    split; [apply Hshape; simpl; auto|].
    split; [apply Hshape; simpl; auto | exact Hlegacy].
Qed.

Lemma isValidYouTubeUrl_on_shapes_witness :
  Spec.is_token "dQw4w9WgXcQ"
  /\ YoutubeParse.isValidYouTubeUrl
       (Spec.embedForm Spec.Http false "dQw4w9WgXcQ") = true
  /\ YoutubeParse.isValidYouTubeUrl
       (Spec.legacyForm Spec.Https true "dQw4w9WgXcQ") = false.
Proof.
  assert (H : Spec.is_token "dQw4w9WgXcQ")
    by (split; [reflexivity | repeat constructor]).
  split; [exact H|].
  pose (v := Mem.entry "64b0000000000000000000a1" "Density of solids"
                       "Physics" "1" "video" true 3 []).
  split.
  - exact (proj1 (proj2 (proj2 (proj1
             (isValidYouTubeUrl_on_shapes Spec.Http false "dQw4w9WgXcQ" v
                H eq_refl))))).
  - exact (proj2 (proj2 (proj2 (proj1
             (isValidYouTubeUrl_on_shapes Spec.Https true "dQw4w9WgXcQ" v
                H eq_refl))))).
Defined.

Section ParseFacts.
Import Regex RegexTest.

(** What [extractVideoId] returns is a token. *)
Lemma extractVideoId_token url id :
  Youtube.extractVideoId url = Some id -> Spec.is_token id.
Proof.
  unfold Youtube.extractVideoId, match1.
  destruct url as [|c u]; [discriminate|].
  destruct (exec Youtube.regex_id (list_ascii_of_string (String c u)))
    as [cap|] eqn:He; [|discriminate].
  apply exec_regex_id_token in He.
  destruct He as (t & -> & Hlen & Hall). simpl. intros [= <-].
  apply token_of_chars; assumption.
Qed.

Lemma extractVideoId_watchUrl id :
  Spec.is_token id ->
  Youtube.extractVideoId ("https://www.youtube.com/watch?v=" ++ id)
  = Some id.
Proof.
  intros Hid.
  apply (extractVideoId_hit Spec.Https true "youtube.com/watch?v=" id);
    [simpl; auto | exact Hid].
Qed.

Lemma extractVideoId_embedUrl id :
  Spec.is_token id ->
  Youtube.extractVideoId ("https://www.youtube.com/embed/" ++ id) = Some id.
Proof.
  intros Hid.
  apply (extractVideoId_hit Spec.Https true "youtube.com/embed/" id);
    [simpl; auto | exact Hid].
Qed.

End ParseFacts.

(** X8: [parseYouTubeUrl] is valid exactly when [extractVideoId] finds an
    identifier; the identifier of a valid result is a token of eleven
    characters, all three derived URLs are present, and parsing the
    derived watch URL or the derived embed URL gives the same result
    again. *)
Theorem parseYouTubeUrl_canonical (url : string) :
  let r := YoutubeParse.parseYouTubeUrl url in
  (YoutubeParse.isValid r = false ->
   Youtube.extractVideoId url = None
   /\ YoutubeParse.videoId r = None /\ YoutubeParse.thumbnailUrl r = None
   /\ YoutubeParse.embedUrl r = None /\ YoutubeParse.watchUrl r = None)
  /\ (YoutubeParse.isValid r = true ->
      exists id,
        Youtube.extractVideoId url = Some id
        /\ Spec.is_token id
        /\ YoutubeParse.videoId r = Some id
        /\ YoutubeParse.thumbnailUrl r
           = Some ("https://img.youtube.com/vi/" ++ id
                   ++ "/maxresdefault.jpg")
        /\ YoutubeParse.embedUrl r
           = Some ("https://www.youtube.com/embed/" ++ id)
        /\ YoutubeParse.watchUrl r
           = Some ("https://www.youtube.com/watch?v=" ++ id)
        /\ YoutubeParse.parseYouTubeUrl
             ("https://www.youtube.com/watch?v=" ++ id) = r
        /\ YoutubeParse.parseYouTubeUrl
             ("https://www.youtube.com/embed/" ++ id) = r).
Proof.
  unfold YoutubeParse.parseYouTubeUrl.
  destruct (Youtube.extractVideoId url) as [id|] eqn:He.
  - pose proof (extractVideoId_token url id He) as Hid.
    destruct id as [|c u] eqn:Hc;
      [exfalso; eapply is_token_nonempty; eauto|].
    rewrite <- Hc in *. cbn zeta. split.
    + subst id. simpl. discriminate.
    + intros _. exists id. split; [reflexivity|].
      split; [exact Hid|].
      rewrite (extractVideoId_watchUrl id Hid).
      rewrite (extractVideoId_embedUrl id Hid).
      subst id. repeat split.
  - split; [repeat split | simpl; discriminate].
Qed.

Lemma parseYouTubeUrl_canonical_witness :
  YoutubeParse.isValid
    (YoutubeParse.parseYouTubeUrl "see youtu.be/dQw4w9WgXcQ?t=30") = true
  /\ exists id,
       YoutubeParse.videoId
         (YoutubeParse.parseYouTubeUrl "see youtu.be/dQw4w9WgXcQ?t=30")
       = Some id
       /\ YoutubeParse.parseYouTubeUrl
            ("https://www.youtube.com/watch?v=" ++ id)
          = YoutubeParse.parseYouTubeUrl "see youtu.be/dQw4w9WgXcQ?t=30".
Proof.
  assert (H : YoutubeParse.isValid
                (YoutubeParse.parseYouTubeUrl
                   "see youtu.be/dQw4w9WgXcQ?t=30") = true)
    by reflexivity.
  split; [exact H|].
  destruct (proj2 (parseYouTubeUrl_canonical
                     "see youtu.be/dQw4w9WgXcQ?t=30") H)
    as (id & _ & _ & Hv & _ & _ & _ & Hw & _).
  exists id. split; [exact Hv | exact Hw].
Defined.

(** ** The pre-save hook *)

Section HookFacts.
Import Regex RegexTest.

Lemma test_start_valid_url_exec s :
  test_start valid_url s = true ->
  s <> []
  /\ exists t, exec Youtube.regex_id s = Some (Some t)
               /\ List.length t = 11%nat
               /\ Forall (fun c => in_class token_char c = true) t.
Proof.
  intros H. apply test_start_valid_url_inv in H.
  destruct H as (p & w & marker & t & rest & Hp & Hw & Hm & Hlen & Hall
                 & ->).
  split.
  - destruct t as [|c t]; [discriminate Hlen|].
    intros H. apply app_eq_nil in H. destruct H as [_ H].
    apply app_eq_nil in H. destruct H as [_ H].
    apply app_eq_nil in H. destruct H as [_ H]. discriminate H.
  - exists t. split; [apply regex_id_hit_rest; auto | auto].
Qed.

End HookFacts.

Lemma pre_save_cases (v : Video) :
  pre_save v = v
  \/ exists url id,
       youtubeUrl v = Some url
       /\ JS.truthy (Some url) && String.eqb (type v) "video" = true
       /\ Regex.match1 url Youtube.regex_id = Some (Some id)
       /\ pre_save v
          = set_youtube id ("https://img.youtube.com/vi/" ++ id
                            ++ "/maxresdefault.jpg") v.
Proof.
  unfold pre_save.
  destruct (youtubeUrl v) as [url|] eqn:Hu; [|auto].
  destruct (JS.truthy (Some url) && String.eqb (type v) "video") eqn:Hc;
    [|auto].
  destruct (Regex.match1 url Youtube.regex_id) as [[id|]|] eqn:Hm; auto.
  right. exists url, id. auto.
Qed.

(** X9: the pre-save hook is idempotent, and it changes nothing but the
    identifier and the thumbnail of an entry; an entry that is not of type
    video, or has no link, is left as it is. *)
Theorem pre_save_idempotent (v : Video) :
  pre_save (pre_save v) = pre_save v
  /\ (_id (pre_save v) = _id v /\ title (pre_save v) = title v
      /\ description (pre_save v) = description v
      /\ bookTitle (pre_save v) = bookTitle v
      /\ chapter (pre_save v) = chapter v /\ type (pre_save v) = type v
      /\ youtubeUrl (pre_save v) = youtubeUrl v
      /\ views (pre_save v) = views v /\ likes (pre_save v) = likes v
      /\ isActive (pre_save v) = isActive v /\ tags (pre_save v) = tags v)
  /\ (type v <> "video" \/ youtubeUrl v = None -> pre_save v = v).
Proof.
  destruct (pre_save_cases v) as [Hsame|(url & id & Hu & Hc & Hm & Hset)].
  - rewrite !Hsame. repeat split.
  - split.
    { rewrite Hset. unfold pre_save at 1. cbn [youtubeUrl type set_youtube].
      rewrite Hu, Hc, Hm. reflexivity. }
    split; [rewrite Hset; repeat split|].
    intros [Hv|Hn]; [|congruence].
    apply andb_true_iff in Hc. destruct Hc as [_ Hc].
    apply String.eqb_eq in Hc. contradiction.
Qed.

Lemma pre_save_idempotent_witness :
  pre_save (Mem.entry "64b0000000000000000000a6" "Density table" "Physics"
                      "1" "image" false 7 ["density"])
  = Mem.entry "64b0000000000000000000a6" "Density table" "Physics"
              "1" "image" false 7 ["density"].
Proof.
  apply (proj2 (proj2 (pre_save_idempotent
                         (Mem.entry "64b0000000000000000000a6"
                                    "Density table" "Physics" "1" "image"
                                    false 7 ["density"])))).
  left. discriminate.
Defined.

(** X10: for a video entry whose link passes the validator of the schema,
    the pre-save hook sets the identifier to the eleven token characters
    that [extractVideoId] finds in the link, the thumbnail to the
    default-quality thumbnail of that identifier, and the virtual embed
    URL of the saved entry is the embed URL without options. *)
Theorem pre_save_derives (v : Video) (url : string) :
  type v = "video" -> youtubeUrl v = Some url ->
  Schema.youtubeUrl_validator v url = true ->
  exists id,
    Spec.is_token id
    /\ Youtube.extractVideoId url = Some id
    /\ youtubeVideoId (pre_save v) = Some id
    /\ thumbnailUrl (pre_save v) = Youtube.getThumbnailUrl id None
    /\ Schema.youtubeEmbedUrl (pre_save v)
       = Youtube.getEmbedUrl id Youtube.no_options.
Proof.
  intros Hty Hu Hval. unfold Schema.youtubeUrl_validator in Hval.
  rewrite Hty in Hval. simpl in Hval.
  apply test_start_valid_url_exec in Hval.
  destruct Hval as (Hne & t & He & Hlen & Hall).
  pose proof (token_of_chars t Hlen Hall) as Hid.
  exists (string_of_list_ascii t). split; [exact Hid|].
  assert (Hu' : url <> EmptyString) by (apply string_nonempty_chars, Hne).
  split; [apply extractVideoId_of_exec; assumption|].
  unfold pre_save. rewrite Hu, Hty.
  destruct url as [|c u]; [contradiction|].
  cbn [JS.truthy andb]. rewrite String.eqb_refl.
  unfold Regex.match1. rewrite He. cbn [option_map].
  pose proof (is_token_nonempty _ Hid) as Hn.
  destruct (string_of_list_ascii t) as [|c' u'] eqn:Hs; [contradiction|].
  repeat split.
Qed.

Lemma pre_save_derives_witness :
  let v := {| _id := "64b0000000000000000000b1"; title := "Density";
              description := "A worked solution"; bookTitle := "Physics";
              chapter := "1"; type := "video";
              youtubeUrl := Some "https://youtu.be/dQw4w9WgXcQ?t=30";
              youtubeVideoId := None; thumbnailUrl := None;
              fileUrl := None; fileName := None; fileSize := None;
              duration := None; views := 0; likes := 0; isActive := true;
              tags := []; difficulty := "medium"; subject := None;
              grade := None; uploadedBy := "Admin" |} in
  Schema.youtubeUrl_validator v "https://youtu.be/dQw4w9WgXcQ?t=30" = true
  /\ exists id, Spec.is_token id
                /\ youtubeVideoId (pre_save v) = Some id.
Proof.
  intros v.
  assert (H : Schema.youtubeUrl_validator
                v "https://youtu.be/dQw4w9WgXcQ?t=30" = true)
    by reflexivity.
  split; [exact H|].
  destruct (pre_save_derives v "https://youtu.be/dQw4w9WgXcQ?t=30"
              eq_refl eq_refl H) as (id & Hid & _ & Hv & _).
  exists id. split; [exact Hid | exact Hv].
Defined.

(** ** Round trips through the derived URLs *)

Section RoundTripFacts.
Import Regex RegexTest.

Local Abbreviation chars := list_ascii_of_string.

Lemma agree_of_prefix : forall p w b t,
  (w ++ b)%list = (p ++ t)%list -> agree p w = true.
Proof.
  induction p as [|a p IH]; intros w b t H; [reflexivity|].
  destruct w as [|x w]; [reflexivity|].
  simpl in H. injection H as -> H. simpl.
  rewrite Ascii.eqb_refl. simpl. eapply IH, H.
Qed.

(** An occurrence of [w] in [pre ++ t] starts in [pre], or lies in [t]. *)
Lemma infix_overlap w : forall pre t,
  infix w (pre ++ t) -> overlapb w pre = true \/ infix w t.
Proof.
  induction pre as [|c pre IH]; intros t H; [right; exact H|].
  destruct H as (a & b & Heq). destruct a as [|x a].
  - left. simpl. apply orb_true_iff. left.
    eapply (agree_of_prefix (c :: pre) w b t). simpl in Heq.
    symmetry. exact Heq.
  - simpl in Heq. injection Heq as _ Heq.
    destruct (IH t) as [Ho|Hi]; [exists a, b; exact Heq | | right; exact Hi].
    left. simpl. rewrite Ho. apply orb_true_r.
Qed.

Lemma not_infix_overlap w x pre t :
  In x w -> ~ In x t -> overlapb w pre = false -> ~ infix w (pre ++ t).
Proof.
  intros Hx Ht Ho Hi. apply infix_overlap in Hi.
  destruct Hi as [Hi|(a & b & ->)]; [congruence|].
  apply Ht. apply in_or_app. right. apply in_or_app. left. exact Hx.
Qed.

Lemma star_rests_stop k t rest :
  Forall (fun c => in_class k c = true) t ->
  (rest = [] \/ exists c r, rest = c :: r /\ in_class k c = false) ->
  exists tl, star_rests k (t ++ rest) = rest :: tl.
Proof.
  intros Ht Hrest. induction Ht as [|c t Hc _ IH]; simpl.
  - destruct Hrest as [->|(c & r & -> & Hc)]; simpl.
    + exists []. reflexivity.
    + rewrite Hc. exists []. reflexivity.
  - rewrite Hc. destruct IH as [tl ->].
    exists (tl ++ [c :: t ++ rest])%list. reflexivity.
Qed.

Lemma plus_rests_stop k t rest :
  Forall (fun c => in_class k c = true) t -> t <> [] ->
  (rest = [] \/ exists c r, rest = c :: r /\ in_class k c = false) ->
  exists tl, plus_rests k (t ++ rest) = rest :: tl.
Proof.
  intros Ht Hne Hrest. destruct Ht as [|c t Hc Ht]; [contradiction|].
  simpl. rewrite Hc. apply star_rests_stop; assumption.
Qed.

Lemma concat_chars sep c : forall l,
  In c (chars (String.concat sep l)) ->
  In c (chars sep) \/ exists x, In x l /\ In c (chars x).
Proof.
  induction l as [|x l IH]; simpl; [contradiction|].
  destruct l as [|y l].
  - intros H. right. exists x. auto.
  - rewrite !list_ascii_of_string_app, !in_app_iff.
    intros [H|[H|H]].
    + right. exists x. auto.
    + left. exact H.
    + destruct (IH H) as [Hs|(z & Hz & Hc)]; [left; exact Hs|].
      right. exists z. split; [right; exact Hz | exact Hc].
Qed.

(** No [/] in the query string of an embed URL. *)
Lemma query_string_no_slash o :
  ~ In "/"%char (chars (Youtube.query_string (Youtube.embed_params o))).
Proof.
  unfold Youtube.query_string. intros H. apply concat_chars in H.
  destruct H as [H|(x & Hx & Hc)].
  - simpl in H. destruct H as [H|[]]. discriminate H.
  - apply in_map_iff in Hx. destruct Hx as ([k v] & <- & _).
    cbn [fst snd] in Hc.
    rewrite !list_ascii_of_string_app, !in_app_iff in Hc.
    destruct Hc as [Hc|[Hc|Hc]].
    + exact (form_encode_no_slash k Hc).
    + simpl in Hc. destruct Hc as [Hc|[]]. discriminate Hc.
    + exact (form_encode_no_slash v Hc).
Qed.

Ltac run_plus H :=
  cbn [list_ascii_of_string app];
  cbn -[plus_rests times_rest consumed];
  rewrite H; cbn -[consumed]; rewrite consumed_app; reflexivity.

(** The embed pattern of the controller finds the token in front of a
    query string. *)
Lemma pattern_embed_hit_rest t rest :
  Forall (fun c => in_class token_char c = true) t -> t <> [] ->
  (rest = [] \/ exists r, rest = "?"%char :: r) ->
  exec (Extract.pattern_of "youtube.com/embed/")
       (chars "https://www.youtube.com/embed/" ++ t ++ rest)
  = Some (Some t).
Proof.
  intros Ht Hne Hrest.
  destruct (plus_rests_stop not_separator t rest
              (token_not_separator _ Ht) Hne) as [tl Htl].
  { destruct Hrest as [->|(r & ->)]; [left; reflexivity|].
    right. exists "?"%char, r. split; reflexivity. }
  unfold Extract.pattern_of, opt_protocol, opt_www. run_plus Htl.
Qed.

Lemma pattern_of_none_overlap marker x pre t :
  In x (chars marker) -> ~ In x t ->
  overlapb (chars marker) pre = false ->
  exec (Extract.pattern_of marker) (pre ++ t) = None.
Proof.
  intros Hx Ht Ho. apply (exec_none _ _ (needs_pattern_of marker)).
  intros w [<-|[]]. eapply not_infix_overlap; eauto.
Qed.

End RoundTripFacts.

(** X11: the identifier survives the derived URLs.  For every token of
    eleven characters and every option set, both [extractVideoId] and the
    extractor of the controller find exactly the identifier in the watch
    URL and in the embed URL built from it, whatever query parameters the
    embed URL carries. *)
Theorem identifier_round_trip (id : string) (o : Youtube.EmbedOptions) :
  Spec.is_token id ->
  (exists u, Youtube.getWatchUrl id = Some u
             /\ Youtube.extractVideoId u = Some id
             /\ Extract.extractYoutubeVideoId u = Some id)
  /\ (exists e, Youtube.getEmbedUrl id o = Some e
                /\ Youtube.extractVideoId e = Some id
                /\ Extract.extractYoutubeVideoId e = Some id).
Proof.
  intros Hid. pose proof (is_token_nonempty id Hid) as Hne.
  destruct (is_token_chars id Hid) as (Ht & Hlen & Hne' & _).
  split.
  - exists ("https://www.youtube.com/watch?v=" ++ id).
    split; [destruct id; [contradiction | reflexivity]|].
    split; [apply extractVideoId_watchUrl, Hid|].
    apply (extractYoutubeVideoId_watch Spec.Https true id Hid).
  - rewrite (getEmbedUrl_shape id o Hne).
    match goal with
    | |- context [(id ++ ?m)%string] => set (tail := m)
    end.
    eexists. split; [reflexivity|].
    assert (Htail : list_ascii_of_string tail = []
                    \/ exists r, list_ascii_of_string tail = "?"%char :: r).
    { unfold tail. destruct (Youtube.embed_params o); simpl; eauto. }
    assert (Hslash : ~ In "/"%char
                       (list_ascii_of_string id ++ list_ascii_of_string tail)).
    { intros H. apply in_app_or in H. destruct H as [H|H].
      - revert H. apply token_excludes; auto.
      - unfold tail in H. destruct (Youtube.embed_params o) eqn:Hp;
          [contradiction|].
        change (list_ascii_of_string
                  ("?" ++ Youtube.query_string (p :: l)))
          with ("?"%char :: list_ascii_of_string
                              (Youtube.query_string (p :: l))) in H.
        destruct H as [H|H]; [discriminate H|].
        rewrite <- Hp in H. revert H. apply query_string_no_slash. }
    assert (Hchars : list_ascii_of_string
                       ("https://www.youtube.com/embed/" ++ id ++ tail)
                     = (list_ascii_of_string "https://www.youtube.com/embed/"
                        ++ list_ascii_of_string id
                        ++ list_ascii_of_string tail)%list)
      by (rewrite !list_ascii_of_string_app; reflexivity).
    split.
    + pose proof (extractVideoId_of_exec
                    ("https://www.youtube.com/embed/" ++ id ++ tail)
                    (list_ascii_of_string id)) as Hx.
      rewrite string_of_list_ascii_of_string in Hx.
      apply Hx; [|discriminate].
      rewrite Hchars.
      apply (regex_id_hit_rest (list_ascii_of_string "https://")
               (list_ascii_of_string "www.") "youtube.com/embed/");
        simpl; auto.
    + unfold Extract.extractYoutubeVideoId, Extract.patterns.
      rewrite first_match_miss.
      2:{ unfold Regex.match1. rewrite Hchars.
          rewrite (pattern_of_none_overlap "youtube.com/watch?v=" "/"%char);
            [reflexivity | simpl; auto 20 | exact Hslash | reflexivity]. }
      rewrite first_match_miss.
      2:{ unfold Regex.match1. rewrite Hchars.
          rewrite (pattern_of_none_overlap "youtu.be/" "/"%char);
            [reflexivity | simpl; auto 20 | exact Hslash | reflexivity]. }
      apply first_match_hit; [exact Hne|].
      unfold Regex.match1. rewrite Hchars.
      rewrite pattern_embed_hit_rest; auto.
      simpl. rewrite string_of_list_ascii_of_string. reflexivity.
Qed.

Lemma identifier_round_trip_witness :
  Spec.is_token "dQw4w9WgXcQ"
  /\ Extract.extractYoutubeVideoId
       "https://www.youtube.com/embed/dQw4w9WgXcQ?autoplay=1&start=30"
     = Some "dQw4w9WgXcQ".
Proof.
  assert (H : Spec.is_token "dQw4w9WgXcQ")
    by (split; [reflexivity | repeat constructor]).
  split; [exact H|].
  destruct (proj2 (identifier_round_trip "dQw4w9WgXcQ"
                     {| Youtube.autoplay := Some true; Youtube.mute := None;
                        Youtube.controls := None; Youtube.showinfo := None;
                        Youtube.rel := None;
                        Youtube.start := Some (Youtube.seconds 30);
                        Youtube.end_ := None |} H))
    as (e & He & _ & Hx).
  vm_compute in He. injection He as <-. exact Hx.
Defined.

(** ** The gallery script *)

Section GalleryFacts.
Import Regex RegexTest.

Local Abbreviation chars := list_ascii_of_string.

Lemma word_or_dash_token c :
  in_class word_or_dash c = in_class token_char c.
Proof. destruct c as [[] [] [] [] [] [] [] []]; reflexivity. Qed.

Lemma needs_regex_gallery :
  needs Frontend.regex_gallery
        [chars "youtube.com/watch?v="; chars "youtu.be/"].
Proof.
  unfold Frontend.regex_gallery.
  apply needs_Seq_r, needs_Seq_r, needs_Seq_l.
  apply (needs_Alt _ _ [_] [_] (needs_Lit _) (needs_Lit _)).
Qed.

Lemma regex_gallery_hit p www marker t :
  In marker ["youtube.com/watch?v="; "youtu.be/"] ->
  Forall (fun c => in_class token_char c = true) t ->
  List.length t = 11%nat ->
  exec Frontend.regex_gallery
       (chars (Spec.url_prefix p www) ++ chars marker ++ t)
  = Some (Some t).
Proof.
  intros Hm Ht Hlen.
  assert (Ht' : Forall (fun c => in_class word_or_dash c = true) t).
  { eapply Forall_impl; [|exact Ht].
    intros c Hc. rewrite word_or_dash_token. exact Hc. }
  pose proof (times_rest_all _ _ Ht' []) as Hr.
  rewrite Hlen, app_nil_r in Hr.
  unfold Frontend.regex_gallery, opt_protocol, opt_www.
  destruct Hm as [<-|[<-|[]]]; destruct p, www;
    cbn [list_ascii_of_string app Spec.url_prefix append];
    cbn -[plus_rests times_rest consumed];
    rewrite Hr; cbn -[consumed]; rewrite consumed_all; reflexivity.
Qed.

Lemma regex_gallery_miss p www marker t :
  In marker ["youtube.com/embed/"; "youtube.com/v/"] ->
  Forall (fun c => in_class token_char c = true) t ->
  exec Frontend.regex_gallery
       (chars (Spec.url_prefix p www) ++ chars marker ++ t)
  = None.
Proof.
  intros Hm Ht. rewrite app_assoc.
  apply (exec_none _ _ needs_regex_gallery).
  intros w [<-|[<-|[]]].
  - apply (not_infix_app (chars "youtube.com/watch") "?" (chars "v=")).
    + destruct Hm as [<-|[<-|[]]]; destruct p, www; reflexivity.
    + apply token_excludes; auto.
  - apply (not_infix_app (chars "youtu") "." (chars "be/")).
    + destruct Hm as [<-|[<-|[]]]; destruct p, www; reflexivity.
    + apply token_excludes; auto.
Qed.

Lemma entity_chars c e x :
  Frontend.entity c = Some e -> In x (chars e) ->
  x <> "<"%char /\ x <> ">"%char /\ x <> "034"%char /\ x <> "'"%char.
Proof.
  unfold Frontend.entity.
  repeat match goal with
         | |- context [Ascii.eqb c ?k] => destruct (Ascii.eqb c k)
         end;
    intros [= <-] Hx; simpl in Hx;
    repeat (destruct Hx as [<-|Hx]; [repeat split; discriminate|]);
    contradiction.
Qed.

Lemma entity_none c :
  Frontend.entity c = None <-> in_class markup_char c = false.
Proof.
  destruct c as [[] [] [] [] [] [] [] []]; vm_compute; split; congruence.
Qed.

End GalleryFacts.

(** X12: the extractor of the gallery script knows two shapes only.  For
    every token of eleven characters, with or without protocol and
    [www.], it returns the token on a watch-page or short-link URL, and
    null on an embed-page or legacy direct-play URL. *)
Theorem extractYoutubeID_on_shapes (p : Spec.protocol) (www : bool)
        (id : string) :
  Spec.is_token id ->
  Frontend.extractYoutubeID (Spec.watchForm p www id) = Some id
  /\ Frontend.extractYoutubeID (Spec.shortForm p www id) = Some id
  /\ Frontend.extractYoutubeID (Spec.embedForm p www id) = None
  /\ Frontend.extractYoutubeID (Spec.legacyForm p www id) = None.
Proof.
  intros Hid. destruct (is_token_chars id Hid) as (Ht & Hlen & _).
  assert (Hhit : forall marker,
             In marker ["youtube.com/watch?v="; "youtu.be/"] ->
             Frontend.extractYoutubeID (Spec.url_prefix p www ++ marker ++ id)
             = Some id).
  { intros marker Hm. unfold Frontend.extractYoutubeID, Regex.match1.
    rewrite shape_chars, (regex_gallery_hit p www marker _ Hm Ht Hlen).
    simpl. rewrite string_of_list_ascii_of_string. reflexivity. }
  assert (Hmiss : forall marker,
             In marker ["youtube.com/embed/"; "youtube.com/v/"] ->
             Frontend.extractYoutubeID (Spec.url_prefix p www ++ marker ++ id)
             = None).
  { intros marker Hm. unfold Frontend.extractYoutubeID, Regex.match1.
    rewrite shape_chars, (regex_gallery_miss p www marker _ Hm Ht).
    reflexivity. }
  split; [apply Hhit; simpl; auto|].
  split; [apply Hhit; simpl; auto|].
  split; apply Hmiss; simpl; auto.
Qed.

Lemma extractYoutubeID_on_shapes_witness :
  Spec.is_token "dQw4w9WgXcQ"
  /\ Frontend.extractYoutubeID
       (Spec.shortForm Spec.Https false "dQw4w9WgXcQ") = Some "dQw4w9WgXcQ"
  /\ Frontend.extractYoutubeID
       (Spec.embedForm Spec.Https true "dQw4w9WgXcQ") = None.
Proof.
  assert (H : Spec.is_token "dQw4w9WgXcQ")
    by (split; [reflexivity | repeat constructor]).
  split; [exact H|].
  split.
  - exact (proj1 (proj2 (extractYoutubeID_on_shapes Spec.Https false
                           "dQw4w9WgXcQ" H))).
  - exact (proj1 (proj2 (proj2 (extractYoutubeID_on_shapes Spec.Https true
                                  "dQw4w9WgXcQ" H)))).
Defined.

(** X13: the text that [escapeHtml] returns holds no [<], no [>], no
    double quote and no single quote; a text without markup characters is
    returned as it is; and the result is never shorter than the text. *)
Theorem escapeHtml_safe (text : string) :
  (forall c, In c (list_ascii_of_string (Frontend.escapeHtml text)) ->
             c <> "<"%char /\ c <> ">"%char /\ c <> "034"%char
             /\ c <> "'"%char)
  /\ (Forall (fun c => Regex.in_class RegexTest.markup_char c = false)
             (list_ascii_of_string text) ->
      Frontend.escapeHtml text = text)
  /\ (String.length text <= String.length (Frontend.escapeHtml text))%nat.
Proof.
  induction text as [|a text (IH1 & IH2 & IH3)].
  - split; [intros c []|]. split; [reflexivity | simpl; lia].
  - cbn [Frontend.escapeHtml].
    destruct (Frontend.entity a) as [e|] eqn:He.
    + split.
      { intros c Hc. rewrite list_ascii_of_string_app in Hc.
        apply in_app_or in Hc. destruct Hc as [Hc|Hc]; [|apply IH1, Hc].
        eapply entity_chars; eauto. }
      split.
      { intros H. inversion H as [|? ? Ha _]; subst.
        apply entity_none in Ha. congruence. }
      assert (Hlen : (1 <= String.length e)%nat).
      { unfold Frontend.entity in He.
        repeat match type of He with
               | context [Ascii.eqb a ?k] => destruct (Ascii.eqb a k)
               end; try discriminate He;
          injection He as <-; simpl; lia. }
      assert (Happ : forall x y, String.length (x ++ y)
                                 = (String.length x + String.length y)%nat).
      { intros x y. induction x as [|c x IHx]; simpl; [reflexivity|].
        rewrite IHx. reflexivity. }
      rewrite Happ. simpl. lia.
    + split.
      { intros c [<-|Hc]; [|apply IH1, Hc].
        apply entity_none in He. revert He. clear.
        destruct a as [[] [] [] [] [] [] [] []]; vm_compute; intros H;
          try discriminate H; repeat split; discriminate. }
      split.
      { intros H. inversion H as [|? ? _ Hrest]; subst.
        simpl. f_equal. apply IH2, Hrest. }
      simpl. lia.
Qed.

Lemma escapeHtml_safe_witness :
  Frontend.escapeHtml "Boyle's law" = "Boyle&#039;s law"
  /\ Frontend.escapeHtml "Density of solids" = "Density of solids".
Proof.
  split; [reflexivity|].
  apply (proj1 (proj2 (escapeHtml_safe "Density of solids"))).
  repeat constructor.
Defined.

(** ** Reading and deleting one entry *)

Section EntryFacts.
Context {E : Engine}.




Lemma update_by_id_ids db id f :
  (forall x, _id x = id -> _id (f x) = id) ->
  map _id (update_by_id db id f) = map _id db.
Proof.
  intros Hf. induction db as [|x db IH]; simpl; [reflexivity|].
  destruct (String.eqb_spec (_id x) id) as [Hx|Hx]; simpl.
  - rewrite (Hf x Hx), Hx. reflexivity.
  - f_equal. exact IH.
Qed.



Lemma update_by_id_absent db id f :
  first_by_id db id = None -> update_by_id db id f = db.
Proof.
  induction db as [|x db IH]; simpl; [reflexivity|].
  destruct (String.eqb (_id x) id); [discriminate|].
  intros H. f_equal. apply IH, H.
Qed.

Lemma first_by_id_unique db id v :
  NoDup (map _id db) -> In v db -> _id v = id ->
  first_by_id db id = Some v.
Proof.
  induction db as [|x db IH]; simpl; [contradiction|].
  intros Hnd [->|Hin] Hid.
  - rewrite Hid, String.eqb_refl. reflexivity.
  - inversion Hnd as [|? ? Hx Hnd']; subst.
    destruct (String.eqb_spec (_id x) (_id v)) as [Heq|_].
    + exfalso. apply Hx. rewrite Heq. apply in_map, Hin.
    + apply IH; auto.
Qed.

End EntryFacts.







(** X17: after a delete of an existing entry, a single-item read of the
    same id is answered with 404 and counts no view. *)
Theorem delete_then_get {E : Engine} (db : collection) (id : string)
        (v : Video) :
  findById db id = inr (Some v) ->
  getVideoById (snd (deleteVideo db id)) id
  = (failure 404 "Video not found", snd (deleteVideo db id)).
Proof.
  unfold findById, deleteVideo, findByIdAndUpdate, getVideoById, findById.
  destruct (castObjectId id) eqn:Hc; [|discriminate].
  intros [= Hv]. rewrite Hv. cbn [option_map snd]. 
  assert (Hid : _id (set_isActive false v) = id)
    by (simpl; eapply first_by_id_id, Hv).
  rewrite (first_by_id_update_same db id (set_isActive false) v Hv Hid).
  reflexivity.
Qed.

Lemma delete_then_get_witness :
  findById (E:=Mem.engine) Mem.catalog "64b0000000000000000000a2"
  = inr (first_by_id Mem.catalog "64b0000000000000000000a2")
  /\ status (fst (getVideoById (E:=Mem.engine)
                    (snd (deleteVideo (E:=Mem.engine) Mem.catalog
                                      "64b0000000000000000000a2"))
                    "64b0000000000000000000a2")) = 404.
Proof.
  split; [reflexivity|].
  rewrite (delete_then_get (E:=Mem.engine) Mem.catalog
             "64b0000000000000000000a2" _ eq_refl).
  reflexivity.
Defined.

(** X18: after a delete of an existing entry, no page of the list
    operation holds an entry with the deleted id, provided that the ids of
    the collection are unique. *)
Theorem deleted_not_listed {E : Engine} (L : EngineLaws E)
        (db : collection) (id : string) (v : Video) (req : Request)
        (data : list Video) (p : PageInfo) (f : Filters) :
  NoDup (map _id db) ->
  findById db id = inr (Some v) ->
  body (getAllVideos (snd (deleteVideo db id)) req) = Listing data p f ->
  forall x, In x data -> _id x <> id.
Proof.
  intros Hnd Hfind Hlist x Hx Hid.
  apply getAllVideos_listing in Hlist.
  destruct Hlist as (filter & Hq & Hc & _).
  apply cursor_incl in Hc. apply Hc in Hx.
  destruct (select_members _ _ _ (build_query_active _ _ Hq) Hx)
    as [Hin Hact].
  revert Hin. unfold findById in Hfind.
  unfold deleteVideo, findByIdAndUpdate.
  destruct (castObjectId id); [|discriminate].
  injection Hfind as Hv. rewrite Hv. cbn [option_map snd]. intros Hin.
  assert (Hid' : _id (set_isActive false v) = id)
    by (simpl; eapply first_by_id_id, Hv).
  pose proof (first_by_id_update_same db id (set_isActive false) v Hv Hid')
    as Hsame.
  assert (Hnd' : NoDup (map _id (update_by_id db id (set_isActive false)))).
  { rewrite update_by_id_ids; [exact Hnd | intros y Hy; exact Hy]. }
  rewrite (first_by_id_unique _ id x Hnd' Hin Hid) in Hsame.
  injection Hsame as ->. discriminate Hact.
Qed.

Lemma deleted_not_listed_witness :
  NoDup (map _id Mem.catalog)
  /\ exists data p f,
       body (getAllVideos (E:=Mem.engine)
               (snd (deleteVideo (E:=Mem.engine) Mem.catalog
                                 "64b0000000000000000000a2"))
               (run_rules queryValidationRules Mem.density_query))
       = Listing data p f
       /\ forall x, In x data -> _id x <> "64b0000000000000000000a2".
Proof.
  assert (Hnd : NoDup (map _id Mem.catalog)).
  { simpl. repeat constructor; simpl; intuition discriminate. }
  split; [exact Hnd|].
  eexists; eexists; eexists. split; [vm_compute; reflexivity|].
  eapply (deleted_not_listed mem_engine_laws Mem.catalog
            "64b0000000000000000000a2" _
            (run_rules queryValidationRules Mem.density_query));
    [exact Hnd | reflexivity | vm_compute; reflexivity].
Defined.

(** ** What a page of the list operation holds *)

Section FilterFacts.
Context {E : Engine}.

Lemma equal_key_sound p x v s :
  forallb (fun c => holds c v) (equal_key p x) = true ->
  x = Some s -> s <> EmptyString -> read p v = Some (cast p s).
Proof.
  intros H -> Hs. unfold equal_key in H.
  destruct s as [|c u]; [contradiction|].
  cbn [JS.truthy forallb holds cond_holds] in H.
  destruct (read p v) as [y|]; [|discriminate].
  rewrite andb_true_r in H. apply String.eqb_eq in H. congruence.
Qed.

Lemma regex_key_sound p x ks v s :
  regex_key p x = Some ks ->
  forallb (fun c => holds c v) ks = true ->
  x = Some s -> s <> EmptyString ->
  exists t y, RegExp_i s = Some t /\ read p v = Some y /\ t y = true.
Proof.
  intros Hk H -> Hs. unfold regex_key in Hk.
  destruct s as [|c u]; [contradiction|]. cbn [JS.truthy] in Hk.
  destruct (RegExp_i (String c u)) as [t|]; [|discriminate].
  injection Hk as <-. simpl in H.
  destruct (read p v) as [y|]; [|discriminate].
  rewrite andb_true_r in H. eauto.
Qed.

Lemma search_key_sound x ks v s :
  search_key x = Some ks ->
  forallb (fun c => holds c v) ks = true ->
  x = Some s -> s <> EmptyString ->
  exists t, RegExp_i s = Some t /\ Words.search_hit t v = true.
Proof.
  intros Hk H -> Hs. unfold search_key in Hk.
  destruct s as [|c u]; [contradiction|]. cbn [JS.truthy] in Hk.
  destruct (RegExp_i (String c u)) as [t|]; [|discriminate].
  injection Hk as <-. exists t. split; [reflexivity|].
  simpl in H. rewrite andb_true_r, orb_false_r in H.
  unfold Words.search_hit. rewrite <- H.
  rewrite <- !orb_assoc. reflexivity.
Qed.

Lemma regex_key_blank p x :
  regex_key p (Words.blank_as_absent x) = regex_key p x.
Proof. destruct x as [[|c u]|]; reflexivity. Qed.

Lemma equal_key_blank p x :
  equal_key p (Words.blank_as_absent x) = equal_key p x.
Proof. destruct x as [[|c u]|]; reflexivity. Qed.

Lemma search_key_blank x :
  search_key (Words.blank_as_absent x) = search_key x.
Proof. destruct x as [[|c u]|]; reflexivity. Qed.

Lemma build_query_without_empty q :
  build_query (Words.without_empty q) = build_query q.
Proof.
  unfold build_query, Words.without_empty; simpl.
  rewrite !regex_key_blank, !equal_key_blank, search_key_blank.
  reflexivity.
Qed.

Lemma select_active_only db :
  select db [Key (IsActive true)] = filter isActive db.
Proof.
  unfold select. apply filter_ext. intros v. simpl.
  destruct (isActive v); reflexivity.
Qed.

End FilterFacts.

(** X19: every entry on a page of the list operation is active and
    satisfies every filter of the request that is not empty: its [type]
    and [difficulty] are the parameters, its [grade] is the parameter
    trimmed (as the schema declares the path), its [bookTitle], [chapter]
    and [subject] pass the test of their regular expression, and the
    test of [search] holds on the title, the description, the book
    title, the chapter or a tag. *)
Theorem listing_satisfies_filters {E : Engine} (L : EngineLaws E)
        (db : collection) (req : Request) (data : list Video)
        (p : PageInfo) (f : Filters) :
  body (getAllVideos db req) = Listing data p f ->
  forall v, In v data ->
    isActive v = true
    /\ (forall s, q_type (query req) = Some s -> s <> EmptyString ->
                  type v = s)
    /\ (forall s, q_grade (query req) = Some s -> s <> EmptyString ->
                  grade v = Some (Text.trim s))
    /\ (forall s, q_difficulty (query req) = Some s -> s <> EmptyString ->
                  difficulty v = s)
    /\ (forall s, q_bookTitle (query req) = Some s -> s <> EmptyString ->
                  exists t, RegExp_i s = Some t /\ t (bookTitle v) = true)
    /\ (forall s, q_chapter (query req) = Some s -> s <> EmptyString ->
                  exists t, RegExp_i s = Some t /\ t (chapter v) = true)
    /\ (forall s, q_subject (query req) = Some s -> s <> EmptyString ->
                  exists t x, RegExp_i s = Some t /\ subject v = Some x
                              /\ t x = true)
    /\ (forall s, q_search (query req) = Some s -> s <> EmptyString ->
                  exists t, RegExp_i s = Some t
                            /\ Words.search_hit t v = true).
Proof.
  intros H v Hv. apply getAllVideos_listing in H.
  destruct H as (filter & Hq & Hc & _).
  apply cursor_incl in Hc. apply Hc in Hv.
  destruct (select_members _ _ _ (build_query_active _ _ Hq) Hv)
    as [_ Hact].
  apply filter_In in Hv. destruct Hv as [_ Hs].
  unfold build_query, and_then in Hq.
  destruct (regex_key PBookTitle _) as [kb|] eqn:Hkb; [|discriminate].
  destruct (regex_key PChapter _) as [kc|] eqn:Hkc; [|discriminate].
  destruct (regex_key PSubject _) as [ks|] eqn:Hks; [|discriminate].
  destruct (search_key _) as [kq|] eqn:Hkq; [|discriminate].
  injection Hq as <-. unfold satisfies in Hs.
  cbn [forallb] in Hs.
  rewrite !forallb_app in Hs.
  apply andb_true_iff in Hs. destruct Hs as [_ Hs].
  apply andb_true_iff in Hs. destruct Hs as [Hb Hs].
  apply andb_true_iff in Hs. destruct Hs as [Hch Hs].
  apply andb_true_iff in Hs. destruct Hs as [Hty Hs].
  apply andb_true_iff in Hs. destruct Hs as [Hsu Hs].
  apply andb_true_iff in Hs. destruct Hs as [Hgr Hs].
  apply andb_true_iff in Hs. destruct Hs as [Hdi Hse].
  split; [exact Hact|].
  split.
  { intros s Hx Hne.
    pose proof (equal_key_sound PType _ v s Hty Hx Hne) as Hr.
    simpl in Hr. congruence. }
  split.
  { intros s Hx Hne. exact (equal_key_sound PGrade _ v s Hgr Hx Hne). }
  split.
  { intros s Hx Hne.
    pose proof (equal_key_sound PDifficulty _ v s Hdi Hx Hne) as Hr.
    simpl in Hr. congruence. }
  split.
  { intros s Hx Hne.
    destruct (regex_key_sound PBookTitle _ _ v s Hkb Hb Hx Hne)
      as (t & y & Ht & Hy & Hty').
    simpl in Hy. injection Hy as <-. eauto. }
  split.
  { intros s Hx Hne.
    destruct (regex_key_sound PChapter _ _ v s Hkc Hch Hx Hne)
      as (t & y & Ht & Hy & Hty').
    simpl in Hy. injection Hy as <-. eauto. }
  split.
  { intros s Hx Hne.
    destruct (regex_key_sound PSubject _ _ v s Hks Hsu Hx Hne)
      as (t & y & Ht & Hy & Hty').
    simpl in Hy. eauto. }
  intros s Hx Hne. exact (search_key_sound _ _ v s Hkq Hse Hx Hne).
Qed.

(** The space in front of [?grade=%2012] is trimmed away: the entry of
    grade 12 is listed. *)
Example spaced_grade_lists_grade_12 :
  exists p f,
    body (list_route (E:=Mem.engine) [Mem.graded] Mem.spaced_grade_query)
    = Listing [Mem.graded] p f.
Proof. eexists; eexists. vm_compute. reflexivity. Qed.

Lemma listing_satisfies_filters_witness :
  EngineLaws Mem.engine
  /\ exists data p f,
       body (getAllVideos (E:=Mem.engine) Mem.catalog
               (run_rules queryValidationRules Mem.density_query))
       = Listing data p f
       /\ forall v, In v data -> isActive v = true /\ type v = "video".
Proof.
  split; [exact mem_engine_laws|].
  eexists; eexists; eexists. split; [vm_compute; reflexivity|].
  intros v Hv.
  destruct (listing_satisfies_filters mem_engine_laws Mem.catalog
              (run_rules queryValidationRules Mem.density_query)
              _ _ _ ltac:(vm_compute; reflexivity) v Hv)
    as (Ha & Hty & _).
  split; [exact Ha|]. apply Hty; [reflexivity | discriminate].
Defined.

(** X20: an empty filter parameter is an absent one: the list operation
    builds the same filter, and answers with the same status, the same
    page and the same pagination metadata as for the request without its
    empty parameters. *)
Theorem empty_filter_is_absent {E : Engine} (db : collection)
        (req : Request) :
  let req' := {| query := Words.without_empty (query req);
                 validationErrors := validationErrors req |} in
  build_query (query req') = build_query (query req)
  /\ status (getAllVideos db req') = status (getAllVideos db req)
  /\ (forall data p f,
         body (getAllVideos db req) = Listing data p f ->
         exists f', body (getAllVideos db req') = Listing data p f').
Proof.
  cbn zeta. cbn [query].
  split; [apply build_query_without_empty|].
  unfold getAllVideos. cbn [query].
  rewrite build_query_without_empty.
  cbn [Words.without_empty q_page q_limit q_sortBy q_sortOrder].
  destruct (build_query (query req)) as [filter|].
  - destruct (cursor _ _ _ _) as [videos|].
    + split; [reflexivity|]. intros data p f H.
      injection H as <- <- _. eexists. reflexivity.
    + split; [reflexivity|]. intros data p f H. discriminate H.
  - split; [reflexivity|]. intros data p f H. discriminate H.
Qed.

Lemma empty_filter_is_absent_witness :
  exists data p f f',
    body (getAllVideos (E:=Mem.engine) Mem.catalog
            {| query := Mem.blank_type_query; validationErrors := [] |})
    = Listing data p f
    /\ body (getAllVideos (E:=Mem.engine) Mem.catalog
               {| query := Words.without_empty Mem.blank_type_query;
                  validationErrors := [] |})
       = Listing data p f'
    /\ totalCount p = 5.
Proof.
  destruct (proj2 (proj2 (empty_filter_is_absent (E:=Mem.engine) Mem.catalog
              {| query := Mem.blank_type_query; validationErrors := [] |}))
              _ _ _ ltac:(vm_compute; reflexivity)) as (f' & Hf').
  eexists; eexists; eexists; exists f'.
  split; [vm_compute; reflexivity|].
  split; [exact Hf' | reflexivity].
Defined.

(** X21: the total count of a listing is the number of active entries
    that satisfy the filter: it is not negative and not above the number
    of active entries; the page holds entries of the collection only, and
    it is empty when the count is 0. *)
Theorem listing_count {E : Engine} (L : EngineLaws E) (db : collection)
        (req : Request) (data : list Video) (p : PageInfo) (f : Filters) :
  body (getAllVideos db req) = Listing data p f ->
  0 <= totalCount p <= Z.of_nat (List.length (Spec.without_deleted db))
  /\ (forall v, In v data -> In v db)
  /\ (totalCount p = 0 -> data = []).
Proof.
  intros H. apply getAllVideos_listing in H.
  destruct H as (filter & Hq & Hc & ->).
  apply cursor_incl in Hc. cbn [page_info totalCount].
  unfold countDocuments.
  pose proof (build_query_active _ _ Hq) as Hact.
  split.
  - rewrite <- (select_without_deleted db filter Hact).
    pose proof (filter_length_le (satisfies filter) (Spec.without_deleted db)).
    unfold select. lia.
  - split.
    + intros v Hv. apply Hc in Hv.
      apply (select_members _ _ _ Hact Hv).
    + intros H0. destruct (select db filter) as [|x l]; [|discriminate H0].
      destruct data as [|y data]; [reflexivity|].
      destruct (Hc y (or_introl eq_refl)).
Qed.

Lemma listing_count_witness :
  EngineLaws Mem.engine
  /\ exists data p f,
       body (getAllVideos (E:=Mem.engine) Mem.catalog
               (run_rules queryValidationRules Mem.bad_enum_query))
       = Listing data p f
       /\ totalCount p = 0 /\ data = [].
Proof.
  split; [exact mem_engine_laws|].
  eexists; eexists; eexists. split; [vm_compute; reflexivity|].
  split; [reflexivity|].
  apply (proj2 (proj2 (listing_count mem_engine_laws Mem.catalog
                         (run_rules queryValidationRules Mem.bad_enum_query)
                         _ _ _ ltac:(vm_compute; reflexivity)))).
  reflexivity.
Defined.

(** ** Metadata and statistics *)

Section SortFacts.

Lemma insert_sorted_perm x xs : Permutation (insert_sorted x xs) (x :: xs).
Proof.
  induction xs as [|y ys IH]; simpl; [reflexivity|].
  destruct (String.leb x y); [reflexivity|].
  rewrite IH. apply perm_swap.
Qed.

Lemma sort_strings_perm xs : Permutation (sort_strings xs) xs.
Proof.
  induction xs as [|x xs IH]; simpl; [reflexivity|].
  rewrite insert_sorted_perm. constructor. exact IH.
Qed.

Lemma insert_sorted_HdRel a x xs :
  HdRel Words.string_le a xs -> Words.string_le a x ->
  HdRel Words.string_le a (insert_sorted x xs).
Proof.
  intros Hxs Hax. destruct xs as [|y ys]; simpl; [constructor; exact Hax|].
  destruct (String.leb x y); constructor; [exact Hax|].
  inversion Hxs; assumption.
Qed.

Lemma insert_sorted_Sorted x xs :
  Sorted Words.string_le xs -> Sorted Words.string_le (insert_sorted x xs).
Proof.
  induction xs as [|y ys IH]; simpl; intros Hs.
  - constructor; constructor.
  - destruct (String.leb x y) eqn:Hxy.
    + constructor; [exact Hs | constructor; exact Hxy].
    + inversion Hs as [|? ? Hys Hhd]; subst.
      constructor; [apply IH, Hys|].
      apply insert_sorted_HdRel; [exact Hhd|].
      destruct (String.leb_total x y) as [H|H]; [congruence | exact H].
Qed.

Lemma sort_strings_Sorted xs : Sorted Words.string_le (sort_strings xs).
Proof.
  induction xs as [|x xs IH]; simpl; [constructor|].
  apply insert_sorted_Sorted, IH.
Qed.

Lemma insert_row_perm x xs : Permutation (insert_row x xs) (x :: xs).
Proof.
  induction xs as [|y ys IH]; simpl; [reflexivity|].
  destruct (snd y <? snd x); [reflexivity|].
  rewrite IH. apply perm_swap.
Qed.

Lemma sort_rows_perm xs : Permutation (sort_rows xs) xs.
Proof.
  induction xs as [|x xs IH]; simpl; [reflexivity|].
  rewrite insert_row_perm. constructor. exact IH.
Qed.

Lemma insert_row_HdRel a x xs :
  HdRel Words.count_ge a xs -> Words.count_ge a x ->
  HdRel Words.count_ge a (insert_row x xs).
Proof.
  intros Hxs Hax. destruct xs as [|y ys]; simpl; [constructor; exact Hax|].
  destruct (snd y <? snd x); constructor; [exact Hax|].
  inversion Hxs; assumption.
Qed.

Lemma insert_row_Sorted x xs :
  Sorted Words.count_ge xs -> Sorted Words.count_ge (insert_row x xs).
Proof.
  induction xs as [|y ys IH]; simpl; intros Hs.
  - constructor; constructor.
  - destruct (Z.ltb_spec (snd y) (snd x)) as [Hlt|Hge].
    + constructor; [exact Hs | constructor; unfold Words.count_ge; lia].
    + inversion Hs as [|? ? Hys Hhd]; subst.
      constructor; [apply IH, Hys|].
      apply insert_row_HdRel; [exact Hhd | unfold Words.count_ge; lia].
Qed.

Lemma sort_rows_Sorted xs : Sorted Words.count_ge (sort_rows xs).
Proof.
  induction xs as [|x xs IH]; simpl; [constructor|].
  apply insert_row_Sorted, IH.
Qed.

Lemma Sorted_firstn {A : Type} (R : A -> A -> Prop) n : forall l,
  Sorted R l -> Sorted R (firstn n l).
Proof.
  induction n as [|n IH]; intros l Hs; [constructor|].
  destruct l as [|x l]; [constructor|]. simpl.
  inversion Hs as [|? ? Hl Hhd]; subst.
  constructor; [apply IH, Hl|].
  destruct n; [constructor|].
  destruct l as [|y l]; [constructor|].
  simpl. constructor. inversion Hhd; assumption.
Qed.

Lemma NoDup_firstn {A : Type} n (l : list A) :
  NoDup l -> NoDup (firstn n l).
Proof.
  intros H. rewrite <- (firstn_skipn n l) in H.
  eapply NoDup_app_remove_r, H.
Qed.

Lemma group_by_book_keys vs :
  map fst (group_by_book vs) = nodup string_dec (map bookTitle vs).
Proof.
  unfold group_by_book. rewrite map_map. simpl. apply map_id.
Qed.

Lemma group_by_book_row vs row :
  In row (group_by_book vs) ->
  snd row = Z.of_nat (List.length
                        (filter (fun v => String.eqb (bookTitle v) (fst row))
                                vs))
  /\ 1 <= snd row.
Proof.
  unfold group_by_book. intros H. apply in_map_iff in H.
  destruct H as (b & <- & Hb). cbn [fst snd]. split; [reflexivity|].
  apply nodup_In in Hb. apply in_map_iff in Hb.
  destruct Hb as (v & Hv & Hin).
  assert (Hf : In v (filter (fun v0 => String.eqb (bookTitle v0) b) vs)).
  { apply filter_In. split; [exact Hin|]. rewrite Hv.
    apply String.eqb_refl. }
  destruct (filter _ vs); [contradiction | simpl; lia].
Qed.

Lemma typed_counts_disjoint (db : collection) :
  (List.length (select db [Key (Equals PType "video"); Key (IsActive true)])
   + List.length (select db [Key (Equals PType "image");
                             Key (IsActive true)])
   <= List.length (filter isActive db))%nat.
Proof.
  unfold select. induction db as [|v db IH]; simpl; [lia|].
  destruct (isActive v); simpl.
  - destruct (String.eqb_spec (type v) "video") as [Hv|Hv];
      destruct (String.eqb_spec (type v) "image") as [Hi|Hi]; simpl;
      try lia.
    rewrite Hv in Hi. discriminate Hi.
  - rewrite !andb_false_r. simpl. lia.
Qed.

End SortFacts.

(** X22: the book titles that [getUniqueBooks] returns are in ascending
    order, without duplicates, and are exactly the book titles of the
    active entries. *)
Theorem getUniqueBooks_sorted (db : collection) :
  exists names,
    getUniqueBooks db
    = {| status := 200; success := true; body := Names names |}
    /\ Sorted Words.string_le names
    /\ NoDup names
    /\ forall b, In b names <->
                 exists v, In v db /\ isActive v = true /\ bookTitle v = b.
Proof.
  eexists. split; [reflexivity|].
  split; [apply sort_strings_Sorted|].
  split.
  - eapply Permutation_NoDup; [symmetry; apply sort_strings_perm|].
    apply NoDup_nodup.
  - intros b. rewrite in_sort_strings. unfold distinct.
    rewrite nodup_In, in_map_iff, select_active_only. split.
    + intros (v & Hb & Hv). apply filter_In in Hv.
      exists v. tauto.
    + intros (v & Hin & Ha & Hb). exists v. split; [exact Hb|].
      apply filter_In. auto.
Qed.

Lemma getUniqueBooks_sorted_witness :
  exists names,
    getUniqueBooks Mem.catalog
    = {| status := 200; success := true; body := Names names |}
    /\ Sorted Words.string_le names
    /\ NoDup names.
Proof.
  destruct (getUniqueBooks_sorted Mem.catalog)
    as (names & H1 & H2 & H3 & _).
  exists names. split; [exact H1|]. split; [exact H2 | exact H3].
Defined.

(** X23: [getChaptersByBook] answers 500 when the book title does not
    compile as a regular expression; otherwise the chapters it returns are
    in ascending order, without duplicates, and are exactly the chapters
    of the active entries whose book title passes the test of the
    expression. *)
Theorem getChaptersByBook_sorted {E : Engine} (db : collection)
        (book : string) :
  (RegExp_i book = None -> status (getChaptersByBook db book) = 500)
  /\ (forall t, RegExp_i book = Some t ->
        exists names,
          getChaptersByBook db book
          = {| status := 200; success := true; body := Names names |}
          /\ Sorted Words.string_le names
          /\ NoDup names
          /\ forall c, In c names <->
                       exists v, In v db /\ isActive v = true
                                 /\ t (bookTitle v) = true
                                 /\ chapter v = c).
Proof.
  unfold getChaptersByBook. split.
  - intros ->. reflexivity.
  - intros t ->. eexists. split; [reflexivity|].
    split; [apply sort_strings_Sorted|].
    split.
    + eapply Permutation_NoDup; [symmetry; apply sort_strings_perm|].
      apply NoDup_nodup.
    + intros c. rewrite in_sort_strings. unfold distinct, select.
      rewrite nodup_In, in_map_iff. split.
      * intros (v & Hc & Hv). apply filter_In in Hv.
        destruct Hv as [Hin Hs]. simpl in Hs.
        destruct (t (bookTitle v)) eqn:Ht; [|discriminate].
        destruct (isActive v) eqn:Ha; [|discriminate].
        exists v. auto.
      * intros (v & Hin & Ha & Ht & Hc). exists v. split; [exact Hc|].
        apply filter_In. split; [exact Hin|]. simpl.
        rewrite Ht, Ha. reflexivity.
Qed.

Lemma getChaptersByBook_sorted_witness :
  exists names,
    getChaptersByBook (E:=Mem.engine) Mem.catalog "physics"
    = {| status := 200; success := true; body := Names names |}
    /\ names = ["1"; "2"; "3"]
    /\ Sorted Words.string_le names.
Proof.
  destruct (Mem.regexp_i "physics") as [t|] eqn:Ht;
    [|vm_compute in Ht; discriminate Ht].
  destruct (proj2 (getChaptersByBook_sorted (E:=Mem.engine) Mem.catalog
                     "physics") t Ht) as (names & Hn & Hs & _).
  exists names. split; [exact Hn|]. split; [|exact Hs].
  vm_compute in Hn. injection Hn as <-. reflexivity.
Defined.

(** X24: in the statistics, [total] is the sum of the counts of active
    video and image entries and is not above the number of active
    entries; [views] is the sum of the views of the active entries;
    [topBooks] has at most 10 rows, in descending order of count, with
    one row per book title, and the count of a row is the number of active
    entries of its book title, which is at least 1. *)
Theorem getVideoStats_consistent {E : Engine} (db : collection)
        (st : Stats) :
  body (getVideoStats db) = Statistics st ->
  t_total (totals st) = t_videos (totals st) + t_images (totals st)
  /\ 0 <= t_videos (totals st) /\ 0 <= t_images (totals st)
  /\ t_total (totals st) <= Z.of_nat (List.length (Spec.without_deleted db))
  /\ t_views (totals st)
     = fold_right Z.add 0 (map views (Spec.without_deleted db))
  /\ (List.length (topBooks st) <= 10)%nat
  /\ Sorted Words.count_ge (topBooks st)
  /\ NoDup (map fst (topBooks st))
  /\ forall row, In row (topBooks st) ->
                 snd row = Words.active_of_book db (fst row)
                 /\ 1 <= snd row.
Proof.
  unfold getVideoStats.
  destruct (cursor _ _ _ _) as [recent|]; [|discriminate].
  intros Hst.
  assert (Htot : totals st
                 = {| t_videos := countDocuments db
                                    [Key (Equals PType "video");
                                     Key (IsActive true)];
                      t_images := countDocuments db
                                    [Key (Equals PType "image");
                                     Key (IsActive true)];
                      t_views := fold_right Z.add 0
                                   (map views
                                      (select db [Key (IsActive true)]));
                      t_total := countDocuments db
                                   [Key (Equals PType "video");
                                    Key (IsActive true)]
                                 + countDocuments db
                                     [Key (Equals PType "image");
                                      Key (IsActive true)] |})
    by (inversion Hst; reflexivity).
  assert (Htop : topBooks st
                 = firstn 10 (sort_rows
                                (group_by_book
                                   (select db [Key (IsActive true)]))))
    by (inversion Hst; reflexivity).
  clear Hst. rewrite Htot, Htop. cbn [t_videos t_images t_views t_total].
  rewrite select_active_only. unfold countDocuments.
  pose proof (typed_counts_disjoint db) as Hd.
  split; [reflexivity|]. split; [lia|]. split; [lia|].
  split; [unfold Spec.without_deleted; lia|].
  split; [reflexivity|].
  split; [apply firstn_le_length|].
  split; [apply Sorted_firstn, sort_rows_Sorted|].
  split.
  - rewrite <- firstn_map. apply NoDup_firstn.
    eapply Permutation_NoDup;
      [symmetry; apply Permutation_map, sort_rows_perm|].
    rewrite group_by_book_keys. apply NoDup_nodup.
  - intros row Hrow. apply in_firstn in Hrow.
    apply -> in_sort_rows in Hrow.
    apply group_by_book_row in Hrow. exact Hrow.
Qed.

Lemma getVideoStats_consistent_witness :
  exists st,
    body (getVideoStats (E:=Mem.engine) Mem.catalog) = Statistics st
    /\ topBooks st = [("Physics", 4); ("Chemistry", 1)]
    /\ t_total (totals st) = 5
    /\ Sorted Words.count_ge (topBooks st).
Proof.
  eexists. split; [vm_compute; reflexivity|].
  split; [reflexivity|]. split; [reflexivity|].
  apply (getVideoStats_consistent (E:=Mem.engine) Mem.catalog).
  vm_compute. reflexivity.
Defined.

(** X25: [getByBookAndChapter] returns active entries of the collection
    only, and the book title and the chapter of each of them pass the
    tests of the two regular expressions. *)
Theorem getByBookAndChapter_sound {E : Engine} (L : EngineLaws E)
        (db : collection) (book chap : string) (vs : list Video) :
  Schema.getByBookAndChapter db book chap = Some vs ->
  exists tb tc,
    RegExp_i book = Some tb /\ RegExp_i chap = Some tc
    /\ forall v, In v vs ->
                 In v db /\ isActive v = true
                 /\ tb (bookTitle v) = true /\ tc (chapter v) = true.
Proof.
  unfold Schema.getByBookAndChapter.
  destruct (RegExp_i book) as [tb|]; [|discriminate].
  destruct (RegExp_i chap) as [tc|]; [|discriminate].
  intros Hc. exists tb, tc. split; [reflexivity|]. split; [reflexivity|].
  intros v Hv. apply cursor_incl in Hc. apply Hc in Hv.
  apply filter_In in Hv. destruct Hv as [Hin Hs]. simpl in Hs.
  destruct (tb (bookTitle v)); [|discriminate].
  destruct (tc (chapter v)); [|discriminate].
  destruct (isActive v); [|discriminate]. auto.
Qed.

Lemma getByBookAndChapter_sound_witness :
  EngineLaws Mem.engine
  /\ exists vs,
       Schema.getByBookAndChapter (E:=Mem.engine) Mem.catalog "phys" "1"
       = Some vs
       /\ forall v, In v vs -> isActive v = true.
Proof.
  split; [exact mem_engine_laws|].
  eexists. split; [vm_compute; reflexivity|].
  intros v Hv.
  destruct (getByBookAndChapter_sound mem_engine_laws Mem.catalog
              "phys" "1" _ ltac:(vm_compute; reflexivity))
    as (tb & tc & _ & _ & H).
  apply (H v Hv).
Defined.

(** ** Creating an entry *)

(** X26: [createVideo] stores nothing unless it answers 201.  It answers
    400 without reaching the store when validation errors were recorded,
    and, for an entry of type video, when the link is missing or no
    identifier can be extracted from it.  When it answers 201, no
    validation error was recorded, the document returned is the one the
    store saved, and the data of an entry of type video carries the link
    and the identifier extracted from it. *)
Theorem createVideo_guards {Err : Type}
        (persist : Create.VideoData -> collection -> Create.outcome)
        (db : collection) (errors : list Err) (b : Create.Body)
        (file : option Create.File) :
  let r := Create.createVideo persist db errors b file in
  (Create.status_of (fst r) <> 201 -> snd r = db)
  /\ (errors <> [] -> r = (Create.Invalid errors, db))
  /\ (errors = [] -> Create.type_is b "video" = true ->
      JS.truthy (Create.b_youtubeUrl b) = false
      \/ (exists url, Create.b_youtubeUrl b = Some url
                      /\ Extract.extractYoutubeVideoId url = None) ->
      Create.status_of (fst r) = 400 /\ snd r = db)
  /\ (forall v, fst r = Create.Created v ->
        errors = []
        /\ exists d,
             persist d db = Create.Saved v (snd r)
             /\ (Create.type_is b "video" = true ->
                 exists url id,
                   Create.b_youtubeUrl b = Some url
                   /\ Extract.extractYoutubeVideoId url = Some id
                   /\ Create.d_youtubeUrl d = Some url
                   /\ Create.d_youtubeVideoId d = Some id)).
Proof.
  cbn zeta. unfold Create.createVideo.
  destruct errors as [|e errors].
  - split.
    { destruct (Create.video_step b (Create.base_data b)) as [msg|d];
        [reflexivity|].
      destruct (persist _ db); cbn [fst snd Create.status_of];
        [intros H; contradiction H; reflexivity | reflexivity | reflexivity]. }
    split; [intros H; contradiction H; reflexivity|].
    split.
    { intros _ Hty Hbad. unfold Create.video_step. rewrite Hty.
      destruct Hbad as [Hf|(url & Hu & Hx)].
      - destruct (Create.b_youtubeUrl b) as [[|c u]|];
          try discriminate Hf; split; reflexivity.
      - rewrite Hu. destruct url as [|c u]; [split; reflexivity|].
        rewrite Hx. split; reflexivity. }
    intros v. unfold Create.video_step.
    destruct (Create.type_is b "video") eqn:Hty.
    + destruct (Create.b_youtubeUrl b) as [[|c u]|] eqn:Hu;
        try (cbn [fst]; discriminate).
      destruct (Extract.extractYoutubeVideoId (String c u))
        as [[|c' id']|] eqn:Hx; try (cbn [fst]; discriminate).
      destruct (persist _ db) as [v0 db'| |] eqn:Hp;
        cbn [fst snd]; try discriminate.
      intros [= <-]. split; [reflexivity|]. eexists. split; [exact Hp|].
      intros _. exists (String c u), (String c' id').
      unfold Create.image_step.
      destruct file as [f|]; [destruct (Create.type_is b "image")|];
        repeat split; assumption.
    + destruct (persist _ db) as [v0 db'| |] eqn:Hp;
        cbn [fst snd]; try discriminate.
      intros [= <-]. split; [reflexivity|]. eexists. split; [exact Hp|].
      discriminate.
  - cbn [fst snd Create.status_of].
    split; [reflexivity|]. split; [reflexivity|].
    split; [discriminate | discriminate].
Qed.

Lemma createVideo_guards_witness :
  Extract.extractYoutubeVideoId "https://example.com/watch" = None
  /\ Create.createVideo (Err:=string) Create.append_only Mem.catalog []
       (Create.video_body "https://example.com/watch") None
     = (Create.Rejected 400 "Invalid YouTube URL format", Mem.catalog)
  /\ exists v,
       fst (Create.createVideo (Err:=string) Create.append_only Mem.catalog
              [] (Create.video_body "https://youtu.be/dQw4w9WgXcQ") None)
       = Create.Created v
       /\ youtubeVideoId v = Some "dQw4w9WgXcQ".
Proof.
  assert (Hx : Extract.extractYoutubeVideoId "https://example.com/watch"
               = None) by (vm_compute; reflexivity).
  split; [exact Hx|].
  split.
  - destruct (proj1 (proj2 (proj2
               (createVideo_guards (Err:=string) Create.append_only
                  Mem.catalog [] (Create.video_body
                                    "https://example.com/watch") None)))
               eq_refl eq_refl
               (or_intror (ex_intro _ "https://example.com/watch"
                                    (conj eq_refl Hx)))) as [_ Hdb].
    vm_compute. reflexivity.
  - eexists. split; [vm_compute; reflexivity | reflexivity].
Defined.

(** ** Requests that pass the rules *)

Section RuleFacts.

Lemma int_of_string_parse s n :
  int_of_string s = Some n ->
  JS.parseInt (JS.VString s) (Some 10) = Some n.
Proof.
  unfold int_of_string. intros H.
  destruct (snd (JS.take_sign s)) as [|c r]; [discriminate|].
  destruct (all_digits _); [exact H | discriminate].
Qed.

Lemma passes_isInt s lo hi :
  passes (isInt (Some lo) hi) s = true ->
  exists n, JS.parseInt (JS.VString s) (Some 10) = Some n
            /\ lo <= n
            /\ match hi with Some h => n <= h | None => True end.
Proof.
  unfold passes. intros H.
  destruct (int_of_string s) as [n|] eqn:Hn; [|discriminate].
  apply andb_true_iff in H. destruct H as [H1 H2].
  apply Z.leb_le in H1. exists n.
  split; [apply int_of_string_parse, Hn|].
  split; [exact H1|].
  destruct hi as [h|]; [apply Z.leb_le, H2 | exact I].
Qed.

Lemma run_rules_error q r :
  In r queryValidationRules ->
  forall value, read_param (on r) q = Some value ->
                passes (must r) value = false ->
                In (on r, message r)
                   (validationErrors (run_rules queryValidationRules q)).
Proof.
  intros Hr value Hv Hp. unfold run_rules. cbn [validationErrors].
  apply in_flat_map. exists r. split; [exact Hr|].
  unfold run_rule. rewrite Hv, Hp. left. reflexivity.
Qed.

End RuleFacts.

(** Leading zeros pass the rules, as they pass [isInt]: no error is
    recorded for [?page=007&limit=050], and the handler reads page 7
    and a page size of 50. *)
Example leading_zeros_pass :
  validationErrors (run_rules queryValidationRules Mem.zeros_query) = []
  /\ Paging.pageNumber (q_page Mem.zeros_query) = 7
  /\ Paging.pageSize (q_limit Mem.zeros_query) = 50.
Proof. repeat split. Qed.

(** X27: for a request on which the rules record no error for [page] and
    none for [limit], the list operation uses a page number of at least 1
    and a page size in [1,50]: the numbers that the parameters read as, 1
    and 10 when they are absent; the offset handed to the store is then a
    number that is not negative. *)
Theorem valid_paging_is_clamped (q : ListQuery) :
  (forall e, In e (validationErrors (run_rules queryValidationRules q)) ->
             fst e <> Ppage /\ fst e <> Plimit) ->
  1 <= Paging.pageNumber (q_page q)
  /\ 1 <= Paging.pageSize (q_limit q) <= 50
  /\ (exists k, Paging.skip (q_page q) (q_limit q) = Some k /\ 0 <= k)
  /\ (forall s, q_page q = Some s ->
                Paging.page_value (q_page q)
                = Some (Paging.pageNumber (q_page q)))
  /\ (forall s, q_limit q = Some s ->
                Paging.limit_value (q_limit q)
                = Some (Paging.pageSize (q_limit q))).
Proof.
  intros Hok.
  assert (Hpage : forall s, q_page q = Some s ->
            exists n, JS.parseInt (JS.VString s) (Some 10) = Some n
                      /\ 1 <= n).
  { intros s Hs.
    destruct (passes (isInt (Some 1) None) s) eqn:Hp.
    - destruct (passes_isInt s 1 None Hp) as (n & Hn & H1 & _). eauto.
    - exfalso.
      pose proof (run_rules_error q
                    {| on := Ppage; must := isInt (Some 1) None;
                       message := "Page must be a positive integer" |}
                    ltac:(simpl; auto) s Hs Hp) as He.
      apply Hok in He. destruct He as [He _]. apply He. reflexivity. }
  assert (Hlimit : forall s, q_limit q = Some s ->
            exists n, JS.parseInt (JS.VString s) (Some 10) = Some n
                      /\ 1 <= n <= 50).
  { intros s Hs.
    destruct (passes (isInt (Some 1) (Some 50)) s) eqn:Hp.
    - destruct (passes_isInt s 1 (Some 50) Hp) as (n & Hn & H1 & H2).
      eauto.
    - exfalso.
      pose proof (run_rules_error q
                    {| on := Plimit; must := isInt (Some 1) (Some 50);
                       message := "Limit must be between 1 and 50" |}
                    ltac:(simpl; auto) s Hs Hp) as He.
      apply Hok in He. destruct He as [_ He]. apply He. reflexivity. }
  assert (Hp : 1 <= Paging.pageNumber (q_page q)
               /\ forall s, q_page q = Some s ->
                            Paging.page_value (q_page q)
                            = Some (Paging.pageNumber (q_page q))).
  { unfold Paging.pageNumber, Paging.page_value.
    destruct (q_page q) as [s|]; [|split; [reflexivity | discriminate]].
    destruct (Hpage s eq_refl) as (n & Hn & H1).
    cbn [JS.with_default]. rewrite Hn. unfold JS.or_else.
    destruct (Z.eqb_spec n 0); [lia|]. split; [exact H1 | reflexivity]. }
  assert (Hl : 1 <= Paging.pageSize (q_limit q) <= 50
               /\ forall s, q_limit q = Some s ->
                            Paging.limit_value (q_limit q)
                            = Some (Paging.pageSize (q_limit q))).
  { unfold Paging.pageSize, Paging.limit_value.
    destruct (q_limit q) as [s|];
      [|split; [vm_compute; split; discriminate | discriminate]].
    destruct (Hlimit s eq_refl) as (n & Hn & H1).
    cbn [JS.with_default]. rewrite Hn. unfold JS.or_else.
    destruct (Z.eqb_spec n 0); [lia|].
    split; [lia|]. intros _ _. f_equal. lia. }
  destruct Hp as [Hp1 Hp2]. destruct Hl as [Hl1 Hl2].
  split; [exact Hp1|]. split; [exact Hl1|].
  split; [|split; [exact Hp2 | exact Hl2]].
  unfold Paging.skip, JS.mul.
  pose proof safe_below_Infinity as Hinf.
  pose proof (fl_nonneg (Paging.pageNumber (q_page q) - 1)
                        ltac:(lia)) as Ha.
  assert (H1 : (Z.abs (Paging.pageSize (q_limit q)) =? JS.Infinity)
               = false) by (apply Z.eqb_neq; lia).
  assert (H2 : (Paging.pageSize (q_limit q) =? 0) = false)
    by (apply Z.eqb_neq; lia).
  rewrite H1, H2, andb_false_r. cbn [andb orb].
  eexists. split; [reflexivity|].
  apply fl_nonneg, Z.mul_nonneg_nonneg; lia.
Qed.

Lemma valid_paging_is_clamped_witness :
  validationErrors (run_rules queryValidationRules Mem.density_query) = []
  /\ Paging.pageNumber (q_page Mem.density_query) = 1
  /\ 1 <= Paging.pageSize (q_limit Mem.density_query) <= 50.
Proof.
  assert (H : validationErrors
                (run_rules queryValidationRules Mem.density_query) = [])
    by reflexivity.
  split; [exact H|]. split; [reflexivity|].
  apply (valid_paging_is_clamped Mem.density_query).
  rewrite H. intros e [].
Defined.

(** ** Tags of a new entry *)

Section TagFacts.

Lemma split_chars_no_sep sep : forall s piece,
  In piece (Text.split_chars sep s) -> ~ In sep piece.
Proof.
  induction s as [|c s IH]; simpl; intros piece H.
  - destruct H as [<-|[]]. intros [].
  - destruct (Ascii.eqb_spec c sep) as [->|Hc].
    + destruct H as [<-|H]; [intros [] | apply IH, H].
    + destruct (Text.split_chars sep s) as [|h t] eqn:Hs.
      * destruct H as [<-|[]]. intros [H|[]]. contradiction.
      * destruct H as [<-|H].
        { intros [H|H]; [contradiction|].
          revert H. apply IH. left. reflexivity. }
        { apply IH. right. exact H. }
Qed.

Lemma split_chars_length sep : forall s,
  List.length (Text.split_chars sep s)
  = S (count_occ ascii_dec s sep).
Proof.
  induction s as [|c s IH]; simpl; [reflexivity|].
  destruct (Ascii.eqb_spec c sep) as [->|Hc].
  - destruct (ascii_dec sep sep); [|contradiction].
    simpl. rewrite IH. reflexivity.
  - destruct (ascii_dec c sep); [contradiction|].
    destruct (Text.split_chars sep s); simpl in *; [discriminate | exact IH].
Qed.

Lemma drop_ws_idem s : Text.drop_ws (Text.drop_ws s) = Text.drop_ws s.
Proof.
  induction s as [|c s IH]; simpl; [reflexivity|].
  destruct (JS.is_ws c) eqn:Hc; [exact IH|]. simpl. rewrite Hc. reflexivity.
Qed.

Lemma starts_clean_rev l : Text.drop_ws l = l -> Text.ends_clean (rev l).
Proof.
  intros H a c Heq. destruct l as [|x l]; simpl in *.
  - destruct a; discriminate Heq.
  - apply app_inj_tail in Heq. destruct Heq as [_ <-].
    destruct (JS.is_ws x) eqn:Hx; [|reflexivity].
    exfalso. assert (Hlen : List.length (Text.drop_ws l)
                            = S (List.length l)) by (rewrite H; reflexivity).
    clear - Hlen.
    assert (Hle : forall m, (List.length (Text.drop_ws m)
                             <= List.length m)%nat).
    { induction m as [|y m IHm]; simpl; [lia|].
      destruct (JS.is_ws y); simpl; lia. }
    specialize (Hle l). lia.
Qed.

Lemma ends_clean_drop_ws l : Text.ends_clean l -> Text.ends_clean (Text.drop_ws l).
Proof.
  intros H a c Heq. destruct (drop_ws_suffix l) as [p Hp].
  apply (H (p ++ a)%list c). rewrite Hp at 1. rewrite Heq.
  apply app_assoc.
Qed.

Lemma ends_clean_rev_starts l :
  Text.ends_clean l -> Text.drop_ws (rev l) = rev l.
Proof.
  intros H. destruct l as [|x l] using rev_ind; [reflexivity|].
  rewrite rev_app_distr. simpl.
  rewrite (H l x eq_refl). reflexivity.
Qed.

(** Trimming a trimmed text changes nothing. *)
Lemma trim_chars_idem s :
  Text.trim_chars (Text.trim_chars s) = Text.trim_chars s.
Proof.
  unfold Text.trim_chars.
  set (u := Text.drop_ws s).
  set (w := Text.drop_ws (rev u)).
  assert (Hw1 : Text.drop_ws w = w) by apply drop_ws_idem.
  assert (Hw2 : Text.ends_clean w).
  { apply ends_clean_drop_ws, starts_clean_rev, drop_ws_idem. }
  rewrite (ends_clean_rev_starts w Hw2), rev_involutive, Hw1.
  reflexivity.
Qed.

Lemma drop_ws_split s :
  exists a, s = (a ++ Text.drop_ws s)%list
            /\ Forall (fun c => JS.is_ws c = true) a.
Proof.
  induction s as [|c s (a & IH & Ha)]; [exists []; split; constructor|].
  cbn [Text.drop_ws]. destruct (JS.is_ws c) eqn:Hc.
  - exists (c :: a). split; [simpl; f_equal; exact IH|].
    constructor; assumption.
  - exists []. split; constructor.
Qed.

Lemma drop_ws_starts s : Text.starts_clean (Text.drop_ws s).
Proof.
  induction s as [|x s IH]; intros c r H; [discriminate H|].
  cbn [Text.drop_ws] in H. destruct (JS.is_ws x) eqn:Hx.
  - exact (IH c r H).
  - injection H as <- _. exact Hx.
Qed.

Lemma ends_clean_rev l : Text.ends_clean l -> Text.starts_clean (rev l).
Proof.
  intros H c r Heq. apply (H (rev r) c).
  rewrite <- (rev_involutive l), Heq. reflexivity.
Qed.

Lemma starts_clean_rev' l : Text.starts_clean l -> Text.ends_clean (rev l).
Proof.
  intros H a c Heq. apply (H c (rev a)).
  rewrite <- (rev_involutive l), Heq, rev_app_distr. reflexivity.
Qed.

(** What trimming leaves has no white space at either end. *)
Lemma trim_chars_clean s :
  Text.starts_clean (Text.trim_chars s)
  /\ Text.ends_clean (Text.trim_chars s).
Proof.
  unfold Text.trim_chars. split.
  - apply ends_clean_rev, ends_clean_drop_ws, starts_clean_rev,
      drop_ws_idem.
  - apply starts_clean_rev', drop_ws_starts.
Qed.

(** What trimming removes is white space at both ends. *)
Lemma trim_chars_split s :
  exists l r, s = (l ++ Text.trim_chars s ++ r)%list
              /\ Forall (fun c => JS.is_ws c = true) l
              /\ Forall (fun c => JS.is_ws c = true) r.
Proof.
  unfold Text.trim_chars.
  destruct (drop_ws_split s) as (a & Hs & Ha).
  destruct (drop_ws_split (rev (Text.drop_ws s))) as (b & Hu & Hb).
  exists a, (rev b). split; [|split; [exact Ha|]].
  - rewrite Hs at 1. f_equal.
    rewrite <- rev_app_distr, <- Hu, rev_involutive. reflexivity.
  - apply Forall_forall. intros c Hc. apply in_rev in Hc.
    revert c Hc. apply Forall_forall, Hb.
Qed.

Lemma trimmed_of_trim piece : Words.trimmed_of piece (Text.trim piece).
Proof.
  unfold Words.trimmed_of, Text.trim.
  rewrite list_ascii_of_string_of_list_ascii.
  destruct (trim_chars_split (list_ascii_of_string piece))
    as (l & r & Hs & Hl & Hr).
  destruct (trim_chars_clean (list_ascii_of_string piece)) as [H1 H2].
  exists l, r. auto.
Qed.

Lemma split_chars_nonempty sep s : Text.split_chars sep s <> [].
Proof.
  destruct s as [|c s]; simpl; [discriminate|].
  destruct (Ascii.eqb c sep); [discriminate|].
  destruct (Text.split_chars sep s); discriminate.
Qed.

Lemma concat_cons_char sep c x l :
  String.concat sep (String c x :: l)
  = String c (String.concat sep (x :: l)).
Proof. destruct l; reflexivity. Qed.

(** Joining the pieces with the separator gives the text back. *)
Lemma split_join sep s :
  String.concat (String sep EmptyString) (Text.split sep s) = s.
Proof.
  unfold Text.split. induction s as [|c s IH]; [reflexivity|].
  cbn [list_ascii_of_string Text.split_chars].
  pose proof (split_chars_nonempty sep (list_ascii_of_string s)) as Hne.
  destruct (Text.split_chars sep (list_ascii_of_string s)) as [|h t];
    [contradiction|].
  set (ps := map string_of_list_ascii (h :: t)) in *.
  destruct (Ascii.eqb_spec c sep) as [->|Hc].
  - change (map string_of_list_ascii ([] :: h :: t))
      with (EmptyString :: ps).
    assert (Hps : ps <> []) by (subst ps; discriminate).
    destruct ps as [|y l]; [contradiction|].
    change (String.concat (String sep EmptyString)
                          (EmptyString :: y :: l))
      with (String sep (String.concat (String sep EmptyString) (y :: l))).
    rewrite IH. reflexivity.
  - change (map string_of_list_ascii ((c :: h) :: t))
      with (String c (string_of_list_ascii h)
            :: map string_of_list_ascii t).
    rewrite concat_cons_char.
    change (string_of_list_ascii h :: map string_of_list_ascii t)
      with ps.
    rewrite IH. reflexivity.
Qed.

Lemma Forall2_map_self {A B : Type} (R : A -> B -> Prop) (g : A -> B) l :
  (forall x, R x (g x)) -> Forall2 R l (map g l).
Proof. intros H. induction l; simpl; constructor; auto. Qed.

End TagFacts.

(** X28: the tags of a new entry are the pieces of the [tags] field
    between its commas, each without the white space around it: the
    field is the pieces joined by commas, no piece holds a comma, and
    tag by tag a tag is its piece without the white space at its two
    ends.  So there is one tag more than there are commas (empty pieces
    are kept), and trimming a tag changes nothing.  Without a [tags]
    field, or with an empty one, there are no tags.  The type-specific
    steps of [createVideo] leave the tags as they are. *)
Theorem createVideo_tags (b : Create.Body) (file : option Create.File) :
  (forall s, Create.b_tags b = Some s -> s <> EmptyString ->
     (exists pieces,
        String.concat "," pieces = s
        /\ (forall p, In p pieces ->
                      ~ In ","%char (list_ascii_of_string p))
        /\ Forall2 Words.trimmed_of pieces
                   (Create.d_tags (Create.base_data b)))
     /\ List.length (Create.d_tags (Create.base_data b))
        = S (count_occ ascii_dec (list_ascii_of_string s) ","%char)
     /\ forall t, In t (Create.d_tags (Create.base_data b)) ->
                  Text.trim t = t
                  /\ ~ In ","%char (list_ascii_of_string t))
  /\ (Create.b_tags b = None \/ Create.b_tags b = Some EmptyString ->
      Create.d_tags (Create.base_data b) = [])
  /\ (forall d, Create.video_step b (Create.base_data b) = inr d ->
                Create.d_tags (Create.image_step b file d)
                = Create.d_tags (Create.base_data b)).
Proof.
  split.
  { intros s Hs Hne. unfold Create.base_data. cbn [Create.d_tags].
    rewrite Hs. destruct s as [|c u]; [contradiction|].
    split.
    { exists (Text.split "," (String c u)).
      split; [apply split_join|].
      split; [|apply Forall2_map_self, trimmed_of_trim].
      intros p Hp. unfold Text.split in Hp. apply in_map_iff in Hp.
      destruct Hp as (piece & <- & Hp).
      rewrite list_ascii_of_string_of_list_ascii.
      eapply split_chars_no_sep, Hp. }
    unfold Text.split. rewrite !length_map, split_chars_length.
    split; [reflexivity|].
    intros t Ht. apply in_map_iff in Ht. destruct Ht as (x & <- & Hx).
    apply in_map_iff in Hx. destruct Hx as (piece & <- & Hp).
    unfold Text.trim. rewrite !list_ascii_of_string_of_list_ascii.
    split; [rewrite trim_chars_idem; reflexivity|].
    intros Hin. apply in_trim_chars in Hin.
    revert Hin. eapply split_chars_no_sep, Hp. }
  split.
  { intros [H|H]; unfold Create.base_data; cbn [Create.d_tags];
      rewrite H; reflexivity. }
  intros d Hd. unfold Create.video_step in Hd.
  assert (Hdt : Create.d_tags d = Create.d_tags (Create.base_data b)).
  { destruct (Create.type_is b "video").
    - destruct (Create.b_youtubeUrl b) as [[|c u]|]; try discriminate Hd.
      destruct (Extract.extractYoutubeVideoId (String c u)) as [[|c' i]|];
        try discriminate Hd.
      injection Hd as <-. reflexivity.
    - injection Hd as <-. reflexivity. }
  unfold Create.image_step.
  destruct file as [f|]; [destruct (Create.type_is b "image")|]; exact Hdt.
Qed.

Lemma createVideo_tags_witness :
  Create.d_tags (Create.base_data
                   (Create.video_body "https://youtu.be/dQw4w9WgXcQ"))
  = ["density"; "solids"]
  /\ List.length
       (Create.d_tags (Create.base_data
                         (Create.video_body "https://youtu.be/dQw4w9WgXcQ")))
     = 2%nat.
Proof.
  split; [reflexivity|].
  apply (proj1 (proj2 (proj1 (createVideo_tags
                         (Create.video_body "https://youtu.be/dQw4w9WgXcQ")
                         None) "density, solids" eq_refl
                        ltac:(discriminate)))).
Defined.
